(** * Gramps Web API: user management, permissions and task dispatch

    A shallow embedding of [gramps_webapi/auth/const.py],
    [gramps_webapi/auth/__init__.py], [gramps_webapi/api/tasks.py] and
    [gramps_webapi/api/resources/user.py], with the properties of the
    specification stated and proved over it. *)

From Stdlib Require Import ZArith.
From stdpp Require Import base option strings list gmap.

#[local] Set Warnings "-register-all".

Local Open Scope Z_scope.
Local Open Scope string_scope.

(** ** auth/const.py *)

Module Const.

(** User roles *)
Definition ROLE_ADMIN : Z := 5.
Definition ROLE_OWNER : Z := 4.
Definition ROLE_EDITOR : Z := 3.
Definition ROLE_CONTRIBUTOR : Z := 2.
Definition ROLE_MEMBER : Z := 1.
Definition ROLE_GUEST : Z := 0.
(** Roles for unauthorized users *)
Definition ROLE_DISABLED : Z := -1.
Definition ROLE_UNCONFIRMED : Z := -2.

(** Multi-tree permissions (admin only) *)
Definition PERM_ADD_OTHER_TREE_USER := "AddOtherTreeUser".
Definition PERM_EDIT_OTHER_TREE_USER := "EditOtherTreeUser".
Definition PERM_EDIT_OTHER_TREE_USER_ROLE := "EditOtherTreeUserRole".
Definition PERM_VIEW_OTHER_TREE_USER := "ViewOtherTreeUser".
Definition PERM_DEL_OTHER_TREE_USER := "DeleteOtherTreeUser".

(** User permissions *)
Definition PERM_ADD_USER := "AddUser".
Definition PERM_EDIT_OWN_USER := "EditOwnUser".
Definition PERM_EDIT_OTHER_USER := "EditOtherUser".
Definition PERM_EDIT_USER_ROLE := "EditUserRole".
Definition PERM_MAKE_ADMIN := "MakeAdmin".
Definition PERM_VIEW_OTHER_USER := "ViewOtherUser".
Definition PERM_DEL_USER := "DeleteUser".
Definition PERM_VIEW_PRIVATE := "ViewPrivate".
Definition PERM_EDIT_OBJ := "EditObject".
Definition PERM_ADD_OBJ := "AddObject".
Definition PERM_DEL_OBJ := "DeleteObject".
Definition PERM_IMPORT_FILE := "ImportFile".
Definition PERM_VIEW_SETTINGS := "ViewSettings".
Definition PERM_EDIT_SETTINGS := "EditSettings".
Definition PERM_TRIGGER_REINDEX := "TriggerReindex".
Definition PERM_EDIT_NAME_GROUP := "EditNameGroup".

(** [PERMISSIONS] is a dict filled by successive item assignments, each
    reading the entry of the role below.  [perm_step d r below grants]
    is the statement [d[r] = d[below] | grants]; the read of a missing
    key (a [KeyError] at import time) makes the whole table [None]. *)
Definition perm_step (d : option (gmap Z (gset string)))
    (r below : Z) (grants : gset string) : option (gmap Z (gset string)) :=
  d ≫= λ m, (m !! below) ≫= λ s, Some (<[r := s ∪ grants]> m).

Definition PERMISSIONS_load : option (gmap Z (gset string)) :=
  let d0 := Some (<[ROLE_GUEST := {[PERM_EDIT_OWN_USER]}]> ∅) in
  let d1 := perm_step d0 ROLE_MEMBER ROLE_GUEST {[PERM_VIEW_PRIVATE]} in
  let d2 := perm_step d1 ROLE_CONTRIBUTOR ROLE_MEMBER
              {[PERM_EDIT_OWN_USER; PERM_VIEW_PRIVATE; PERM_ADD_OBJ]} in
  let d3 := perm_step d2 ROLE_EDITOR ROLE_CONTRIBUTOR
              {[PERM_EDIT_OBJ; PERM_DEL_OBJ; PERM_EDIT_NAME_GROUP]} in
  let d4 := perm_step d3 ROLE_OWNER ROLE_EDITOR
              {[PERM_ADD_USER; PERM_DEL_USER; PERM_EDIT_OTHER_USER;
                PERM_EDIT_USER_ROLE; PERM_VIEW_OTHER_USER;
                PERM_IMPORT_FILE; PERM_TRIGGER_REINDEX]} in
  perm_step d4 ROLE_ADMIN ROLE_OWNER
              {[PERM_ADD_OTHER_TREE_USER; PERM_VIEW_OTHER_TREE_USER;
                PERM_EDIT_OTHER_TREE_USER; PERM_EDIT_OTHER_TREE_USER_ROLE;
                PERM_MAKE_ADMIN; PERM_DEL_OTHER_TREE_USER;
                PERM_VIEW_SETTINGS; PERM_EDIT_SETTINGS]}.

(** The table as the rest of the program sees it after import. *)
Definition PERMISSIONS : gmap Z (gset string) := default ∅ PERMISSIONS_load.

(** keys/values for user claims *)
Definition CLAIM_LIMITED_SCOPE := "limited_scope".
Definition SCOPE_RESET_PW := "reset_password".
Definition SCOPE_CONF_EMAIL := "confirm_email".

(** The login-capable roles, lowest first. *)
Definition login_roles : list Z :=
  [ROLE_GUEST; ROLE_MEMBER; ROLE_CONTRIBUTOR; ROLE_EDITOR; ROLE_OWNER; ROLE_ADMIN].

End Const.

(** ** Python run-time notions the code relies on *)

Module Py.

(** The exception classes that occur in the modelled code. *)
Inductive exc_class :=
| CValueError | CTypeError | CKeyError
| CIntegrityError | CNoResultFound | CMultipleResultsFound
| CHTTPException.

#[global] Instance exc_class_eq_dec : EqDecision exc_class.
Proof. solve_decision. Defined.

(** Values compared by [==] in the code: [int] and [str] objects.  An
    [int] never equals a [str]. *)
Inductive pyval :=
| PyInt (z : Z)
| PyStr (s : string).

#[global] Instance pyval_eq_dec : EqDecision pyval.
Proof. solve_decision. Defined.

Definition py_eq (a b : pyval) : bool :=
  match a, b with
  | PyInt x, PyInt y => bool_decide (x = y)
  | PyStr x, PyStr y => bool_decide (x = y)
  | _, _ => false
  end.

(** Raised exception objects.  [HTTPException code] is what flask's
    [abort(code)] raises. *)
Inductive exn :=
| ValueError (msg : string)
| TypeError (msg : string)
| KeyError (key : pyval)
| IntegrityError
| NoResultFound
| MultipleResultsFound
| HTTPException (code : Z).

#[global] Instance exn_eq_dec : EqDecision exn.
Proof. solve_decision. Defined.

Definition class_of (e : exn) : exc_class :=
  match e with
  | ValueError _ => CValueError
  | TypeError _ => CTypeError
  | KeyError _ => CKeyError
  | IntegrityError => CIntegrityError
  | NoResultFound => CNoResultFound
  | MultipleResultsFound => CMultipleResultsFound
  | HTTPException _ => CHTTPException
  end.

(** None of the classes above derives from another one of them. *)
Definition isinstance (e : exn) (c : exc_class) : bool :=
  bool_decide (class_of e = c).

(** The expression after [except]: a class, or (as in
    [except ValueError():]) an object that is not a class. *)
Inductive except_expr :=
| ExceptClass (c : exc_class)
| ExceptObject (e : exn).

Definition not_a_class_msg : string :=
  "catching classes that do not inherit from BaseException is not allowed".

Inductive outcome (A : Type) :=
| Return (a : A)
| Raise (e : exn).
Arguments Return {A} a.
Arguments Raise {A} e.

(** [len(s)] *)
Definition len (s : string) : pyval := PyInt (Z.of_nat (String.length s)).

(** [s.rstrip(c)] for a one-character [c]. *)
Fixpoint rstrip (c : Ascii.ascii) (s : string) : string :=
  match s with
  | EmptyString => EmptyString
  | String a s' =>
      let r := rstrip c s' in
      if bool_decide (r = EmptyString) && bool_decide (a = c)
      then EmptyString else String a r
  end.

(** The character [/]. *)
Definition slash : Ascii.ascii := Ascii.ascii_of_nat 47.

(** JSON documents of the responses. *)
Inductive json :=
| JNull
| JInt (z : Z)
| JStr (s : string)
| JArr (items : list json)
| JObj (fields : list (string * json)).

End Py.
Export Py.

(** ** Data: rows of the [users] table, tokens, tasks, the world *)

(** GUIDs in their canonical text form, [str(user_id)]. *)
Definition GUID := string.

(** [class User(user_db.Model)]: one row of the table [users]. *)
Record User := mkUser {
  user_id : GUID;                  (* primary key *)
  user_name : string;              (* unique, not null *)
  user_email : option string;      (* unique *)
  user_fullname : option string;
  user_pwhash : string;            (* not null *)
  user_role : Z;                   (* default 0 *)
  user_tree : option string
}.

#[global] Instance User_eq_dec : EqDecision User.
Proof. solve_decision. Defined.

(** What [create_access_token(identity, additional_claims, expires_delta)]
    signs: the identity, the additional claims and the validity in hours.
    [get_jwt_identity()] and [get_jwt()] read them back. *)
Record Token := mkToken {
  token_identity : GUID;
  token_claims : gmap string string;
  token_hours : Z
}.

(** A call of one of the [@shared_task] functions of [api/tasks.py] that
    the user resources dispatch, by name and keyword arguments: this is the
    message celery puts on the queue when a task is delayed. *)
Inductive TaskCall :=
| send_email_reset_password_call (email : string) (token : Token)
| send_email_confirm_email_call (email : string) (token : Token)
| send_email_new_user_call (username fullname email tree : string).

(** Arguments of one [send_email(subject=, body=, to=)]. *)
Record Mail := mkMail {
  mail_subject : string;
  mail_body : string;
  mail_to : list string
}.

(** [celery.result.AsyncResult] *)
Record AsyncResult := mkAsyncResult { task_id : string }.

(** The mutable world: the [users] table behind [user_db.session], the
    task queue, the mails handed to [send_email], and the number of random
    draws made so far ([uuid4], salts, task ids). *)
Record World := mkWorld {
  users : list User;
  queue : list (string * TaskCall);
  outbox : list Mail;
  entropy : nat
}.

Definition set_users (w : World) (rows : list User) : World :=
  mkWorld rows (queue w) (outbox w) (entropy w).

(** ** The monad of the code: state and exceptions *)

Definition M (A : Type) : Type := World → outcome A * World.

#[global] Instance M_ret : MRet M := λ A a w, (Return a, w).
#[global] Instance M_bind : MBind M := λ A B f m w,
  match m w with
  | (Return a, w') => f a w'
  | (Raise e, w') => (Raise e, w')
  end.

Definition raise {A} (e : exn) : M A := λ w, (Raise e, w).

(** flask's [abort(code)] *)
Definition abort {A} (code : Z) : M A := raise (HTTPException code).

(** [try: body except clause: handler].  The expression of the clause is
    only evaluated and matched when [body] raises. *)
Definition try_except {A} (body : M A) (clause : except_expr) (handler : M A) : M A :=
  λ w, match body w with
       | (Return a, w') => (Return a, w')
       | (Raise e, w') =>
           match clause with
           | ExceptClass c => if isinstance e c then handler w' else (Raise e, w')
           | ExceptObject _ => (Raise (TypeError not_a_class_msg), w')
           end
       end.

(** One random draw: the index of the draw. *)
Definition draw : M nat := λ w,
  (Return (entropy w), mkWorld (users w) (queue w) (outbox w) (S (entropy w))).

(** ** What the modelled files import from files that are not modelled *)

Class Externals := {
  (** [auth/passwords.py]: [hash_password] salts with fresh randomness,
      here the index of the draw; [verify_password(password, salt_hash)]. *)
  hash_password_at : nat → string → string;
  verify_password : string → string → bool;
  (** [uuid.uuid4()] and celery's task ids, by index of the draw. *)
  uuid4_at : nat → GUID;
  task_id_at : nat → string;
  (** [current_app.config["CELERY_CONFIG"]], a dict. *)
  CELERY_CONFIG : list (string * string);
  (** [get_config("BASE_URL")] *)
  BASE_URL : string;
  (** [api/emails.py] *)
  email_reset_pw : string → Token → string;
  email_confirm_email : string → Token → string;
  email_new_user : string → string → string → string → string;
  (** [api/util.py]: [send_email] may fail; [get_tree_id(user_id)] reads
      the table and may abort. *)
  send_email : Mail → outcome unit;
  get_tree_id : list User → GUID → outcome string
}.

(** ** auth/__init__.py *)

Module Auth.
Section auth.
Context `{Externals}.
Import Const.

(** [hash_password(password)] and [uuid.uuid4()] consume randomness. *)
Definition hash_password (password : string) : M string :=
  n ← draw; mret (hash_password_at n password).

Definition uuid4 : M GUID :=
  n ← draw; mret (uuid4_at n).

(** *** The SQLAlchemy session, as far as the code uses it *)

(** [user_db.session.query(User)]: the rows of the table. *)
Definition query : M (list User) := λ w, (Return (users w), w).

Definition filter_by_name (name : string) (rows : list User) : list User :=
  filter (λ u, user_name u = name) rows.

Definition filter_by_id (guid : GUID) (rows : list User) : list User :=
  filter (λ u, user_id u = guid) rows.

(** [Query.scalar()]: [None] without a row, the row if there is exactly
    one, [MultipleResultsFound] otherwise. *)
Definition scalar {A} (rows : list A) : M (option A) :=
  match rows with
  | [] => mret None
  | [r] => mret (Some r)
  | _ => raise MultipleResultsFound
  end.

(** [Query.one()] *)
Definition one {A} (rows : list A) : M A :=
  match rows with
  | [] => raise NoResultFound
  | [r] => mret r
  | _ => raise MultipleResultsFound
  end.

(** The constraints of the table: primary key [id], [unique] on [name]
    and on [email] (NULLs never collide).  [collides rows u] tells
    whether row [u] collides with one of [rows]. *)
Definition collides (rows : list User) (u : User) : bool :=
  bool_decide (user_id u ∈ user_id <$> rows)
  || bool_decide (user_name u ∈ user_name <$> rows)
  || match user_email u with
     | Some e => bool_decide (Some e ∈ user_email <$> rows)
     | None => false
     end.

(** [session.add(user); session.commit()] for a new row: the INSERT
    fails with [IntegrityError] and leaves the table as it was. *)
Definition session_add_commit (u : User) : M unit := λ w,
  if collides (users w) u then (Raise IntegrityError, w)
  else (Return (), set_users w (users w ++ [u])).

(** [session.commit()] after attribute assignments on the loaded row
    [old], now [new]: an UPDATE of the row with that primary key. *)
Definition session_update_commit (old new : User) : M unit := λ w,
  let others := filter (λ r, user_id r ≠ user_id old) (users w) in
  if bool_decide (user_name new ∈ user_name <$> others)
     || match user_email new with
        | Some e => bool_decide (Some e ∈ user_email <$> others)
        | None => false
        end
  then (Raise IntegrityError, w)
  else (Return (),
        set_users w ((λ r, if bool_decide (user_id r = user_id old) then new else r)
                       <$> users w)).

(** [session.delete(user); session.commit()] *)
Definition session_delete_commit (u : User) : M unit := λ w,
  (Return (), set_users w (filter (λ r, user_id r ≠ user_id u) (users w))).

(** [query.filter(cond).update({column: value})], then [commit]. *)
Definition session_update_where (cond : User → bool) (assign : User → User) : M unit := λ w,
  (Return (), set_users w ((λ r, if cond r then assign r else r) <$> users w)).

(** *** The functions of the module *)

(** [role=None] leaves the column to its default, 0. *)
Definition add_user (name password : string) (fullname email : option string)
    (role : option Z) (tree : option string) : M unit :=
  if bool_decide (name = EmptyString) then raise (ValueError "Username must not be empty")
  else if bool_decide (password = EmptyString) then raise (ValueError "Password must not be empty")
  else
    try_except
      (id ← uuid4;
       pwhash ← hash_password password;
       session_add_commit
         {| user_id := id; user_name := name; user_fullname := fullname;
            user_email := email; user_pwhash := pwhash;
            user_role := default 0 role; user_tree := tree |})
      (ExceptClass CIntegrityError)
      (raise (ValueError "Invalid or existing user")).

Definition get_guid (name : string) : M GUID :=
  rows ← query;
  user_id ← scalar (user_id <$> filter_by_name name rows);
  match user_id with
  | None => raise (ValueError ("User " +:+ name +:+ " not found"))
  | Some g => mret g
  end.

(** The [StatementError] that [get_name] and [get_tree] turn into a
    [ValueError] arises for text that is not a GUID; identities are always
    the text of a GUID, so that handler has nothing to catch here. *)
Definition get_name (guid : GUID) : M string :=
  rows ← query;
  user_name ← scalar (user_name <$> filter_by_id guid rows);
  match user_name with
  | None => raise (ValueError ("User ID " +:+ guid +:+ " not found"))
  | Some n => mret n
  end.

Definition get_tree (guid : GUID) : M (option string) :=
  rows ← query;
  tree ← scalar (user_tree <$> filter_by_id guid rows);
  mret (mjoin tree).

Definition delete_user (name : string) : M unit :=
  rows ← query;
  user ← scalar (filter_by_name name rows);
  match user with
  | None => raise (ValueError ("User " +:+ name +:+ " not found"))
  | Some u => session_delete_commit u
  end.

Definition modify_user (name : string) (name_new password fullname email : option string)
    (role : option Z) (tree : option string) : M unit :=
  rows ← query;
  user ← one (filter_by_name name rows);
  pwhash ← match password with
           | Some p => hash_password p
           | None => mret (user_pwhash user)
           end;
  session_update_commit user
    {| user_id := user_id user;
       user_name := default (user_name user) name_new;
       user_pwhash := pwhash;
       user_fullname := from_option Some (user_fullname user) fullname;
       user_email := from_option Some (user_email user) email;
       user_role := default (user_role user) role;
       user_tree := from_option Some (user_tree user) tree |}.

Definition authorized (username password : string) : M bool :=
  rows ← query;
  user ← scalar (filter_by_name username rows);
  match user with
  | None => mret false
  | Some u =>
      if bool_decide (user_role u < 0) then
        (* users with negative roles cannot login! *)
        mret false
      else mret (verify_password password (user_pwhash u))
  end.

Definition get_pwhash (username : string) : M string :=
  rows ← query;
  user ← one (filter_by_name username rows);
  mret (user_pwhash user).

(** The dict built by [_get_user_detail]. *)
Record UserDetails := mkDetails {
  d_name : string;
  d_email : option string;
  d_full_name : option string;
  d_role : Z;
  d_tree : option string
}.

Definition _get_user_detail (user : User) : UserDetails :=
  {| d_name := user_name user; d_email := user_email user;
     d_full_name := user_fullname user; d_role := user_role user;
     d_tree := user_tree user |}.

Definition get_user_details (username : string) : M (option UserDetails) :=
  rows ← query;
  user ← scalar (filter_by_name username rows);
  match user with
  | None => mret None
  | Some u => mret (Some (_get_user_detail u))
  end.

Definition get_all_user_details (tree : option string) : M (list UserDetails) :=
  rows ← query;
  let rows' :=
    match tree with
    | Some t =>
        if bool_decide (t ≠ EmptyString)
        then filter (λ u, user_tree u = Some t ∨ user_tree u = None) rows
        else rows
    | None => rows
    end in
  mret (_get_user_detail <$> rows').

Definition get_permissions (username : string) : M (gset string) :=
  rows ← query;
  user ← one (filter_by_name username rows);
  match PERMISSIONS !! user_role user with
  | Some s => mret s
  | None => raise (KeyError (PyInt (user_role user)))
  end.

Definition get_owner_emails (tree : string) : M (list string) :=
  rows ← query;
  let owners := filter (λ u, user_tree u = Some tree ∧ user_role u = ROLE_OWNER) rows in
  mret (omap (λ u, match user_email u with
                   | Some e => if bool_decide (e ≠ EmptyString) then Some e else None
                   | None => None
                   end) owners).

Definition get_number_users (tree : option string) (roles : option (list Z)) : M Z :=
  rows ← query;
  let q1 := match roles with
            | Some rs => filter (λ u, user_role u ∈ rs) rows
            | None => rows
            end in
  let q2 := match tree with
            | Some t => filter (λ u, user_tree u = Some t) q1
            | None => q1
            end in
  mret (Z.of_nat (length q2)).

(** SQL [coalesce(x, d)] *)
Definition coalesce (x : option string) (d : string) : string := default d x.

Definition set_tree (u : User) (tree : option string) : User :=
  {| user_id := user_id u; user_name := user_name u; user_email := user_email u;
     user_fullname := user_fullname u; user_pwhash := user_pwhash u;
     user_role := user_role u; user_tree := tree |}.

Definition fill_tree (tree : string) : M unit :=
  session_update_where
    (λ u, bool_decide (coalesce (user_tree u) EmptyString = EmptyString))  (* treat the empty string and NULL equally *)
    (λ u, set_tree u (Some tree)).

End auth.
End Auth.

(** ** api/tasks.py *)

(** Response bodies: text, or a JSON document. *)
Inductive body :=
| Text (s : string)
| Json (j : json).

Definition Response : Type := body * Z.

Module Tasks.

(** What [@shared_task()] makes of a function: it can be called, which
    runs the body, or delayed, which sends [message kwargs] to the queue
    under a fresh task id and returns the handle. *)
Record Task (K V : Type) := mkTask {
  call : K → M V;
  message : K → TaskCall
}.
Arguments mkTask {K V}.
Arguments call {K V}.
Arguments message {K V}.

Section tasks.
Context `{Externals}.

Definition enqueue (id : string) (msg : TaskCall) : M unit := λ w,
  (Return (), mkWorld (users w) (queue w ++ [(id, msg)]) (outbox w) (entropy w)).

Definition delay {K V} (task : Task K V) (kwargs : K) : M AsyncResult :=
  n ← draw;
  enqueue (task_id_at n) (message task kwargs);;
  mret (mkAsyncResult (task_id_at n)).

(** Truth value of a dict. *)
Definition truthy {A} (d : list A) : bool :=
  match d with [] => false | _ => true end.

(** [run_task(task, **kwargs)]; the result is an [AsyncResult] or the
    value the task returned. *)
Definition run_task {K V} (task : Task K V) (kwargs : K) : M (AsyncResult + V) :=
  if negb (truthy CELERY_CONFIG) then
    v ← call task kwargs; mret (inr v)
  else
    r ← delay task kwargs; mret (inl r).

Definition HTTPStatus_ACCEPTED : Z := 202.

Definition make_task_response (task : AsyncResult) : Response :=
  let url := "/api/tasks/" +:+ task_id task in
  let payload := JObj [("task", JObj [("href", JStr url); ("id", JStr (task_id task))])] in
  (Json payload, HTTPStatus_ACCEPTED).

(** [send_email(subject=, body=, to=)]: the mail goes out unless the
    mailer fails. *)
Definition send_email_m (subject body : string) (to : list string) : M unit := λ w,
  let m := mkMail subject body to in
  match send_email m with
  | Return _ => (Return (), mkWorld (users w) (queue w) (outbox w ++ [m]) (entropy w))
  | Raise e => (Raise e, w)
  end.

Definition send_email_reset_password : Task (string * Token) unit :=
  {| call := λ '(email, token),
       let base_url := rstrip slash BASE_URL in
       let body := email_reset_pw base_url token in
       let subject := "Reset your Gramps password" in
       send_email_m subject body [email];
     message := λ '(email, token), send_email_reset_password_call email token |}.

Definition send_email_confirm_email : Task (string * Token) unit :=
  {| call := λ '(email, token),
       let base_url := rstrip slash BASE_URL in
       let body := email_confirm_email base_url token in
       let subject := "Confirm your e-mail address" in
       send_email_m subject body [email];
     message := λ '(email, token), send_email_confirm_email_call email token |}.

Definition send_email_new_user : Task (string * string * string * string) unit :=
  {| call := λ '(username, fullname, email, tree),
       let base_url := rstrip slash BASE_URL in
       let body := email_new_user base_url username fullname email in
       let subject := "New registered user" in
       emails ← Auth.get_owner_emails tree;
       if truthy emails then send_email_m subject body emails else mret ();
     message := λ '(username, fullname, email, tree),
       send_email_new_user_call username fullname email tree |}.

End tasks.
End Tasks.

(** ** api/resources/user.py *)

(** What a request to a protected resource carries: the verified token
    ([get_jwt_identity()], [get_jwt()]), the permissions the caller
    holds, and the caller's tree. *)
Record Request := mkRequest {
  jwt : Token;
  caller_permissions : gset string;
  caller_tree : string
}.

Module Users.
Section users.
Context `{Externals}.
Import Const.

Definition get_jwt_identity (req : Request) : GUID := token_identity (jwt req).

(** [get_jwt()[key]] *)
Definition get_jwt_claim (req : Request) (key : string) : M string :=
  match token_claims (jwt req) !! key with
  | Some v => mret v
  | None => raise (KeyError (PyStr key))
  end.

(** Modelled from the spec: [has_permissions] of [api/auth.py], which is
    not among the sources; it tells whether the caller's permission set
    covers the required set, without side effect. *)
Definition has_permissions (req : Request) (scope : list string) : bool :=
  bool_decide (list_to_set scope ⊆ caller_permissions req).

(** Modelled from the spec: [require_permissions] of [api/auth.py], which
    is not among the sources; it aborts with 403 when the caller's
    permission set does not cover the required set. *)
Definition require_permissions (req : Request) (scope : list string) : M unit :=
  if has_permissions req scope then mret () else abort 403.

(** Modelled from the spec: [get_tree_from_jwt] of [api/util.py], which
    is not among the sources; the caller's tree, from the session
    token. *)
Definition get_tree_from_jwt (req : Request) : string := caller_tree req.

(** [get_tree_id(user_id)] reads the current table. *)
Definition get_tree_id_m (user_id : GUID) : M string := λ w,
  (get_tree_id (users w) user_id, w).

(** [create_access_token(identity=, additional_claims=, expires_delta=)] *)
Definition create_access_token (identity : GUID) (additional_claims : gmap string string)
    (hours : Z) : Token :=
  mkToken identity additional_claims hours.

(** [if cond: then_] as a statement. *)
Definition when (cond : bool) (then_ : M unit) : M unit :=
  if cond then then_ else mret ().

(** Truth value of an optional string: [None] and the empty string are
    false. *)
Definition truthy_str (s : option string) : bool :=
  match s with
  | Some t => bool_decide (t ≠ EmptyString)
  | None => false
  end.

(** [jsonify(details)] *)
Definition json_opt (s : option string) : json :=
  match s with Some t => JStr t | None => JNull end.

Definition json_of_details (d : Auth.UserDetails) : json :=
  JObj [("name", JStr (Auth.d_name d)); ("email", json_opt (Auth.d_email d));
        ("full_name", json_opt (Auth.d_full_name d));
        ("role", JInt (Auth.d_role d)); ("tree", json_opt (Auth.d_tree d))].

Definition jsonify (d : Auth.UserDetails) : body := Json (json_of_details d).

(** *** class UserChangeBase *)

Definition prepare_edit (req : Request) (user_name : string) : M (string * bool) :=
  if bool_decide (user_name = "-") then
    require_permissions req [PERM_EDIT_OWN_USER];;
    let user_id := get_jwt_identity req in
    user_name ← try_except (Auth.get_name user_id) (ExceptClass CValueError) (abort 401);
    let other_tree := false in
    mret (user_name, other_tree)
  else
    user_id ← try_except (Auth.get_guid user_name)
                (ExceptObject (ValueError EmptyString)) (abort 404);
    let source_tree := get_tree_from_jwt req in
    destination_tree ← get_tree_id_m user_id;
    other_tree ←
      (if bool_decide (source_tree = destination_tree) then
         require_permissions req [PERM_EDIT_OTHER_USER];; mret false
       else
         require_permissions req [PERM_EDIT_OTHER_TREE_USER];; mret true);
    mret (user_name, other_tree).

(** *** class UsersResource *)

Definition UsersResource_get (req : Request) : M Response :=
  if has_permissions req [PERM_VIEW_OTHER_TREE_USER] then
    (* return all users from all trees *)
    ds ← Auth.get_all_user_details None;
    mret (Json (JArr (json_of_details <$> ds)), 200)
  else
    require_permissions req [PERM_VIEW_OTHER_USER];;
    let tree := get_tree_from_jwt req in
    (* return only this tree's users *)
    ds ← Auth.get_all_user_details (Some tree);
    mret (Json (JArr (json_of_details <$> ds)), 200).

(** *** class UserResource *)

Definition UserResource_get (req : Request) (user_name : string) : M Response :=
  user_name ←
    (if bool_decide (user_name = "-") then
       (* own user *)
       let user_id := get_jwt_identity req in
       try_except (Auth.get_name user_id) (ExceptClass CValueError) (abort 401)
     else
       require_permissions req [PERM_VIEW_OTHER_USER];; mret user_name);
  when (bool_decide (user_name ≠ "_")
        && negb (has_permissions req [PERM_VIEW_OTHER_TREE_USER]))
    ((* check if this is our tree *)
     user_id ← try_except (Auth.get_guid user_name) (ExceptClass CValueError) (abort 404);
     let source_tree := get_tree_from_jwt req in
     destination_tree ← get_tree_id_m user_id;
     when (bool_decide (source_tree ≠ destination_tree))
       ((* user lives in other tree, not allowed to view *)
        abort 403));;
  details ← Auth.get_user_details user_name;
  match details with
  | None => (* user does not exist *) abort 404
  | Some d => mret (jsonify d, 200)
  end.

Record PutArgs := mkPutArgs {
  put_email : option string;
  put_full_name : option string;
  put_role : option Z
}.

Definition UserResource_put (req : Request) (args : PutArgs) (user_name : string) : M Response :=
  '(user_name, other_tree) ← prepare_edit req user_name;
  match put_role args with
  | Some role =>
      when (bool_decide (role >= ROLE_ADMIN))
        ((* only admins can elevate users to admins *)
         require_permissions req [PERM_MAKE_ADMIN]);;
      if other_tree : bool then require_permissions req [PERM_EDIT_OTHER_TREE_USER_ROLE]
      else require_permissions req [PERM_EDIT_USER_ROLE]
  | None => mret ()
  end;;
  Auth.modify_user user_name None None (put_full_name args) (put_email args)
    (put_role args) None;;
  mret (Text EmptyString, 200).

Record PostArgs := mkPostArgs {
  post_email : string;
  post_full_name : string;
  post_password : string;
  post_role : Z;
  post_tree : option string
}.

Definition UserResource_post (req : Request) (args : PostArgs) (user_name : string) : M Response :=
  when (bool_decide (user_name = "-"))
    ((* Adding a new user does not make sense for "own" user *)
     abort 404);;
  when (bool_decide (post_role args >= ROLE_ADMIN))
    ((* only admins can create new admin users *)
     require_permissions req [PERM_MAKE_ADMIN]);;
  let tree := get_tree_from_jwt req in
  (if negb (truthy_str (post_tree args)) || bool_decide (Some tree = post_tree args)
   then require_permissions req [PERM_ADD_USER]
   else require_permissions req [PERM_ADD_OTHER_TREE_USER]);;
  try_except
    (Auth.add_user user_name (post_password args) (Some (post_full_name args))
       (Some (post_email args)) (Some (post_role args))
       (* use posting user's tree unless explicitly specified *)
       (if truthy_str (post_tree args) then post_tree args else Some tree))
    (ExceptClass CValueError) (abort 409);;
  mret (Text EmptyString, 201).

Definition UserResource_delete (req : Request) (user_name : string) : M Response :=
  when (bool_decide (user_name = "-"))
    ((* Deleting the own user is currently not allowed *)
     abort 404);;
  user_id ← try_except (Auth.get_guid user_name) (ExceptClass CValueError) (abort 404);
  let source_tree := get_tree_from_jwt req in
  destination_tree ← get_tree_id_m user_id;
  (if bool_decide (source_tree = destination_tree)
   then require_permissions req [PERM_DEL_USER]
   else require_permissions req [PERM_DEL_OTHER_TREE_USER]);;
  Auth.delete_user user_name;;
  mret (Text EmptyString, 200).

(** *** class UserRegisterResource *)

Record RegisterArgs := mkRegisterArgs {
  reg_email : string;
  reg_full_name : string;
  reg_password : string;
  reg_tree : option string
}.

Definition UserRegisterResource_post (args : RegisterArgs) (user_name : string) : M Response :=
  when (bool_decide (user_name = "-"))
    ((* Registering a new user does not make sense for "own" user *)
     abort 404);;
  (* do not allow registration if no tree owner account exists! *)
  n ← Auth.get_number_users (reg_tree args) (Some [ROLE_OWNER]);
  when (bool_decide (n = 0)) (abort 405);;
  try_except
    (Auth.add_user user_name (reg_password args) (Some (reg_full_name args))
       (Some (reg_email args)) (Some ROLE_UNCONFIRMED) (reg_tree args))
    (ExceptClass CValueError) (abort 409);;
  user_id ← Auth.get_guid user_name;
  let token :=
    create_access_token user_id
      (<["email" := reg_email args]> (<[CLAIM_LIMITED_SCOPE := SCOPE_CONF_EMAIL]> ∅))
      (* email has to be confirmed within 1h *)
      1 in
  Tasks.run_task Tasks.send_email_confirm_email (reg_email args, token);;
  mret (Text EmptyString, 201).

(** *** class UserCreateOwnerResource *)


(** *** class UserChangePasswordResource *)

Record ChangePasswordArgs := mkChangePasswordArgs {
  old_password : string;
  new_password : string
}.

Definition UserChangePasswordResource_post (req : Request) (args : ChangePasswordArgs)
    (user_name : string) : M Response :=
  '(user_name, _) ← prepare_edit req user_name;
  when (py_eq (len (new_password args)) (PyStr EmptyString)) (abort 400);;
  ok ← Auth.authorized user_name (old_password args);
  when (negb ok) (abort 403);;
  Auth.modify_user user_name None (Some (new_password args)) None None None None;;
  mret (Text EmptyString, 201).

(** *** class UserTriggerResetPasswordResource *)

Definition UserTriggerResetPasswordResource_post (user_name : string) : M Response :=
  when (bool_decide (user_name = "-"))
    ((* password reset trigger not make sense for "own" user since not logged in *)
     abort 404);;
  details ← Auth.get_user_details user_name;
  details ← match details with
            | None => (* user does not exist! *) abort 404
            | Some d => mret d
            end;
  email ← match Auth.d_email details with
          | None => abort 404
          | Some e => mret e
          end;
  user_id ← Auth.get_guid user_name;
  old_hash ← Auth.get_pwhash user_name;
  let token :=
    create_access_token user_id
      (* the hash of the existing password is stored in the token in order
         to make sure the rest token can only be used once *)
      (<["old_hash" := old_hash]> (<[CLAIM_LIMITED_SCOPE := SCOPE_RESET_PW]> ∅))
      (* password reset has to be triggered within 1h *)
      1 in
  task ← try_except (Tasks.run_task Tasks.send_email_reset_password (email, token))
           (ExceptClass CValueError) (abort 500);
  match task with
  | inl r => mret (Tasks.make_task_response r)
  | inr _ => mret (Text EmptyString, 201)
  end.

(** *** class UserResetPasswordResource *)

Definition UserResetPasswordResource_post (req : Request) (new_password : string) : M Response :=
  when (bool_decide (new_password = EmptyString)) (abort 400);;
  scope ← get_jwt_claim req CLAIM_LIMITED_SCOPE;
  when (bool_decide (scope ≠ SCOPE_RESET_PW))
    ((* This is a wrong token! *)
     abort 403);;
  let user_id := get_jwt_identity req in
  username ← try_except (Auth.get_name user_id) (ExceptClass CValueError) (abort 401);
  (* the old PW hash is stored in the reset JWT to check if the token has
     been used already *)
  old_hash ← get_jwt_claim req "old_hash";
  current ← Auth.get_pwhash username;
  when (bool_decide (old_hash ≠ current))
    ((* the one-time token has been used before! *)
     abort 409);;
  Auth.modify_user username None (Some new_password) None None None None;;
  mret (Text EmptyString, 201).

End users.
End Users.

(** ** More of what the files import from files that are not modelled *)

Class Settings := {
  (** [DB_CONFIG_ALLOWED_KEYS] of [const.py] *)
  DB_CONFIG_ALLOWED_KEYS : list string;
  (** flask's [render_template(name, **context)] *)
  render_template : string → list (string * string) → string
}.

(** ** auth/__init__.py: the configuration table *)

(** [class Config(user_db.Model)]: one row of the table [configuration]. *)
Record Config := mkConfig {
  config_id : Z;                   (* primary key *)
  config_key : string;             (* unique, not null *)
  config_value : option string
}.

#[global] Instance Config_eq_dec : EqDecision Config.
Proof. solve_decision. Defined.

Module ConfigStore.

(** The configuration functions only touch the table [configuration]:
    their state is the list of its rows. *)
Definition MC (A : Type) : Type := list Config → outcome A * list Config.

#[global] Instance MC_ret : MRet MC := λ A a t, (Return a, t).
#[global] Instance MC_bind : MBind MC := λ A B f m t,
  match m t with
  | (Return a, t') => f a t'
  | (Raise e, t') => (Raise e, t')
  end.

Definition raise_c {A} (e : exn) : MC A := λ t, (Raise e, t).

Section config.
Context `{Settings}.

(** [user_db.session.query(Config)] *)
Definition query_c : MC (list Config) := λ t, (Return t, t).

Definition filter_by_key (key : string) (rows : list Config) : list Config :=
  filter (λ c, config_key c = key) rows.

(** [Query.scalar()] *)
Definition scalar_c {A} (rows : list A) : MC (option A) :=
  match rows with
  | [] => mret None
  | [r] => mret (Some r)
  | _ => raise_c MultipleResultsFound
  end.

(** The integer primary key of a new row is generated by the database:
    a value no row has, here one more than the largest. *)
Definition next_id (rows : list Config) : Z :=
  1 + foldr (λ c m, Z.max (config_id c) m) 0 rows.

(** [session.add(config); session.commit()] for a new row; the INSERT
    fails with [IntegrityError] when the key exists. *)
Definition insert_config (key : string) (value : option string) : MC unit := λ t,
  if bool_decide (key ∈ config_key <$> t) then (Raise IntegrityError, t)
  else (Return (), (t ++ [mkConfig (next_id t) key value])%list).

(** [session.add(config); session.commit()] for a loaded row whose
    [value] was assigned: an UPDATE of the row with that primary key. *)
Definition update_config_value (c : Config) (value : option string) : MC unit := λ t,
  (Return (),
   (λ r, if bool_decide (config_id r = config_id c)
         then mkConfig (config_id r) (config_key r) value else r) <$> t).

(** [session.delete(config); session.commit()] *)
Definition delete_config (c : Config) : MC unit := λ t,
  (Return (), filter (λ r, config_id r ≠ config_id c) t).

Definition config_get (key : string) : MC (option string) :=
  rows ← query_c;
  config ← scalar_c (filter_by_key key rows);
  match config with
  | None => mret None
  | Some c => mret (config_value c)
  end.

(** [{c.key: c.value for c in configs}]: a later row overrides an
    earlier one with the same key. *)
Definition config_get_all : MC (gmap string (option string)) :=
  configs ← query_c;
  mret (foldl (λ d c, <[config_key c := config_value c]> d) ∅ configs).

Definition config_set (key value : string) : MC unit :=
  if bool_decide (key ∉ DB_CONFIG_ALLOWED_KEYS)
  then raise_c (ValueError "Config key not allowed.")
  else
    rows ← query_c;
    config ← scalar_c (filter_by_key key rows);
    match config with
    | None => (* does not exist, create *) insert_config key (Some value)
    | Some c => (* exists, update *) update_config_value c (Some value)
    end.

Definition config_delete (key : string) : MC unit :=
  rows ← query_c;
  config ← scalar_c (filter_by_key key rows);
  match config with
  | Some c => delete_config c
  | None => mret ()
  end.

End config.
End ConfigStore.

(** ** api/resources/user.py: the reset form *)

Module UserForms.
Section forms.
Context `{Externals} `{Settings}.
Import Const Users.

(** [UserResetPasswordResource.get]; the rendered page is the body of a
    200 response. *)
Definition UserResetPasswordResource_get (req : Request) : M Response :=
  let user_id := get_jwt_identity req in
  username ← try_except (Auth.get_name user_id) (ExceptClass CValueError) (abort 401);
  scope ← get_jwt_claim req CLAIM_LIMITED_SCOPE;
  when (bool_decide (scope ≠ SCOPE_RESET_PW))
    ((* This is a wrong token! *)
     abort 403);;
  (* the old PW hash is stored in the reset JWT to check if the token has
     been used already *)
  old_hash ← get_jwt_claim req "old_hash";
  current ← Auth.get_pwhash username;
  if bool_decide (old_hash ≠ current) then
    (* the one-time token has been used before! *)
    mret (Text (render_template "reset_password_error.html" [("username", username)]), 200)
  else
    mret (Text (render_template "reset_password.html" [("username", username)]), 200).

End forms.
End UserForms.

(** ** api/resources/file.py: uploading a media file *)

Module MediaFile.

(** What the handler reads and writes of a [gramps.gen.lib.Media]. *)
Record Media := mkMedia {
  media_path : string;
  media_checksum : string;
  media_mime : string
}.

(** One call [media_handler.upload_file(f, checksum, mime, path=...)] of
    the media handler of a tree. *)
Record Upload := mkUpload {
  up_tree : string;
  up_file : string;
  up_checksum : string;
  up_mime : string;
  up_path : option string
}.

(** The media objects of the family tree by handle, and the files handed
    to the media handler so far. *)
Record MediaStore := mkMediaStore {
  objects : gmap string Media;
  uploads : list Upload
}.

(** What the request carries besides the token: the strong entity tags
    of [If-Match], the content type, the body, the query flag. *)
Record PutFile := mkPutFile {
  if_match : list string;
  content_type : option string;
  stream : string;
  uploadmissing : bool
}.

(** Functions of files that are not among the sources. *)
Class MediaExternals := {
  (** [process_file(stream)] of [api/file.py]: checksum and file object *)
  process_file : string → string * string;
  (** [get_media_handler(tree).get_default_filename(checksum, mime)] *)
  get_default_filename : string → string → string → string;
  (** [get_media_handler(tree).get_file_handler(handle).file_exists()] *)
  file_exists : string → string → bool;
  (** [transaction_to_json(trans)], from the old and new objects of the
      transaction *)
  transaction_to_json : list (Media * Media) → json
}.

Definition MF (A : Type) : Type := MediaStore → outcome A * MediaStore.

#[global] Instance MF_ret : MRet MF := λ A a s, (Return a, s).
#[global] Instance MF_bind : MBind MF := λ A B f m s,
  match m s with
  | (Return a, s') => f a s'
  | (Raise e, s') => (Raise e, s')
  end.

Definition abort_f {A} (code : Z) : MF A := λ s, (Raise (HTTPException code), s).

Section media.
Context `{MediaExternals}.
Import Const Users.

(** Modelled from the spec: [require_permissions] of [api/auth.py], as
    in [Users], for this handler's state. *)
Definition require_permissions_f (req : Request) (scope : list string) : MF unit :=
  if has_permissions req scope then mret () else abort_f 403.

(** [db_handle.get_media_from_handle(handle)] of the Gramps database:
    the object stored under the handle; [None] stands for [HandleError]. *)
Definition get_media_from_handle (handle : string) : MF (option Media) := λ s,
  (Return (objects s !! handle), s).

(** [for etag in request.if_match: if etag != checksum_old: abort(412)] *)
Fixpoint for_if_match (etags : list string) (checksum_old : string) : MF unit :=
  match etags with
  | [] => mret ()
  | etag :: rest =>
      (if bool_decide (etag ≠ checksum_old) then abort_f 412 else mret ());;
      for_if_match rest checksum_old
  end.

(** [media_handler.upload_file(f, checksum, mime, path=path)] of
    [api/media.py], which is not among the sources: the call is recorded
    with its arguments, what the handler does with the file is left
    open. *)
Definition upload_file (tree f checksum mime : string) (path : option string) : MF unit :=
  λ s, (Return (),
        mkMediaStore (objects s) (uploads s ++ [mkUpload tree f checksum mime path])).

(** Modelled from the spec: [update_object] of [api/resources/util.py],
    which is not among the sources, inside [DbTxn]; it commits the
    changed object under its handle and the transaction records the old
    and the new object. *)
Definition update_object (handle : string) (old new : Media) : MF (list (Media * Media)) :=
  λ s, (Return [(old, new)], mkMediaStore (<[handle := new]> (objects s)) (uploads s)).

(** [MediaFileResource.put] *)
Definition MediaFileResource_put (req : Request) (args : PutFile) (handle : string)
    : MF Response :=
  require_permissions_f req [PERM_EDIT_OBJ];;
  found ← get_media_from_handle handle;
  obj ← match found with
        | None => abort_f 404
        | Some o => mret o
        end;
  let checksum_old := media_checksum obj in
  for_if_match (if_match args) checksum_old;;
  mime ← match content_type args with
         | Some m => if bool_decide (m = EmptyString) then abort_f 406 else mret m
         | None => abort_f 406
         end;
  let '(checksum, f) := process_file (stream args) in
  let tree := get_tree_from_jwt req in
  if bool_decide (checksum = media_checksum obj) then
    if negb (uploadmissing args) || file_exists tree handle then
      (* don't allow PUTting if the file didn't change *)
      abort_f 409
    else
      (* we're uploading a missing file! use existing path *)
      let path := media_path obj in
      upload_file tree f checksum mime (Some path);;
      mret (Text EmptyString, 200)
  else
    (if uploadmissing args then abort_f 409 else mret ());;
    upload_file tree f checksum mime None;;
    let path := get_default_filename tree checksum mime in
    let obj' := {| media_path := path; media_checksum := checksum; media_mime := mime |} in
    trans_dict ← update_object handle obj obj';
    mret (Json (transaction_to_json trans_dict), 200).

End media.
End MediaFile.

(** * Vocabulary of the statements *)

Section vocabulary.
Context `{Externals}.
Import Const Auth Tasks Users.

(** The set each role ends up with, by the construction rule. *)
Definition perms_guest : gset string := {[PERM_EDIT_OWN_USER]}.
Definition perms_member : gset string := perms_guest ∪ {[PERM_VIEW_PRIVATE]}.
Definition perms_contributor : gset string :=
  perms_member ∪ {[PERM_EDIT_OWN_USER; PERM_VIEW_PRIVATE; PERM_ADD_OBJ]}.
Definition perms_editor : gset string :=
  perms_contributor ∪ {[PERM_EDIT_OBJ; PERM_DEL_OBJ; PERM_EDIT_NAME_GROUP]}.
Definition perms_owner : gset string :=
  perms_editor ∪ {[PERM_ADD_USER; PERM_DEL_USER; PERM_EDIT_OTHER_USER;
                   PERM_EDIT_USER_ROLE; PERM_VIEW_OTHER_USER;
                   PERM_IMPORT_FILE; PERM_TRIGGER_REINDEX]}.
Definition perms_admin : gset string :=
  perms_owner ∪ {[PERM_ADD_OTHER_TREE_USER; PERM_VIEW_OTHER_TREE_USER;
                  PERM_EDIT_OTHER_TREE_USER; PERM_EDIT_OTHER_TREE_USER_ROLE;
                  PERM_MAKE_ADMIN; PERM_DEL_OTHER_TREE_USER;
                  PERM_VIEW_SETTINGS; PERM_EDIT_SETTINGS]}.

Definition perms_table : gmap Z (gset string) :=
  <[ROLE_ADMIN := perms_admin]> (<[ROLE_OWNER := perms_owner]>
  (<[ROLE_EDITOR := perms_editor]> (<[ROLE_CONTRIBUTOR := perms_contributor]>
  (<[ROLE_MEMBER := perms_member]> (<[ROLE_GUEST := perms_guest]> ∅))))).

(** The constraints the schema declares, as an invariant of the rows:
    primary key [id], unique [name], unique non-NULL [email]. *)
Record store_ok (rows : list User) : Prop := mk_store_ok {
  ok_ids : NoDup (user_id <$> rows);
  ok_names : NoDup (user_name <$> rows);
  ok_emails : NoDup (omap user_email rows)
}.

(** The row [add_user] builds in world [w]: the id comes from the first
    random draw, the salt of the hash from the second. *)
Definition new_user_row (w : World) (name password : string)
    (fullname email : option string) (role : option Z) (tree : option string) : User :=
  {| user_id := uuid4_at (entropy w); user_name := name; user_email := email;
     user_fullname := fullname;
     user_pwhash := hash_password_at (S (entropy w)) password;
     user_role := default 0 role; user_tree := tree |}.

Definition after_draws (n : nat) (w : World) : World :=
  mkWorld (users w) (queue w) (outbox w) (n + entropy w).

(** The message of the [ValueError] that [add_user] raises for
    arguments it rejects. *)
Definition add_user_error (name password : string) : string :=
  if bool_decide (name = EmptyString) then "Username must not be empty"
  else if bool_decide (password = EmptyString) then "Password must not be empty"
  else "Invalid or existing user".

Definition set_pwhash (u : User) (h : string) : User :=
  {| user_id := user_id u; user_name := user_name u; user_email := user_email u;
     user_fullname := user_fullname u; user_pwhash := h;
     user_role := user_role u; user_tree := user_tree u |}.

(** The table after the row with the primary key of [u] became [u']. *)
Definition replace_row (u u' : User) (rows : list User) : list User :=
  (λ r, if bool_decide (user_id r = user_id u) then u' else r) <$> rows.

Definition after_enqueue (w : World) (msg : TaskCall) : World :=
  mkWorld (users w) (queue w ++ [(task_id_at (entropy w), msg)]) (outbox w)
          (S (entropy w)).

Definition after_mail (w : World) (m : Mail) : World :=
  mkWorld (users w) (queue w) (outbox w ++ [m]) (entropy w).

(** The token [UserTriggerResetPasswordResource.post] creates for the
    stored row [u]: identity, the current password hash as [old_hash],
    the reset scope, one hour. *)
Definition reset_token (u : User) : Token :=
  create_access_token (user_id u)
    (<["old_hash" := user_pwhash u]> (<[CLAIM_LIMITED_SCOPE := SCOPE_RESET_PW]> ∅)) 1.

Definition reset_mail (e : string) (token : Token) : Mail :=
  mkMail "Reset your Gramps password" (email_reset_pw (rstrip slash BASE_URL) token) [e].

(** The token [UserRegisterResource.post] creates for a new user. *)
Definition confirm_token (id : GUID) (email : string) : Token :=
  create_access_token id
    (<["email" := email]> (<[CLAIM_LIMITED_SCOPE := SCOPE_CONF_EMAIL]> ∅)) 1.

Definition confirm_mail (e : string) (token : Token) : Mail :=
  mkMail "Confirm your e-mail address"
         (email_confirm_email (rstrip slash BASE_URL) token) [e].

(** [o] is an owner that counts for a registration into [tree]: any owner
    when the request names no tree, an owner of that tree otherwise. *)
Definition owner_for (tree : option string) (o : User) : Prop :=
  user_role o = ROLE_OWNER ∧ ∀ t, tree = Some t → user_tree o = Some t.

(** The row a registration adds, and the world right after adding it. *)
Definition registered_row (w : World) (args : RegisterArgs) (user_name : string) : User :=
  new_user_row w user_name (reg_password args) (Some (reg_full_name args))
    (Some (reg_email args)) (Some ROLE_UNCONFIRMED) (reg_tree args).

Definition after_registration (w : World) (args : RegisterArgs) (user_name : string) : World :=
  set_users (after_draws 2 w) (users w ++ [registered_row w args user_name]).

End vocabulary.

(** ** Concrete data for the examples *)

Section demo.
Import Const Auth Tasks Users.

Fixpoint tally (n : nat) : string :=
  match n with
  | O => EmptyString
  | S k => String.append "i" (tally k)
  end.

(** A small instance of the external functions: hashes keep the password
    in front of the salt, mail is always delivered, and a user's tree is
    the one stored in its row. *)
Definition demo_externals (celery : bool) : Externals :=
  {| hash_password_at := λ n p, p +:+ "#" +:+ tally n;
     verify_password := λ p h, String.prefix (p +:+ "#") h;
     uuid4_at := λ n, "guid-" +:+ tally n;
     task_id_at := λ n, "task-" +:+ tally n;
     CELERY_CONFIG := if celery then [("broker_url", "redis://localhost")] else [];
     BASE_URL := "https://example.org/";
     email_reset_pw := λ base _, base +:+ "/reset";
     email_confirm_email := λ base _, base +:+ "/confirm";
     email_new_user := λ base username _ _, base +:+ "/users/" +:+ username;
     send_email := λ _, Return ();
     get_tree_id := λ rows g,
       match mjoin (user_tree <$> head (filter (λ u, user_id u = g) rows)) with
       | Some t => Return t
       | None => Raise (HTTPException 403)
       end |}.

Definition demo_alice : User :=
  mkUser "guid-a" "alice" (Some "alice@example.org") (Some "Alice") "secret#" 4 (Some "t1").

Definition demo_alice_changed : User :=
  mkUser "guid-a" "alice" (Some "alice@example.org") (Some "Alice") "other#i" 4 (Some "t1").

Definition demo_bob : User :=
  mkUser "guid-b" "bob" None None "hunter2#" (-1) (Some "t1").

Definition demo_world : World := mkWorld [demo_alice; demo_bob] [] [] 0.

Definition demo_world_changed : World := mkWorld [demo_alice_changed; demo_bob] [] [] 1.

Definition demo_reset_request : Request :=
  mkRequest (reset_token demo_alice) ∅ "t1".

Definition demo_bob_only : World := mkWorld [demo_bob] [] [] 0.

Definition demo_register_args (password : string) : RegisterArgs :=
  mkRegisterArgs "carol@example.org" "Carol" password (Some "t1").

Definition demo_untreed : World :=
  mkWorld [mkUser "guid-1" "ann" None None "a#" 0 None;
           mkUser "guid-2" "ben" None None "b#" 1 (Some EmptyString);
           mkUser "guid-3" "cat" None None "c#" 2 (Some "old")] [] [] 0.

Definition demo_caller (perms : gset string) (tree : string) : Request :=
  mkRequest (mkToken "guid-a" ∅ 1) perms tree.

Definition demo_underscore : User :=
  mkUser "guid-u" "_" (Some "u@example.org") (Some "Underscore") "u#" 1 (Some "t2").

Definition demo_two_trees : World :=
  mkWorld [demo_alice; demo_underscore;
           mkUser "guid-d" "dora" None None "d#" 1 (Some "t2")] [] [] 0.

End demo.

(** * Vocabulary of the further properties *)

Section vocabulary_more.
Context `{Externals} `{Settings}.
Import Const Auth Tasks Users.

(** Every permission of [const.py] with the lowest role whose grants
    name it. *)
Definition grant_levels : list (string * Z) :=
  [(PERM_EDIT_OWN_USER, ROLE_GUEST);
   (PERM_VIEW_PRIVATE, ROLE_MEMBER);
   (PERM_ADD_OBJ, ROLE_CONTRIBUTOR);
   (PERM_EDIT_OBJ, ROLE_EDITOR); (PERM_DEL_OBJ, ROLE_EDITOR);
   (PERM_EDIT_NAME_GROUP, ROLE_EDITOR);
   (PERM_ADD_USER, ROLE_OWNER); (PERM_DEL_USER, ROLE_OWNER);
   (PERM_EDIT_OTHER_USER, ROLE_OWNER); (PERM_EDIT_USER_ROLE, ROLE_OWNER);
   (PERM_VIEW_OTHER_USER, ROLE_OWNER); (PERM_IMPORT_FILE, ROLE_OWNER);
   (PERM_TRIGGER_REINDEX, ROLE_OWNER);
   (PERM_ADD_OTHER_TREE_USER, ROLE_ADMIN); (PERM_VIEW_OTHER_TREE_USER, ROLE_ADMIN);
   (PERM_EDIT_OTHER_TREE_USER, ROLE_ADMIN);
   (PERM_EDIT_OTHER_TREE_USER_ROLE, ROLE_ADMIN);
   (PERM_MAKE_ADMIN, ROLE_ADMIN); (PERM_DEL_OTHER_TREE_USER, ROLE_ADMIN);
   (PERM_VIEW_SETTINGS, ROLE_ADMIN); (PERM_EDIT_SETTINGS, ROLE_ADMIN)].

(** Whether the set [s] holds exactly the permissions whose level is at
    most [r]. *)
Definition tier_ok (r : Z) (s : gset string) : bool :=
  forallb (λ pl, Bool.eqb (bool_decide (pl.1 ∈ s)) (bool_decide (pl.2 ≤ r)%Z))
          grant_levels
  && bool_decide (s ⊆ list_to_set (grant_levels.*1)).

(** The row [modify_user] writes back for the loaded row [u] in world
    [w]: the arguments that are not [None] replace the columns; the hash
    of a new password is salted by the next random draw. *)
Definition modified_row (w : World) (u : User)
    (name_new password fullname email : option string)
    (role : option Z) (tree : option string) : User :=
  {| user_id := user_id u;
     user_name := default (user_name u) name_new;
     user_email := from_option Some (user_email u) email;
     user_fullname := from_option Some (user_fullname u) fullname;
     user_pwhash := match password with
                    | Some p => hash_password_at (entropy w) p
                    | None => user_pwhash u
                    end;
     user_role := default (user_role u) role;
     user_tree := from_option Some (user_tree u) tree |}.

(** The rows other than [u], by primary key. *)
Definition other_rows (u : User) (rows : list User) : list User :=
  filter (λ r, user_id r ≠ user_id u) rows.

(** Random draws [modify_user] makes. *)
Definition password_draws (password : option string) : nat :=
  match password with Some _ => 1%nat | None => 0%nat end.

(** [w'] differs from [w] at most in the table and by [n] random draws. *)
Definition same_but_users (n : nat) (w w' : World) : Prop :=
  queue w' = queue w ∧ outbox w' = outbox w ∧ entropy w' = (n + entropy w)%nat.

(** The constraints of the table [configuration]: primary key [id],
    unique [key]. *)
Record config_ok (rows : list Config) : Prop := mk_config_ok {
  ok_config_ids : NoDup (config_id <$> rows);
  ok_config_keys : NoDup (config_key <$> rows)
}.

(** The row [config_set] writes over the loaded row [c]. *)
Definition with_value (c : Config) (value : option string) : Config :=
  mkConfig (config_id c) (config_key c) value.

(** The mail [send_email_new_user] sends to the owners [to]. *)
Definition new_user_mail (username fullname email : string) (to : list string) : Mail :=
  mkMail "New registered user"
         (email_new_user (rstrip slash BASE_URL) username fullname email) to.

(** The permission [UserResource.delete] asks for when the user to
    delete lives in tree [t]. *)
Definition needed_to_delete (req : Request) (t : string) : string :=
  if bool_decide (caller_tree req = t) then PERM_DEL_USER else PERM_DEL_OTHER_TREE_USER.

(** The permission [UserResource.post] asks for, and the tree the new
    user gets. *)
Definition needed_to_add (req : Request) (args : PostArgs) : string :=
  if negb (truthy_str (post_tree args)) || bool_decide (Some (caller_tree req) = post_tree args)
  then PERM_ADD_USER else PERM_ADD_OTHER_TREE_USER.

Definition tree_of_new_user (req : Request) (args : PostArgs) : option string :=
  if truthy_str (post_tree args) then post_tree args else Some (caller_tree req).

(** The computation ends in an exception and leaves the world as it was. *)
Definition refused {A} (r : outcome A * World) (w : World) : Prop :=
  ∃ e, r = (Raise e, w).

(** How a request may reach [modify_user] through [prepare_edit]: for
    "-" the caller's own row with [EditOwnUser]; for a name the row of
    that name, with [EditOtherUser] in the caller's tree and
    [EditOtherTreeUser] in another one. *)
Definition may_edit (req : Request) (name : string) (u : User) (other_tree : bool)
    (w : World) : Prop :=
  (name = "-" ∧ user_id u = get_jwt_identity req
   ∧ PERM_EDIT_OWN_USER ∈ caller_permissions req ∧ other_tree = false)
  ∨ (name ≠ "-" ∧ user_name u = name
     ∧ ∃ t, get_tree_id (users w) (user_id u) = Return t
         ∧ ((t = caller_tree req ∧ PERM_EDIT_OTHER_USER ∈ caller_permissions req
             ∧ other_tree = false)
            ∨ (t ≠ caller_tree req ∧ PERM_EDIT_OTHER_TREE_USER ∈ caller_permissions req
               ∧ other_tree = true))).


End vocabulary_more.

(** ** Concrete data for the further examples *)

Section demo_more.
Import Const Auth Tasks Users MediaFile.

(** Two keys may be stored; a rendered page is the template's name. *)
Definition demo_settings : Settings :=
  {| DB_CONFIG_ALLOWED_KEYS := ["EMAIL_HOST"; "BASE_URL"];
     render_template := λ name _, name |}.

Definition demo_config : list Config :=
  [mkConfig 1 "BASE_URL" (Some "https://example.org")].





(** The checksum of a body is the body after "sum-", files get the
    extension "jpg", and no file is on disk. *)
Definition demo_media_externals : MediaExternals :=
  {| process_file := λ data, ("sum-" +:+ data, data);
     get_default_filename := λ _ checksum _, checksum +:+ ".jpg";
     file_exists := λ _ _, false;
     transaction_to_json := λ trans, JInt (Z.of_nat (length trans)) |}.

Definition demo_photo : Media := mkMedia "old.jpg" "sum-old" "image/jpeg".

Definition demo_media_store : MediaStore :=
  mkMediaStore (<["h1" := demo_photo]> ∅) [].

Definition demo_put_file (data : string) (missing : bool) : PutFile :=
  mkPutFile ["sum-old"] (Some "image/jpeg") data missing.

End demo_more.

(** * Properties *)

(** ** The permission table *)

Section permission_table.
Import Const.

Lemma perm_step_Some (m : gmap Z (gset string)) r below s grants :
  m !! below = Some s →
  perm_step (Some m) r below grants = Some (<[r := s ∪ grants]> m).
Proof. intros Hs. unfold perm_step. simpl. rewrite Hs. reflexivity. Qed.

(** Importing the module raises no [KeyError] and leaves that table. *)
Lemma PERMISSIONS_load_eq : PERMISSIONS_load = Some perms_table.
Proof.
  unfold PERMISSIONS_load. cbv zeta.
  do 5 (erewrite perm_step_Some; [| by rewrite lookup_insert_eq]).
  reflexivity.
Qed.

Lemma PERMISSIONS_eq : PERMISSIONS = perms_table.
Proof. unfold PERMISSIONS. rewrite PERMISSIONS_load_eq. reflexivity. Qed.

Ltac role_lookup :=
  rewrite PERMISSIONS_eq; unfold perms_table;
  rewrite ?lookup_insert_eq; try reflexivity;
  repeat (rewrite lookup_insert_ne by (compute; discriminate));
  rewrite ?lookup_insert_eq; reflexivity.

Lemma PERMISSIONS_guest : PERMISSIONS !! ROLE_GUEST = Some perms_guest.
Proof. role_lookup. Qed.
Lemma PERMISSIONS_member : PERMISSIONS !! ROLE_MEMBER = Some perms_member.
Proof. role_lookup. Qed.
Lemma PERMISSIONS_contributor : PERMISSIONS !! ROLE_CONTRIBUTOR = Some perms_contributor.
Proof. role_lookup. Qed.
Lemma PERMISSIONS_editor : PERMISSIONS !! ROLE_EDITOR = Some perms_editor.
Proof. role_lookup. Qed.
Lemma PERMISSIONS_owner : PERMISSIONS !! ROLE_OWNER = Some perms_owner.
Proof. role_lookup. Qed.
Lemma PERMISSIONS_admin : PERMISSIONS !! ROLE_ADMIN = Some perms_admin.
Proof. role_lookup. Qed.

(** Each step of the construction only adds. *)
Lemma perms_chain :
  perms_guest ⊆ perms_member ∧ perms_member ⊆ perms_contributor ∧
  perms_contributor ⊆ perms_editor ∧ perms_editor ⊆ perms_owner ∧
  perms_owner ⊆ perms_admin.
Proof. repeat split; apply union_subseteq_l. Qed.

Ltac sub_chain :=
  lazymatch goal with
  | |- ?x ⊆ ?x => reflexivity
  | H : ?x ⊆ ?y |- ?x ⊆ _ => etrans; [exact H | sub_chain]
  end.

Ltac role_entry E0 E1 E2 E3 E4 E5 :=
  lazymatch goal with
  | |- PERMISSIONS !! ROLE_GUEST = _ => exact E0
  | |- PERMISSIONS !! ROLE_MEMBER = _ => exact E1
  | |- PERMISSIONS !! ROLE_CONTRIBUTOR = _ => exact E2
  | |- PERMISSIONS !! ROLE_EDITOR = _ => exact E3
  | |- PERMISSIONS !! ROLE_OWNER = _ => exact E4
  | |- PERMISSIONS !! ROLE_ADMIN = _ => exact E5
  end.

(** C1: for login-capable roles r1 <= r2 (GUEST=0 up to ADMIN=5), both
    have an entry in PERMISSIONS and the entry of r1 is a subset of the
    entry of r2. *)
Theorem permissions_monotone (r1 r2 : Z) :
  r1 ∈ login_roles → r2 ∈ login_roles → (r1 ≤ r2)%Z →
  ∃ s1 s2, PERMISSIONS !! r1 = Some s1 ∧ PERMISSIONS !! r2 = Some s2 ∧ s1 ⊆ s2.
Proof.
  pose proof perms_chain as Hc.
  pose proof PERMISSIONS_guest as E0. pose proof PERMISSIONS_member as E1.
  pose proof PERMISSIONS_contributor as E2. pose proof PERMISSIONS_editor as E3.
  pose proof PERMISSIONS_owner as E4. pose proof PERMISSIONS_admin as E5.
  revert Hc E0 E1 E2 E3 E4 E5.
  generalize perms_guest perms_member perms_contributor perms_editor
             perms_owner perms_admin.
  intros s0 s1 s2 s3 s4 s5 (Hgm & Hmc & Hce & Heo & Hoa) E0 E1 E2 E3 E4 E5.
  unfold login_roles. rewrite !elem_of_cons, !elem_of_nil.
  intros H1 H2 Hle.
  destruct H1 as [->|[->|[->|[->|[->|[->|[]]]]]]];
  destruct H2 as [->|[->|[->|[->|[->|[->|[]]]]]]];
  first [ exfalso; compute in Hle; apply Hle; reflexivity
        | do 2 eexists;
          (split; [role_entry E0 E1 E2 E3 E4 E5 |]);
          (split; [role_entry E0 E1 E2 E3 E4 E5 |]); sub_chain ].
Qed.

Lemma permissions_monotone_witness :
  ∃ s1 s2, PERMISSIONS !! 1 = Some s1 ∧ PERMISSIONS !! 4 = Some s2 ∧ s1 ⊆ s2.
Proof.
  apply (permissions_monotone 1 4).
  - unfold login_roles. rewrite !elem_of_cons. right. left. reflexivity.
  - unfold login_roles. rewrite !elem_of_cons. do 4 right. left. reflexivity.
  - lia.
Defined.

End permission_table.

(** ** The table and its constraints *)

Section keys.
Context {B : Type} `{EqDecision B} (f : User → B).

Lemma filter_key_none rows x :
  x ∉ f <$> rows → filter (λ r, f r = x) rows = [].
Proof.
  induction rows as [|a rows IH]; intros Hx; [reflexivity|].
  rewrite fmap_cons, not_elem_of_cons in Hx. destruct Hx as [Hne Hx].
  rewrite filter_cons_False by congruence. auto.
Qed.

Lemma filter_key_unique rows u :
  NoDup (f <$> rows) → u ∈ rows → filter (λ r, f r = f u) rows = [u].
Proof.
  induction rows as [|a rows IH]; intros Hnd Hin.
  - by apply elem_of_nil in Hin.
  - rewrite fmap_cons, NoDup_cons in Hnd. destruct Hnd as [Ha Hnd].
    apply elem_of_cons in Hin as [->|Hin].
    + rewrite filter_cons_True by reflexivity.
      by rewrite filter_key_none.
    + rewrite filter_cons_False.
      * by apply IH.
      * intros Heq. apply Ha. rewrite Heq. by apply list_elem_of_fmap_2.
Qed.

Lemma key_inj rows x y :
  NoDup (f <$> rows) → x ∈ rows → y ∈ rows → f x = f y → x = y.
Proof.
  induction rows as [|a rows IH]; intros Hnd Hx Hy Heq.
  - by apply elem_of_nil in Hx.
  - rewrite fmap_cons, NoDup_cons in Hnd. destruct Hnd as [Ha Hnd].
    apply elem_of_cons in Hx as [->|Hx]; apply elem_of_cons in Hy as [->|Hy].
    + done.
    + exfalso. apply Ha. rewrite Heq. by apply list_elem_of_fmap_2.
    + exfalso. apply Ha. rewrite <- Heq. by apply list_elem_of_fmap_2.
    + by apply IH.
Qed.
End keys.

Lemma optional_key_inj {B} (g : User → option B) rows x y b :
  NoDup (omap g rows) → x ∈ rows → y ∈ rows → g x = Some b → g y = Some b → x = y.
Proof.
  induction rows as [|a rows IH]; intros Hnd Hx Hy Gx Gy.
  - by apply elem_of_nil in Hx.
  - assert (∀ z, z ∈ rows → g z = Some b → b ∈ omap g rows) as Hmem.
    { intros z Hz Gz. apply list_elem_of_omap. eauto. }
    apply elem_of_cons in Hx as [->|Hx]; apply elem_of_cons in Hy as [->|Hy].
    + done.
    + exfalso. simpl in Hnd. rewrite Gx in Hnd.
      apply NoDup_cons in Hnd as [Hb _]. eauto.
    + exfalso. simpl in Hnd. rewrite Gy in Hnd.
      apply NoDup_cons in Hnd as [Hb _]. eauto.
    + apply IH; try done. simpl in Hnd. destruct (g a); [|done].
      by apply NoDup_cons in Hnd as [_ ?].
Qed.

Lemma filter_none {A} (P : A → Prop) `{∀ x, Decision (P x)} (l : list A) :
  (∀ x, x ∈ l → ¬ P x) → filter P l = [].
Proof.
  induction l as [|a l IH]; intros Hno; [reflexivity|].
  rewrite filter_cons_False by (apply Hno; constructor).
  apply IH. intros x Hx. apply Hno. by constructor.
Qed.

Lemma store_ok_nil : store_ok [].
Proof. split; simpl; constructor. Qed.

(** ** auth/__init__.py: what the functions return *)

Section auth_facts.
Context `{Externals}.
Import Const Auth.

Ltac run := unfold mbind, M_bind, mret, M_ret, query, raise; simpl.

Lemma scalar_by_name_found rows u :
  store_ok rows → u ∈ rows → filter_by_name (user_name u) rows = [u].
Proof. intros [_ Hn _] Hin. by apply (filter_key_unique user_name). Qed.

Lemma scalar_by_id_found rows u :
  store_ok rows → u ∈ rows → filter_by_id (user_id u) rows = [u].
Proof. intros [Hi _ _] Hin. by apply (filter_key_unique user_id). Qed.

Lemma by_name_missing rows name :
  name ∉ user_name <$> rows → filter_by_name name rows = [].
Proof. apply (filter_key_none user_name). Qed.

Lemma by_id_missing rows guid :
  guid ∉ user_id <$> rows → filter_by_id guid rows = [].
Proof. apply (filter_key_none user_id). Qed.

Lemma authorized_found w u password :
  store_ok (users w) → u ∈ users w →
  authorized (user_name u) password w =
    (Return (if bool_decide (user_role u < 0) then false
             else verify_password password (user_pwhash u)), w).
Proof.
  intros Hok Hin. unfold authorized. run.
  rewrite scalar_by_name_found by done. simpl.
  by destruct (bool_decide (user_role u < 0)).
Qed.

Lemma authorized_missing w username password :
  username ∉ user_name <$> users w →
  authorized username password w = (Return false, w).
Proof.
  intros Hno. unfold authorized. run. by rewrite by_name_missing.
Qed.

(** C2: a user whose stored record has a negative role is never
    authorized, whatever the password; nor is a name without record. *)
Theorem authorized_negative_role_or_unknown w username password :
  store_ok (users w) →
  (∀ u, u ∈ users w → user_name u = username → user_role u < 0 →
        authorized username password w = (Return false, w))
  ∧ (username ∉ user_name <$> users w →
        authorized username password w = (Return false, w)).
Proof.
  intros Hok. split.
  - intros u Hin <- Hneg. rewrite authorized_found by done.
    by rewrite bool_decide_eq_true_2.
  - apply authorized_missing.
Qed.

Lemma add_user_empty_name w password fullname email role tree :
  add_user EmptyString password fullname email role tree w
  = (Raise (ValueError "Username must not be empty"), w).
Proof. reflexivity. Qed.

Lemma add_user_empty_password w name fullname email role tree :
  name ≠ EmptyString →
  add_user name EmptyString fullname email role tree w
  = (Raise (ValueError "Password must not be empty"), w).
Proof.
  intros Hn. unfold add_user. by rewrite bool_decide_eq_false_2.
Qed.

Lemma add_user_nonempty w name password fullname email role tree :
  name ≠ EmptyString → password ≠ EmptyString →
  add_user name password fullname email role tree w
  = if collides (users w) (new_user_row w name password fullname email role tree)
    then (Raise (ValueError "Invalid or existing user"), after_draws 2 w)
    else (Return (),
          set_users (after_draws 2 w)
            (users w ++ [new_user_row w name password fullname email role tree])).
Proof.
  intros Hn Hp. unfold add_user.
  rewrite !bool_decide_eq_false_2 by done.
  unfold try_except, uuid4, hash_password, draw, session_add_commit. run.
  fold (new_user_row w name password fullname email role tree).
  by destruct (collides _ _).
Qed.

Lemma collides_name rows u :
  user_name u ∈ user_name <$> rows → collides rows u = true.
Proof.
  intros Hin. unfold collides.
  rewrite (bool_decide_eq_true_2 (user_name u ∈ _)) by done.
  by rewrite orb_true_r.
Qed.

Lemma collides_email rows u e :
  user_email u = Some e → Some e ∈ user_email <$> rows → collides rows u = true.
Proof.
  intros He Hin. unfold collides. rewrite He.
  rewrite (bool_decide_eq_true_2 (Some e ∈ _)) by done.
  by rewrite orb_true_r.
Qed.

Lemma collides_false rows u :
  collides rows u = false ↔
    (user_id u ∉ user_id <$> rows) ∧ (user_name u ∉ user_name <$> rows)
    ∧ (∀ e, user_email u = Some e → Some e ∉ user_email <$> rows).
Proof.
  unfold collides. rewrite !orb_false_iff, !bool_decide_eq_false.
  destruct (user_email u) as [e|].
  - rewrite bool_decide_eq_false. split.
    + intros [[? ?] ?]. split_and!; [done..|]. by intros ? [= <-].
    + intros (? & ? & He). split_and!; [done..|]. by apply He.
  - split; [intros [[? ?] _]; split_and!; done | intros (? & ? & _); done].
Qed.

(** C6: [add_user] with the name or the e-mail address of an existing
    user raises [ValueError] and leaves every row of the table as it
    was; with an empty name or an empty password it raises [ValueError]
    with the message for the empty argument and changes nothing. *)
Theorem add_user_rejects w name password fullname email role tree :
  ((name ∈ user_name <$> users w
    ∨ ∃ e, email = Some e ∧ Some e ∈ user_email <$> users w) →
   ∃ w', add_user name password fullname email role tree w
         = (Raise (ValueError (add_user_error name password)), w')
         ∧ users w' = users w)
  ∧ (name = EmptyString ∨ password = EmptyString →
     add_user name password fullname email role tree w
     = (Raise (ValueError (add_user_error name password)), w)
     ∧ add_user_error name password ≠ "Invalid or existing user").
Proof.
  unfold add_user_error. split.
  - intros Hdup.
    destruct (decide (name = EmptyString)) as [->|Hn].
    { exists w. by rewrite add_user_empty_name. }
    rewrite (bool_decide_eq_false_2 _ Hn).
    destruct (decide (password = EmptyString)) as [->|Hp].
    { exists w. by rewrite add_user_empty_password. }
    rewrite (bool_decide_eq_false_2 _ Hp).
    exists (after_draws 2 w). rewrite add_user_nonempty by done.
    assert (collides (users w) (new_user_row w name password fullname email role tree)
            = true) as ->; [|done].
    destruct Hdup as [Hname|(e & -> & He)].
    + by apply collides_name.
    + by apply (collides_email _ _ e).
  - intros Hempty.
    destruct (decide (name = EmptyString)) as [->|Hn].
    { by rewrite add_user_empty_name. }
    destruct Hempty as [? | ->]; [done|].
    rewrite (bool_decide_eq_false_2 _ Hn).
    by rewrite add_user_empty_password.
Qed.

(** Absent e-mail addresses never collide: a second user without e-mail
    address is accepted. *)
Lemma add_user_accepts w name password fullname email role tree :
  name ≠ EmptyString → password ≠ EmptyString →
  uuid4_at (entropy w) ∉ user_id <$> users w →
  name ∉ user_name <$> users w →
  (∀ e, email = Some e → Some e ∉ user_email <$> users w) →
  add_user name password fullname email role tree w
  = (Return (),
     set_users (after_draws 2 w)
       (users w ++ [new_user_row w name password fullname email role tree])).
Proof.
  intros Hn Hp Hid Hname Hemail. rewrite add_user_nonempty by done.
  assert (collides (users w) (new_user_row w name password fullname email role tree)
          = false) as ->; [|done].
  by apply collides_false.
Qed.

(** C7: [fill_tree T] returns normally, keeps the number and order of
    the rows, sets [tree] to [T] in every row whose tree is NULL or the
    empty string, and leaves every other row, and every other column of
    every row, as it was; queue and outbox are untouched. *)
Theorem fill_tree_effect w tree :
  ∃ w', fill_tree tree w = (Return (), w')
    ∧ length (users w') = length (users w)
    ∧ queue w' = queue w ∧ outbox w' = outbox w
    ∧ ∀ i u, users w !! i = Some u →
        ∃ u', users w' !! i = Some u'
          ∧ user_id u' = user_id u ∧ user_name u' = user_name u
          ∧ user_email u' = user_email u ∧ user_fullname u' = user_fullname u
          ∧ user_pwhash u' = user_pwhash u ∧ user_role u' = user_role u
          ∧ (user_tree u = None ∨ user_tree u = Some EmptyString →
             user_tree u' = Some tree)
          ∧ (user_tree u ≠ None → user_tree u ≠ Some EmptyString → u' = u).
Proof.
  eexists. split; [reflexivity|]. simpl.
  split; [by rewrite length_fmap|]. do 2 (split; [done|]).
  intros i u Hi. rewrite list_lookup_fmap, Hi. simpl.
  eexists. split; [reflexivity|].
  destruct u as [id name email fullname pwhash role [t|]]; simpl.
  - destruct (decide (t = EmptyString)) as [->|Hne].
    + rewrite bool_decide_eq_true_2 by done. simpl.
      split_and!; try done.
    + rewrite bool_decide_eq_false_2 by done.
      split_and!; try done. intros [?|[=]]; done.
  - split_and!; done.
Qed.

(** *** Readers *)

Lemma get_guid_found w u :
  store_ok (users w) → u ∈ users w →
  get_guid (user_name u) w = (Return (user_id u), w).
Proof.
  intros Hok Hin. unfold get_guid. run. by rewrite scalar_by_name_found.
Qed.

Lemma get_guid_missing w name :
  name ∉ user_name <$> users w →
  get_guid name w = (Raise (ValueError ("User " +:+ name +:+ " not found")), w).
Proof. intros Hno. unfold get_guid. run. by rewrite by_name_missing. Qed.

Lemma get_name_found w u :
  store_ok (users w) → u ∈ users w →
  get_name (user_id u) w = (Return (user_name u), w).
Proof.
  intros Hok Hin. unfold get_name. run. by rewrite scalar_by_id_found.
Qed.

Lemma get_name_missing w guid :
  guid ∉ user_id <$> users w →
  get_name guid w = (Raise (ValueError ("User ID " +:+ guid +:+ " not found")), w).
Proof. intros Hno. unfold get_name. run. by rewrite by_id_missing. Qed.

Lemma get_pwhash_found w u :
  store_ok (users w) → u ∈ users w →
  get_pwhash (user_name u) w = (Return (user_pwhash u), w).
Proof.
  intros Hok Hin. unfold get_pwhash. run. by rewrite scalar_by_name_found.
Qed.

Lemma get_user_details_found w u :
  store_ok (users w) → u ∈ users w →
  get_user_details (user_name u) w = (Return (Some (_get_user_detail u)), w).
Proof.
  intros Hok Hin. unfold get_user_details. run. by rewrite scalar_by_name_found.
Qed.

Lemma get_user_details_missing w name :
  name ∉ user_name <$> users w →
  get_user_details name w = (Return None, w).
Proof. intros Hno. unfold get_user_details. run. by rewrite by_name_missing. Qed.

(** *** Changing the password of an existing user *)

Lemma others_name rows u :
  store_ok rows → u ∈ rows →
  user_name u ∉ user_name <$> filter (λ r, user_id r ≠ user_id u) rows.
Proof.
  intros [_ Hn _] Hin Hmem.
  apply list_elem_of_fmap in Hmem as (r & Heq & Hr).
  apply list_elem_of_filter in Hr as [Hne Hr].
  apply Hne. f_equal. by apply (key_inj user_name rows).
Qed.

Lemma others_email rows u e :
  store_ok rows → u ∈ rows → user_email u = Some e →
  Some e ∉ user_email <$> filter (λ r, user_id r ≠ user_id u) rows.
Proof.
  intros [_ _ He] Hin Hu Hmem.
  apply list_elem_of_fmap in Hmem as (r & Heq & Hr).
  apply list_elem_of_filter in Hr as [Hne Hr].
  apply Hne. f_equal. by apply (optional_key_inj user_email rows _ _ e).
Qed.

Lemma modify_user_password w u password :
  store_ok (users w) → u ∈ users w →
  modify_user (user_name u) None (Some password) None None None None w
  = (Return (),
     set_users (after_draws 1 w)
       (replace_row u (set_pwhash u (hash_password_at (entropy w) password)) (users w))).
Proof.
  intros Hok Hin. unfold modify_user. run.
  rewrite scalar_by_name_found by done. simpl.
  unfold hash_password, draw, session_update_commit. run.
  rewrite (bool_decide_eq_false_2 (user_name u ∈ _)) by by apply others_name.
  assert (match user_email u with
          | Some e => bool_decide (Some e ∈ user_email <$>
                        filter (λ r, user_id r ≠ user_id u) (users w))
          | None => false
          end = false) as ->; [|done].
  destruct (user_email u) as [e|] eqn:He; [|done].
  by apply bool_decide_eq_false_2, others_email.
Qed.

Lemma replace_row_lookup rows u u' :
  store_ok rows → u ∈ rows → user_id u' = user_id u →
  u' ∈ replace_row u u' rows
  ∧ ∀ r, r ∈ rows → r ≠ u → r ∈ replace_row u u' rows.
Proof.
  intros Hok Hin Hid. unfold replace_row. split.
  - apply list_elem_of_fmap. exists u. by rewrite bool_decide_eq_true_2.
  - intros r Hr Hne. apply list_elem_of_fmap. exists r. split; [|done].
    rewrite bool_decide_eq_false_2; [done|].
    intros Heq. apply Hne. destruct Hok as [Hi _ _].
    by apply (key_inj user_id rows).
Qed.

End auth_facts.

(** ** The writers keep the constraints *)

Section invariant.
Context `{Externals}.
Import Const Auth.

Lemma store_ok_snoc rows u :
  store_ok rows → collides rows u = false → store_ok (rows ++ [u]).
Proof.
  intros [Hi Hn He] Hfree.
  apply collides_false in Hfree as (Hid & Hname & Hmail).
  split.
  - rewrite fmap_app. apply NoDup_app. split_and!; [done| |apply NoDup_singleton].
    intros x Hx Hx'. apply list_elem_of_singleton in Hx' as ->. done.
  - rewrite fmap_app. apply NoDup_app. split_and!; [done| |apply NoDup_singleton].
    intros x Hx Hx'. apply list_elem_of_singleton in Hx' as ->. done.
  - rewrite omap_app. apply NoDup_app. split_and!; [done| |].
    + intros e Hin Hin'. simpl in Hin'.
      destruct (user_email u) as [e'|] eqn:Hu; [|by apply elem_of_nil in Hin'].
      apply list_elem_of_singleton in Hin' as ->.
      apply (Hmail e' eq_refl).
      apply list_elem_of_omap in Hin as (r & Hr & Hre).
      apply list_elem_of_fmap. by exists r.
    + simpl. destruct (user_email u); [apply NoDup_singleton | constructor].
Qed.

Lemma store_ok_fmap (f : User → User) rows :
  (∀ r, r ∈ rows → user_id (f r) = user_id r ∧ user_name (f r) = user_name r
                    ∧ user_email (f r) = user_email r) →
  store_ok rows → store_ok (f <$> rows).
Proof.
  intros Hkeys [Hi Hn He].
  assert (∀ i x, rows !! i = Some x → x ∈ rows) as Hmem.
  { intros i x Hx. apply list_elem_of_lookup. eauto. }
  split.
  - rewrite <- list_fmap_compose.
    rewrite (list_fmap_ext (user_id ∘ f) user_id rows); [done|].
    intros i x Hx. by apply Hkeys, (Hmem i).
  - rewrite <- list_fmap_compose.
    rewrite (list_fmap_ext (user_name ∘ f) user_name rows); [done|].
    intros i x Hx. by apply Hkeys, (Hmem i).
  - assert (omap user_email (f <$> rows) = omap user_email rows) as ->; [|done].
    clear Hi Hn He Hmem. induction rows as [|a rows IH]; [done|].
    simpl. destruct (Hkeys a) as (_ & _ & ->); [by constructor|].
    assert (omap user_email (f <$> rows) = omap user_email rows) as Htail.
    { apply IH. intros r Hr. apply Hkeys. by constructor. }
    unfold omap, fmap in Htail. by rewrite Htail.
Qed.

Lemma add_user_store_ok name password fullname email role tree w :
  store_ok (users w) →
  store_ok (users (add_user name password fullname email role tree w).2).
Proof.
  intros Hok.
  destruct (decide (name = EmptyString)) as [->|Hn]; [done|].
  destruct (decide (password = EmptyString)) as [->|Hp].
  { by rewrite add_user_empty_password. }
  rewrite add_user_nonempty by done.
  destruct (collides _ _) eqn:Hfree; [done|].
  by apply store_ok_snoc.
Qed.

Lemma fill_tree_store_ok tree w :
  store_ok (users w) → store_ok (users (fill_tree tree w).2).
Proof.
  intros Hok. simpl. apply store_ok_fmap; [|done].
  intros r _. by destruct (bool_decide _).
Qed.

Lemma set_pwhash_store_ok rows u h :
  store_ok rows → u ∈ rows → store_ok (replace_row u (set_pwhash u h) rows).
Proof.
  intros Hok Hin. apply store_ok_fmap; [|done].
  intros r Hr. destruct (decide (user_id r = user_id u)) as [Heq|Hne].
  - rewrite bool_decide_eq_true_2 by done.
    assert (r = u) as -> by (destruct Hok; by apply (key_inj user_id rows)).
    done.
  - by rewrite bool_decide_eq_false_2.
Qed.

End invariant.

(** ** Running the monad step by step *)

Section steps.
Context {A B : Type}.

Lemma bind_Return (m : M A) (k : A → M B) w a w' :
  m w = (Return a, w') → (m ≫= k) w = k a w'.
Proof. intros E. unfold mbind, M_bind. by rewrite E. Qed.

Lemma bind_Raise (m : M A) (k : A → M B) w e w' :
  m w = (Raise e, w') → (m ≫= k) w = (Raise e, w').
Proof. intros E. unfold mbind, M_bind. by rewrite E. Qed.

Lemma bind_mret (a : A) (k : A → M B) w : (mret a ≫= k) w = k a w.
Proof. reflexivity. Qed.

Lemma try_except_Return (body handler : M A) clause w a w' :
  body w = (Return a, w') → try_except body clause handler w = (Return a, w').
Proof. intros E. unfold try_except. by rewrite E. Qed.

Lemma try_except_caught (body handler : M A) c w e w' :
  body w = (Raise e, w') → isinstance e c = true →
  try_except body (ExceptClass c) handler w = handler w'.
Proof. intros E Hc. unfold try_except. by rewrite E, Hc. Qed.

Lemma try_except_passed (body handler : M A) c w e w' :
  body w = (Raise e, w') → isinstance e c = false →
  try_except body (ExceptClass c) handler w = (Raise e, w').
Proof. intros E Hc. unfold try_except. by rewrite E, Hc. Qed.

(** An [except] clause whose expression is an object, not a class,
    turns every exception of the body into a [TypeError]; the handler
    never runs. *)
Lemma try_except_object (body handler : M A) obj w e w' :
  body w = (Raise e, w') →
  try_except body (ExceptObject obj) handler w = (Raise (TypeError not_a_class_msg), w').
Proof. intros E. unfold try_except. by rewrite E. Qed.
End steps.

(** ** api/tasks.py: the dispatcher *)

Section tasks_facts.
Context `{Externals}.
Import Tasks.

Lemma delay_eq {K V} (task : Task K V) kwargs w :
  delay task kwargs w
  = (Return (mkAsyncResult (task_id_at (entropy w))),
     after_enqueue w (message task kwargs)).
Proof. reflexivity. Qed.

(** C5: without a queue backend ([CELERY_CONFIG] falsy) [run_task]
    returns what the call of the task returns (and raises what it
    raises); with a queue backend it does not run the task but puts it
    on the queue and returns an [AsyncResult]; the response made from a
    handle with identifier [id] is the payload
    [{"task": {"href": "/api/tasks/" + id, "id": id}}] with status 202. *)
Theorem run_task_dispatch {K V} (task : Task K V) (kwargs : K) (w : World) :
  (truthy CELERY_CONFIG = false →
     run_task task kwargs w
     = match call task kwargs w with
       | (Return v, w') => (Return (inr v), w')
       | (Raise e, w') => (Raise e, w')
       end)
  ∧ (truthy CELERY_CONFIG = true →
     run_task task kwargs w
     = (Return (inl (mkAsyncResult (task_id_at (entropy w)))),
        after_enqueue w (message task kwargs)))
  ∧ (∀ id, make_task_response (mkAsyncResult id)
           = (Json (JObj [("task", JObj [("href", JStr ("/api/tasks/" +:+ id));
                                          ("id", JStr id)])]), 202)).
Proof.
  split_and!.
  - intros Hoff. unfold run_task. rewrite Hoff. simpl.
    unfold mbind, M_bind. by destruct (call task kwargs w) as [[v|e] w'].
  - intros Hon. unfold run_task. rewrite Hon. simpl.
    by erewrite bind_Return by apply delay_eq.
  - done.
Qed.

Lemma run_task_queued {K V} (task : Task K V) kwargs w :
  truthy CELERY_CONFIG = true →
  run_task task kwargs w
  = (Return (inl (mkAsyncResult (task_id_at (entropy w)))),
     after_enqueue w (message task kwargs)).
Proof.
  intros Hon. unfold run_task. rewrite Hon. simpl.
  by erewrite bind_Return by apply delay_eq.
Qed.

Lemma run_task_inline {K V} (task : Task K V) kwargs w v w' :
  truthy CELERY_CONFIG = false →
  call task kwargs w = (Return v, w') →
  run_task task kwargs w = (Return (inr v), w').
Proof.
  intros Hoff E. unfold run_task. rewrite Hoff. simpl.
  by erewrite bind_Return by exact E.
Qed.

Lemma run_task_inline_raise {K V} (task : Task K V) kwargs w e w' :
  truthy CELERY_CONFIG = false →
  call task kwargs w = (Raise e, w') →
  run_task task kwargs w = (Raise e, w').
Proof.
  intros Hoff E. unfold run_task. rewrite Hoff. simpl.
  by erewrite bind_Raise by exact E.
Qed.

Lemma send_email_m_sent subject body to w :
  send_email (mkMail subject body to) = Return () →
  send_email_m subject body to w = (Return (), after_mail w (mkMail subject body to)).
Proof. intros E. unfold send_email_m. by rewrite E. Qed.

End tasks_facts.

(** ** api/resources/user.py: password reset *)

Section reset_facts.
Context `{Externals}.
Import Const Auth Tasks Users.

Lemma reset_token_claims u :
  token_claims (reset_token u) !! CLAIM_LIMITED_SCOPE = Some SCOPE_RESET_PW
  ∧ token_claims (reset_token u) !! "old_hash" = Some (user_pwhash u)
  ∧ token_identity (reset_token u) = user_id u.
Proof.
  unfold reset_token, create_access_token. simpl. split_and!.
  - by rewrite lookup_insert_ne, lookup_insert_eq.
  - by rewrite lookup_insert_eq.
  - done.
Qed.

Lemma when_false m : when false m = mret ().
Proof. reflexivity. Qed.

Lemma when_true m : when true m = m.
Proof. reflexivity. Qed.

Lemma trigger_post_found w u e :
  store_ok (users w) → u ∈ users w → user_name u ≠ "-" → user_email u = Some e →
  UserTriggerResetPasswordResource_post (user_name u) w
  = match run_task send_email_reset_password (e, reset_token u) w with
    | (Return (inl r), w') => (Return (make_task_response r), w')
    | (Return (inr _), w') => (Return (Text EmptyString, 201), w')
    | (Raise ex, w') =>
        if isinstance ex CValueError then (Raise (HTTPException 500), w')
        else (Raise ex, w')
    end.
Proof.
  intros Hok Hin Hname Hmail. unfold UserTriggerResetPasswordResource_post.
  rewrite bool_decide_eq_false_2 by done. unfold when. rewrite bind_mret.
  erewrite bind_Return by by apply get_user_details_found. cbn beta iota.
  rewrite bind_mret. simpl d_email. rewrite Hmail. rewrite bind_mret.
  erewrite bind_Return by by apply get_guid_found.
  erewrite bind_Return by by apply get_pwhash_found.
  fold (reset_token u).
  unfold mbind at 1, M_bind at 1, try_except.
  destruct (run_task _ _ w) as [[[r|v]|ex] w']; try done.
  by destruct (isinstance ex CValueError).
Qed.

Lemma reset_post_nonempty req new_password w u h0 :
  new_password ≠ EmptyString →
  token_claims (jwt req) !! CLAIM_LIMITED_SCOPE = Some SCOPE_RESET_PW →
  token_claims (jwt req) !! "old_hash" = Some h0 →
  store_ok (users w) → u ∈ users w → get_jwt_identity req = user_id u →
  UserResetPasswordResource_post req new_password w
  = if bool_decide (h0 ≠ user_pwhash u) then (Raise (HTTPException 409), w)
    else (Return (Text EmptyString, 201),
          set_users (after_draws 1 w)
            (replace_row u (set_pwhash u (hash_password_at (entropy w) new_password))
               (users w))).
Proof.
  intros Hp Hscope Hold Hok Hin Hid. unfold UserResetPasswordResource_post.
  rewrite bool_decide_eq_false_2 by done. rewrite when_false, bind_mret.
  unfold get_jwt_claim. rewrite Hscope, Hold. rewrite bind_mret.
  rewrite bool_decide_eq_false_2 by (by intros []).
  rewrite when_false, bind_mret.
  erewrite bind_Return;
    [| apply try_except_Return; rewrite Hid; by apply get_name_found].
  rewrite bind_mret.
  erewrite bind_Return by by apply get_pwhash_found.
  destruct (bool_decide (h0 ≠ user_pwhash u)).
  - rewrite when_true. by erewrite bind_Raise by reflexivity.
  - rewrite when_false, bind_mret.
    by erewrite bind_Return by by apply modify_user_password.
Qed.

Lemma reset_post_empty req w :
  UserResetPasswordResource_post req EmptyString w = (Raise (HTTPException 400), w).
Proof. reflexivity. Qed.

End reset_facts.

Lemma demo_world_ok : store_ok (users demo_world).
Proof.
  split; apply (bool_decide_unpack _); vm_compute; exact I.
Defined.

Lemma demo_world_changed_ok : store_ok (users demo_world_changed).
Proof.
  split; apply (bool_decide_unpack _); vm_compute; exact I.
Defined.


Section reset_claim.
Context `{Externals}.
Import Const Auth Tasks Users.

(** C3 (amended): the token the reset trigger issues for a user with an
    e-mail address carries the password hash stored at that moment as
    [old_hash], the reset scope and the user's id.  When that token is
    presented to the reset endpoint with a non-empty new password while
    the user still exists: if the stored hash differs from the one in
    the token the request is aborted with 409 and nothing changes; if
    it is still the same the response is 201 and the user's row gets
    the hash of the new password, every other row staying as it was. *)
Theorem reset_token_single_use w0 u0 e w u req new_password :
  store_ok (users w0) → u0 ∈ users w0 → user_name u0 ≠ "-" →
  user_email u0 = Some e →
  jwt req = reset_token u0 →
  store_ok (users w) → u ∈ users w → user_id u = user_id u0 →
  new_password ≠ EmptyString →
  (truthy CELERY_CONFIG = true →
     UserTriggerResetPasswordResource_post (user_name u0) w0
     = (Return (make_task_response (mkAsyncResult (task_id_at (entropy w0)))),
        after_enqueue w0 (send_email_reset_password_call e (reset_token u0))))
  ∧ (truthy CELERY_CONFIG = false →
     send_email (reset_mail e (reset_token u0)) = Return () →
     UserTriggerResetPasswordResource_post (user_name u0) w0
     = (Return (Text EmptyString, 201), after_mail w0 (reset_mail e (reset_token u0))))
  ∧ token_claims (reset_token u0) !! "old_hash" = Some (user_pwhash u0)
  ∧ (user_pwhash u ≠ user_pwhash u0 →
     UserResetPasswordResource_post req new_password w = (Raise (HTTPException 409), w))
  ∧ (user_pwhash u = user_pwhash u0 →
     UserResetPasswordResource_post req new_password w
     = (Return (Text EmptyString, 201),
        set_users (after_draws 1 w)
          (replace_row u (set_pwhash u (hash_password_at (entropy w) new_password))
             (users w)))).
Proof.
  intros Hok0 Hin0 Hname He Hjwt Hok Hin Hid Hp.
  destruct (reset_token_claims u0) as (Hscope & Hold & Hident).
  assert (UserResetPasswordResource_post req new_password w
          = if bool_decide (user_pwhash u0 ≠ user_pwhash u)
            then (Raise (HTTPException 409), w)
            else (Return (Text EmptyString, 201),
                  set_users (after_draws 1 w)
                    (replace_row u
                       (set_pwhash u (hash_password_at (entropy w) new_password))
                       (users w)))) as Hpost.
  { apply reset_post_nonempty; try done.
    - by rewrite Hjwt.
    - by rewrite Hjwt.
    - unfold get_jwt_identity. by rewrite Hjwt, Hident. }
  split_and!.
  - intros Hon. rewrite (trigger_post_found w0 u0 e) by done.
    by rewrite run_task_queued.
  - intros Hoff Hsent. rewrite (trigger_post_found w0 u0 e) by done.
    erewrite run_task_inline; [done..|].
    simpl. by apply send_email_m_sent.
  - done.
  - intros Hne. rewrite Hpost. by rewrite bool_decide_eq_true_2.
  - intros Heq. rewrite Hpost. by rewrite bool_decide_eq_false_2 by (by intros []).
Qed.

End reset_claim.

(** ** api/resources/user.py: registration *)

Section register_facts.
Context `{Externals}.
Import Const Auth Tasks Users.

Lemma get_number_users_eq w tree roles :
  ∃ n, get_number_users tree roles w = (Return n, w) ∧ (0 ≤ n)%Z.
Proof. eexists. split; [reflexivity|]. lia. Qed.

Lemma owners_zero w tree :
  (∀ o, o ∈ users w → ¬ owner_for tree o) →
  get_number_users tree (Some [ROLE_OWNER]) w = (Return 0, w).
Proof.
  intros Hnone. unfold get_number_users, mbind, M_bind, query, mret, M_ret.
  do 2 f_equal.
  assert (match tree with
          | Some t => filter (λ u, user_tree u = Some t)
                        (filter (λ u, user_role u ∈ [ROLE_OWNER]) (users w))
          | None => filter (λ u, user_role u ∈ [ROLE_OWNER]) (users w)
          end = []) as ->; [|done].
  destruct tree as [t|].
  - apply filter_none. intros o Ho Ht.
    apply list_elem_of_filter in Ho as [Hr Ho]. apply list_elem_of_singleton in Hr.
    apply (Hnone o Ho). split; [done|]. by intros ? [= <-].
  - apply filter_none. intros o Ho Hr.
    apply list_elem_of_singleton in Hr.
    apply (Hnone o Ho). split; [done|]. by intros ? [=].
Qed.

Lemma owners_positive w tree o :
  o ∈ users w → owner_for tree o →
  ∃ n, get_number_users tree (Some [ROLE_OWNER]) w = (Return n, w) ∧ n ≠ 0.
Proof.
  intros Ho [Hr Ht]. eexists. split; [reflexivity|].
  assert (o ∈ match tree with
              | Some t => filter (λ u, user_tree u = Some t)
                            (filter (λ u, user_role u ∈ [ROLE_OWNER]) (users w))
              | None => filter (λ u, user_role u ∈ [ROLE_OWNER]) (users w)
              end) as Hmem.
  { assert (o ∈ filter (λ u, user_role u ∈ [ROLE_OWNER]) (users w)) as Hf.
    { apply list_elem_of_filter. split; [|done]. rewrite Hr. by constructor. }
    destruct tree as [t|]; [|done].
    apply list_elem_of_filter. split; [|done]. by apply Ht. }
  destruct (match tree with Some _ => _ | None => _ end) as [|x l].
  - by apply elem_of_nil in Hmem.
  - simpl. lia.
Qed.

Lemma get_guid_appended w (rows : list User) u :
  users w = (rows ++ [u])%list → user_name u ∉ user_name <$> rows →
  get_guid (user_name u) w = (Return (user_id u), w).
Proof.
  intros Hrows Hnew. unfold get_guid, mbind, M_bind, query, mret, M_ret.
  rewrite Hrows. unfold filter_by_name. rewrite filter_app.
  rewrite (filter_key_none user_name) by done.
  by rewrite filter_cons_True by done.
Qed.

Lemma run_task_confirm_users kwargs w :
  users (run_task send_email_confirm_email kwargs w).2 = users w.
Proof.
  destruct kwargs as [email token]. unfold run_task.
  destruct (truthy CELERY_CONFIG); unfold negb; cbv iota.
  - by erewrite bind_Return by apply delay_eq.
  - unfold mbind, M_bind. simpl. unfold send_email_m.
    by destruct (send_email (mkMail _ _ _)).
Qed.

Lemma register_post_own args w :
  UserRegisterResource_post args "-" w = (Raise (HTTPException 404), w).
Proof. reflexivity. Qed.

Lemma register_post_no_owner args user_name w :
  user_name ≠ "-" →
  (∀ o, o ∈ users w → ¬ owner_for (reg_tree args) o) →
  UserRegisterResource_post args user_name w = (Raise (HTTPException 405), w).
Proof.
  intros Hname Hnone. unfold UserRegisterResource_post.
  rewrite bool_decide_eq_false_2 by done. rewrite when_false, bind_mret.
  erewrite bind_Return by by apply owners_zero.
  rewrite bool_decide_eq_true_2 by done. rewrite when_true.
  by erewrite bind_Raise by reflexivity.
Qed.

Lemma register_post_accepted args name w o :
  name ≠ "-" → name ≠ EmptyString → reg_password args ≠ EmptyString →
  o ∈ users w → owner_for (reg_tree args) o →
  uuid4_at (entropy w) ∉ user_id <$> users w →
  name ∉ user_name <$> users w →
  Some (reg_email args) ∉ user_email <$> users w →
  UserRegisterResource_post args name w
  = match run_task send_email_confirm_email
            (reg_email args,
             confirm_token (user_id (registered_row w args name)) (reg_email args))
            (after_registration w args name) with
    | (Return _, w') => (Return (Text EmptyString, 201), w')
    | (Raise e, w') => (Raise e, w')
    end.
Proof.
  intros Hname Hne Hpw Ho Howner Hid Hnew Hmail. unfold UserRegisterResource_post.
  rewrite bool_decide_eq_false_2 by done. rewrite when_false, bind_mret.
  destruct (owners_positive w (reg_tree args) o Ho Howner) as (n & Hn & Hpos).
  erewrite bind_Return by exact Hn.
  rewrite bool_decide_eq_false_2 by done. rewrite when_false, bind_mret.
  erewrite bind_Return;
    [| apply try_except_Return, add_user_accepts; try done; by intros ? [= <-]].
  fold (registered_row w args name). fold (after_registration w args name).
  erewrite bind_Return;
    [| by apply (get_guid_appended _ (users w) (registered_row w args name))].
  fold (confirm_token (user_id (registered_row w args name)) (reg_email args)).
  unfold mbind at 1, M_bind at 1.
  by destruct (run_task _ _ _) as [[v|e] w'].
Qed.

End register_facts.

Section register_claim.
Context `{Externals}.
Import Const Auth Tasks Users.

(** C4 (amended): for a name other than "-", registration is aborted with
    405 and changes nothing when no user has the owner role in the tree
    the request names (in any tree, when it names none).  When there is
    such an owner, and the name is new and not empty, the e-mail address
    is new, the password is not empty and the generated id is new, the
    table gains exactly one row, with role [ROLE_UNCONFIRMED] and the
    requested name, e-mail address and tree; the response is 201 when the
    confirmation mail is queued, or sent without error. *)
Theorem register_guard w args name :
  name ≠ "-" →
  ((∀ o, o ∈ users w → ¬ owner_for (reg_tree args) o) →
     UserRegisterResource_post args name w = (Raise (HTTPException 405), w))
  ∧ (∀ o, o ∈ users w → owner_for (reg_tree args) o →
     name ≠ EmptyString → reg_password args ≠ EmptyString →
     uuid4_at (entropy w) ∉ user_id <$> users w →
     name ∉ user_name <$> users w →
     Some (reg_email args) ∉ user_email <$> users w →
     ∃ out w' row,
       UserRegisterResource_post args name w = (out, w')
       ∧ users w' = (users w ++ [row])%list
       ∧ user_role row = ROLE_UNCONFIRMED
       ∧ user_name row = name
       ∧ user_email row = Some (reg_email args)
       ∧ user_tree row = reg_tree args
       ∧ (truthy CELERY_CONFIG = true → out = Return (Text EmptyString, 201))
       ∧ (truthy CELERY_CONFIG = false →
          send_email (confirm_mail (reg_email args)
                        (confirm_token (user_id row) (reg_email args))) = Return () →
          out = Return (Text EmptyString, 201))).
Proof.
  intros Hname. split; [by apply register_post_no_owner|].
  intros o Ho Howner Hne Hpw Hid Hnew Hmail.
  set (row := registered_row w args name).
  set (w1 := after_registration w args name).
  set (kw := (reg_email args, confirm_token (user_id row) (reg_email args))).
  pose proof (register_post_accepted args name w o
                Hname Hne Hpw Ho Howner Hid Hnew Hmail) as Hpost.
  fold row w1 kw in Hpost.
  pose proof (run_task_confirm_users kw w1) as Husers.
  destruct (run_task send_email_confirm_email kw w1) as [out w'] eqn:Hrun.
  simpl in Husers.
  exists (match out with Return _ => Return (Text EmptyString, 201) | Raise e => Raise e end),
         w', row.
  split_and!; try done.
  - rewrite Hpost. by destruct out.
  - intros Hon. rewrite run_task_queued in Hrun by done. by injection Hrun as <- _.
  - intros Hoff Hsent.
    erewrite run_task_inline in Hrun; [| done | by apply send_email_m_sent].
    by injection Hrun as <- _.
Qed.

End register_claim.

(** ** api/resources/user.py: viewing and editing users *)

Section edit_facts.
Context `{Externals}.
Import Const Auth Tasks Users.

Lemma has_permissions_one req p :
  has_permissions req [p] = bool_decide (p ∈ caller_permissions req).
Proof.
  unfold has_permissions. apply bool_decide_ext. simpl.
  rewrite (right_id_L ∅ (∪)). apply singleton_subseteq_l.
Qed.

Lemma require_permissions_held req p w :
  p ∈ caller_permissions req → require_permissions req [p] w = (Return (), w).
Proof.
  intros Hp. unfold require_permissions.
  by rewrite has_permissions_one, bool_decide_eq_true_2.
Qed.

Lemma require_permissions_missing req p w :
  p ∉ caller_permissions req →
  require_permissions req [p] w = (Raise (HTTPException 403), w).
Proof.
  intros Hp. unfold require_permissions.
  by rewrite has_permissions_one, bool_decide_eq_false_2.
Qed.

(** [prepare_edit] for a name that no row has: the [ValueError] of
    [get_guid] meets [except ValueError():]. *)
Lemma prepare_edit_unknown req name w :
  name ≠ "-" → name ∉ user_name <$> users w →
  prepare_edit req name w = (Raise (TypeError not_a_class_msg), w).
Proof.
  intros Hname Hno. unfold prepare_edit.
  rewrite bool_decide_eq_false_2 by done.
  erewrite bind_Raise; [done|].
  eapply try_except_object. by apply get_guid_missing.
Qed.

Lemma prepare_edit_own req w u :
  store_ok (users w) → u ∈ users w → user_id u = get_jwt_identity req →
  PERM_EDIT_OWN_USER ∈ caller_permissions req →
  prepare_edit req "-" w = (Return (user_name u, false), w).
Proof.
  intros Hok Hin Hid Hperm. unfold prepare_edit.
  rewrite bool_decide_eq_true_2 by done.
  erewrite bind_Return by by apply require_permissions_held.
  erewrite bind_Return;
    [| apply try_except_Return; rewrite <- Hid; by apply get_name_found].
  done.
Qed.

(** The sibling [UserResource.delete] catches the class and answers 404. *)
Lemma delete_unknown req name w :
  name ≠ "-" → name ∉ user_name <$> users w →
  UserResource_delete req name w = (Raise (HTTPException 404), w).
Proof.
  intros Hname Hno. unfold UserResource_delete.
  rewrite bool_decide_eq_false_2 by done. rewrite when_false, bind_mret.
  erewrite bind_Raise; [done|].
  eapply try_except_caught; [by apply get_guid_missing | done].
Qed.

(** C8: the code at a name other than "-" that no row has.  [PUT
    /users/{name}] and [POST /users/{name}/password/change] do not abort
    with 404: both end in an uncaught [TypeError]; the table is left as it
    was. *)
Theorem edit_unknown_user req put_args pw_args name w :
  name ≠ "-" → name ∉ user_name <$> users w →
  UserResource_put req put_args name w = (Raise (TypeError not_a_class_msg), w)
  ∧ UserChangePasswordResource_post req pw_args name w
    = (Raise (TypeError not_a_class_msg), w).
Proof.
  intros Hname Hno. split.
  - unfold UserResource_put.
    by erewrite bind_Raise by by apply prepare_edit_unknown.
  - unfold UserChangePasswordResource_post.
    by erewrite bind_Raise by by apply prepare_edit_unknown.
Qed.

End edit_facts.

Section view_claim.
Context `{Externals}.
Import Const Auth Tasks Users.

Lemma get_named_other_tree req name w u t :
  name ≠ "-" → name ≠ "_" →
  PERM_VIEW_OTHER_TREE_USER ∉ caller_permissions req →
  store_ok (users w) → u ∈ users w → user_name u = name →
  get_tree_id (users w) (user_id u) = Return t → t ≠ caller_tree req →
  UserResource_get req name w = (Raise (HTTPException 403), w).
Proof.
  intros Hown Hund Hcross Hok Hin <- Htree Hdiff. unfold UserResource_get.
  rewrite bool_decide_eq_false_2 by done.
  destruct (decide (PERM_VIEW_OTHER_USER ∈ caller_permissions req)) as [Hview|Hview].
  - erewrite bind_Return;
      [| by erewrite bind_Return by by apply require_permissions_held].
    rewrite bool_decide_eq_true_2 by done.
    rewrite has_permissions_one, bool_decide_eq_false_2 by done.
    simpl andb. rewrite when_true.
    erewrite bind_Raise; [done|].
    erewrite bind_Return;
      [| by apply try_except_Return, get_guid_found].
    erewrite bind_Return; [| unfold get_tree_id_m; by rewrite Htree].
    rewrite bool_decide_eq_true_2; [done|].
    unfold get_tree_from_jwt. congruence.
  - erewrite bind_Raise; [done|].
    by erewrite bind_Raise by by apply require_permissions_missing.
Qed.

Lemma get_own_other_tree req w u t :
  user_name u ≠ "_" →
  PERM_VIEW_OTHER_TREE_USER ∉ caller_permissions req →
  store_ok (users w) → u ∈ users w → user_id u = get_jwt_identity req →
  get_tree_id (users w) (user_id u) = Return t → t ≠ caller_tree req →
  UserResource_get req "-" w = (Raise (HTTPException 403), w).
Proof.
  intros Hund Hcross Hok Hin Hid Htree Hdiff. unfold UserResource_get.
  rewrite bool_decide_eq_true_2 by done.
  erewrite bind_Return;
    [| apply try_except_Return; rewrite <- Hid; by apply get_name_found].
  rewrite bool_decide_eq_true_2 by done.
  rewrite has_permissions_one, bool_decide_eq_false_2 by done.
  simpl andb. rewrite when_true.
  erewrite bind_Raise; [done|].
  erewrite bind_Return;
    [| by apply try_except_Return, get_guid_found].
  erewrite bind_Return; [| unfold get_tree_id_m; by rewrite Htree].
  rewrite bool_decide_eq_true_2; [done|].
  unfold get_tree_from_jwt. congruence.
Qed.

Lemma get_underscore req w u :
  PERM_VIEW_OTHER_USER ∈ caller_permissions req →
  store_ok (users w) → u ∈ users w → user_name u = "_" →
  UserResource_get req "_" w = (Return (jsonify (_get_user_detail u), 200), w).
Proof.
  intros Hview Hok Hin Hname. unfold UserResource_get.
  rewrite bool_decide_eq_false_2 by done.
  erewrite bind_Return;
    [| by erewrite bind_Return by by apply require_permissions_held].
  rewrite (bool_decide_eq_false_2 ("_" ≠ "_")) by (by intros []).
  simpl andb. rewrite when_false, bind_mret.
  erewrite bind_Return; [| rewrite <- Hname; by apply get_user_details_found].
  done.
Qed.

(** C9: in [UserResource.get] a caller without the cross-tree view
    permission is aborted with 403 when the user the request resolves to
    (the named one, or the caller's own for "-") is not named "_" and
    lives in another tree than the caller; but for the name "_" the tree
    is not looked at: a caller holding the same-tree view permission gets
    the details of the user named "_" with status 200, whatever that
    user's tree and whether or not the caller may see other trees. *)
Theorem get_tree_check_skipped_for_underscore req w u :
  store_ok (users w) → u ∈ users w →
  (∀ name t,
     (name ≠ "-" ∧ user_name u = name
      ∨ name = "-" ∧ user_id u = get_jwt_identity req) →
     user_name u ≠ "_" →
     PERM_VIEW_OTHER_TREE_USER ∉ caller_permissions req →
     get_tree_id (users w) (user_id u) = Return t → t ≠ caller_tree req →
     UserResource_get req name w = (Raise (HTTPException 403), w))
  ∧ (user_name u = "_" →
     PERM_VIEW_OTHER_USER ∈ caller_permissions req →
     UserResource_get req "_" w = (Return (jsonify (_get_user_detail u), 200), w)).
Proof.
  intros Hok Hin. split.
  - intros name t [[Hown Hname]|[-> Hid]] Hund Hcross Htree Hdiff.
    + apply (get_named_other_tree req name w u t); try done. by rewrite <- Hname.
    + by apply (get_own_other_tree req w u t).
  - intros Hname Hview. by apply get_underscore.
Qed.

End view_claim.

(** ** api/resources/user.py: changing the password *)

Section change_password_claim.
Context `{Externals}.
Import Const Auth Tasks Users.

Lemma empty_guard_never_fires (s : string) :
  py_eq (len s) (PyStr EmptyString) = false.
Proof. reflexivity. Qed.

Lemma authorized_not_aborted username password w code :
  (authorized username password w).1 ≠ Raise (HTTPException code).
Proof.
  unfold authorized, mbind, M_bind, query, mret, M_ret, scalar, raise. simpl.
  destruct (filter_by_name username (users w)) as [|u [|u' l]]; simpl; try done.
  by destruct (bool_decide (user_role u < 0)).
Qed.

Lemma modify_user_not_aborted name name_new password fullname email role tree w code :
  (modify_user name name_new password fullname email role tree w).1
  ≠ Raise (HTTPException code).
Proof.
  unfold modify_user, mbind, M_bind, query, mret, M_ret, one, raise. simpl.
  destruct (filter_by_name name (users w)) as [|u [|u' l]]; simpl; try done.
  unfold session_update_commit, hash_password, draw, mbind, M_bind, mret, M_ret.
  destruct password as [p|]; simpl.
  - destruct (_ || _); simpl; congruence.
  - destruct (_ || _); simpl; congruence.
Qed.

Lemma change_password_after_prepare req args name w u other_tree :
  prepare_edit req name w = (Return (user_name u, other_tree), w) →
  store_ok (users w) → u ∈ users w → (0 ≤ user_role u)%Z →
  verify_password (old_password args) (user_pwhash u) = true →
  UserChangePasswordResource_post req args name w
  = (Return (Text EmptyString, 201),
     set_users (after_draws 1 w)
       (replace_row u
          (set_pwhash u (hash_password_at (entropy w) (new_password args)))
          (users w))).
Proof.
  intros Hprep Hok Hin Hrole Hold. unfold UserChangePasswordResource_post.
  erewrite bind_Return by exact Hprep. cbn beta iota.
  rewrite empty_guard_never_fires, when_false, bind_mret.
  erewrite bind_Return by by apply authorized_found.
  rewrite bool_decide_eq_false_2 by lia. rewrite Hold.
  simpl negb. rewrite when_false, bind_mret.
  by erewrite bind_Return by by apply modify_user_password.
Qed.

(** [prepare_edit] itself aborts with 401, 403 or (never reached) 404
    only: a 400 can only be one that [get_tree_id] produced. *)
Lemma prepare_edit_400 req name w :
  (prepare_edit req name w).1 = Raise (HTTPException 400) →
  ∃ g, get_tree_id (users w) g = Raise (HTTPException 400).
Proof.
  unfold prepare_edit, require_permissions, try_except, get_name, get_guid,
    get_tree_id_m, mbind, M_bind, mret, M_ret, query, scalar, raise, abort.
  destruct (bool_decide (name = "-")).
  - destruct (has_permissions req [PERM_EDIT_OWN_USER]); simpl; [|discriminate].
    destruct (user_name <$> filter_by_id _ _) as [|a [|b l]]; simpl; discriminate.
  - destruct (user_id <$> filter_by_name _ _) as [|a [|b l]]; simpl; try discriminate.
    destruct (get_tree_id (users w) a) as [t|e] eqn:Htree; simpl.
    + destruct (bool_decide (_ = t)); simpl;
        destruct (has_permissions req _); simpl; discriminate.
    + intros [= ->]. by exists a.
Qed.

(** C10: the guard of [UserChangePasswordResource.post] compares
    [len(new_password)], an int, with the empty string, which is false for
    every password; the handler never aborts with 400 of its own (a 400
    could only be one that the external [get_tree_id] produced); once
    [prepare_edit] lets the request through, in particular for a caller
    changing the own password, the right old password and an empty new
    one are answered with 201 and the stored hash becomes the hash of
    the empty string;
    [add_user] rejects the empty password with [ValueError]. *)
Theorem change_password_accepts_empty :
  (∀ s, py_eq (len s) (PyStr EmptyString) = false)
  ∧ (∀ req args name w,
       (UserChangePasswordResource_post req args name w).1 = Raise (HTTPException 400) →
       ∃ g, get_tree_id (users w) g = Raise (HTTPException 400))
  ∧ (∀ req old name w u other_tree,
       prepare_edit req name w = (Return (user_name u, other_tree), w) →
       store_ok (users w) → u ∈ users w →
       (0 ≤ user_role u)%Z → verify_password old (user_pwhash u) = true →
       UserChangePasswordResource_post req (mkChangePasswordArgs old EmptyString) name w
       = (Return (Text EmptyString, 201),
          set_users (after_draws 1 w)
            (replace_row u (set_pwhash u (hash_password_at (entropy w) EmptyString))
               (users w))))
  ∧ (∀ req old w u,
       store_ok (users w) → u ∈ users w → user_id u = get_jwt_identity req →
       PERM_EDIT_OWN_USER ∈ caller_permissions req →
       (0 ≤ user_role u)%Z → verify_password old (user_pwhash u) = true →
       UserChangePasswordResource_post req (mkChangePasswordArgs old EmptyString) "-" w
       = (Return (Text EmptyString, 201),
          set_users (after_draws 1 w)
            (replace_row u (set_pwhash u (hash_password_at (entropy w) EmptyString))
               (users w))))
  ∧ (∀ name fullname email role tree w,
       ∃ msg, add_user name EmptyString fullname email role tree w
              = (Raise (ValueError msg), w)).
Proof.
  split_and!.
  - apply empty_guard_never_fires.
  - intros req args name w. unfold UserChangePasswordResource_post.
    unfold mbind at 1, M_bind at 1.
    pose proof (prepare_edit_400 req name w) as Hprep.
    destruct (prepare_edit req name w) as [[[n b]|e] w1];
      [|simpl in *; intros [= ->]; by apply Hprep].
    intros Habs. exfalso. revert Habs.
    rewrite empty_guard_never_fires, when_false, bind_mret.
    unfold mbind at 1, M_bind at 1.
    pose proof (authorized_not_aborted n (old_password args) w1 400) as Hauth.
    destruct (authorized n (old_password args) w1) as [[ok|e] w2];
      [|simpl in *; congruence].
    destruct ok; simpl negb.
    + rewrite when_false, bind_mret. unfold mbind at 1, M_bind at 1.
      pose proof (modify_user_not_aborted n None (Some (new_password args))
                    None None None None w2 400) as Hmod.
      destruct (modify_user _ _ _ _ _ _ _ w2) as [[[]|e] w3];
        simpl in *; congruence.
    + rewrite when_true. erewrite bind_Raise by reflexivity. simpl. congruence.
  - intros req old name w u other_tree Hprep Hok Hin Hrole Hold.
    by apply (change_password_after_prepare req (mkChangePasswordArgs old EmptyString)
                name w u other_tree).
  - intros req old w u Hok Hin Hid Hperm Hrole Hold.
    by apply (change_password_after_prepare req (mkChangePasswordArgs old EmptyString)
                "-" w u false);
      [apply prepare_edit_own|..].
  - intros name fullname email role tree w.
    destruct (decide (name = EmptyString)) as [->|Hn].
    + eexists. apply add_user_empty_name.
    + eexists. by apply add_user_empty_password.
Qed.

End change_password_claim.

(** ** The claims at concrete inputs *)

Section examples.
Import Const Auth Tasks Users.

Lemma authorized_negative_role_or_unknown_witness :
  store_ok (users demo_world)
  ∧ @verify_password (demo_externals false) "hunter2" (user_pwhash demo_bob) = true
  ∧ @authorized (demo_externals false) "bob" "hunter2" demo_world = (Return false, demo_world)
  ∧ @authorized (demo_externals false) "carol" "x" demo_world = (Return false, demo_world).
Proof.
  destruct (@authorized_negative_role_or_unknown (demo_externals false)
              demo_world "bob" "hunter2" demo_world_ok) as [Hneg _].
  destruct (@authorized_negative_role_or_unknown (demo_externals false)
              demo_world "carol" "x" demo_world_ok) as [_ Hunknown].
  split_and!.
  - exact demo_world_ok.
  - reflexivity.
  - apply (Hneg demo_bob); [repeat constructor | reflexivity | reflexivity].
  - apply Hunknown. apply (bool_decide_unpack _). vm_compute. exact I.
Defined.

Lemma reset_token_single_use_witness :
  @UserResetPasswordResource_post (demo_externals false) demo_reset_request "new"
     demo_world_changed
  = (Raise (HTTPException 409), demo_world_changed)
  ∧ @UserResetPasswordResource_post (demo_externals false) demo_reset_request "new"
      demo_world
    = (Return (Text EmptyString, 201%Z),
       mkWorld [mkUser "guid-a" "alice" (Some "alice@example.org") (Some "Alice")
                  "new#" 4 (Some "t1"); demo_bob] [] [] 1).
Proof.
  destruct (@reset_token_single_use (demo_externals false)
              demo_world demo_alice "alice@example.org"
              demo_world_changed demo_alice_changed demo_reset_request "new")
    as (_ & _ & _ & Hchanged & _);
    [exact demo_world_ok | repeat constructor | discriminate | reflexivity
    | reflexivity | exact demo_world_changed_ok | repeat constructor
    | reflexivity | discriminate |].
  destruct (@reset_token_single_use (demo_externals false)
              demo_world demo_alice "alice@example.org"
              demo_world demo_alice demo_reset_request "new")
    as (_ & _ & _ & _ & Hsame);
    [exact demo_world_ok | repeat constructor | discriminate | reflexivity
    | reflexivity | exact demo_world_ok | repeat constructor
    | reflexivity | discriminate |].
  split.
  - apply Hchanged. discriminate.
  - rewrite Hsame by reflexivity. reflexivity.
Defined.

(** C3 as stated fails for an empty new password: the request is aborted
    with 400 before the token is looked at, whether the stored hash still
    is the one of the token or not. *)
Lemma reset_empty_password_counterexample :
  user_pwhash demo_alice_changed ≠ user_pwhash demo_alice
  ∧ @UserResetPasswordResource_post (demo_externals false) demo_reset_request
       EmptyString demo_world_changed
    = (Raise (HTTPException 400), demo_world_changed)
  ∧ @UserResetPasswordResource_post (demo_externals false) demo_reset_request
       EmptyString demo_world
    = (Raise (HTTPException 400), demo_world).
Proof. split_and!; [discriminate | reflexivity | reflexivity]. Qed.

Lemma register_guard_witness :
  (@UserRegisterResource_post (demo_externals false) (demo_register_args "pw") "carol"
     demo_bob_only).1 = Raise (HTTPException 405)
  ∧ ∃ w', @UserRegisterResource_post (demo_externals false) (demo_register_args "pw")
            "carol" demo_world = (Return (Text EmptyString, 201), w')
          ∧ user_role <$> users w' = [4; -1; ROLE_UNCONFIRMED].
Proof.
  assert ("carol" ≠ "-") as Hname by discriminate.
  destruct (@register_guard (demo_externals false) demo_bob_only
              (demo_register_args "pw") "carol" Hname) as [Hnone _].
  destruct (@register_guard (demo_externals false) demo_world
              (demo_register_args "pw") "carol" Hname) as [_ Hsome].
  split.
  - rewrite Hnone; [reflexivity|].
    intros o Ho [Hrole _]. apply list_elem_of_singleton in Ho as ->. discriminate.
  - destruct (Hsome demo_alice) as (out & w' & row & Hpost & Husers & Hrole & _ & _ & _ & _ & Hout).
    + repeat constructor.
    + split; [reflexivity|]. by intros t [= <-].
    + discriminate.
    + discriminate.
    + apply (bool_decide_unpack _). vm_compute. exact I.
    + apply (bool_decide_unpack _). vm_compute. exact I.
    + apply (bool_decide_unpack _). vm_compute. exact I.
    + exists w'. rewrite Hpost, Hout by reflexivity. split; [reflexivity|].
      rewrite Husers, fmap_app. simpl. by rewrite Hrole.
Defined.

(** C4 as stated fails in two places: for the name "-" the answer is 404
    although no owner exists, and with an owner, a new name and a new
    e-mail address but an empty password the answer is 409 and no user is
    created. *)
Lemma register_counterexample :
  @get_number_users (Some "t1") (Some [ROLE_OWNER]) demo_bob_only = (Return 0%Z, demo_bob_only)
  ∧ @UserRegisterResource_post (demo_externals false) (demo_register_args "pw") "-"
      demo_bob_only
    = (Raise (HTTPException 404), demo_bob_only)
  ∧ @get_number_users (Some "t1") (Some [ROLE_OWNER]) demo_world = (Return 1%Z, demo_world)
  ∧ @UserRegisterResource_post (demo_externals false) (demo_register_args EmptyString)
      "carol" demo_world
    = (Raise (HTTPException 409), demo_world).
Proof. split_and!; vm_compute; reflexivity. Qed.

Lemma run_task_dispatch_witness :
  @run_task (demo_externals false) _ _ (@send_email_reset_password (demo_externals false))
     ("alice@example.org", reset_token demo_alice) demo_world
  = (Return (inr ()),
     @after_mail demo_world
       (@reset_mail (demo_externals false) "alice@example.org" (reset_token demo_alice)))
  ∧ @run_task (demo_externals true) _ _ (@send_email_reset_password (demo_externals true))
      ("alice@example.org", reset_token demo_alice) demo_world
    = (Return (inl (mkAsyncResult "task-")),
       @after_enqueue (demo_externals true) demo_world
         (send_email_reset_password_call "alice@example.org" (reset_token demo_alice)))
  ∧ make_task_response (mkAsyncResult "task-")
    = (Json (JObj [("task", JObj [("href", JStr "/api/tasks/task-");
                                   ("id", JStr "task-")])]), 202%Z).
Proof.
  destruct (@run_task_dispatch (demo_externals false) _ _
              (@send_email_reset_password (demo_externals false))
              ("alice@example.org", reset_token demo_alice) demo_world) as (Hoff & _ & _).
  destruct (@run_task_dispatch (demo_externals true) _ _
              (@send_email_reset_password (demo_externals true))
              ("alice@example.org", reset_token demo_alice) demo_world) as (_ & Hon & Hresp).
  split_and!.
  - rewrite Hoff by reflexivity. reflexivity.
  - rewrite Hon by reflexivity. reflexivity.
  - apply Hresp.
Defined.

Lemma add_user_rejects_witness :
  (∃ w', @add_user (demo_externals false) "alice" "pw" None None None None demo_world
         = (Raise (ValueError "Invalid or existing user"), w')
         ∧ users w' = users demo_world)
  ∧ (∃ w', @add_user (demo_externals false) "carol" "pw" None (Some "alice@example.org")
             None None demo_world
           = (Raise (ValueError "Invalid or existing user"), w')
           ∧ users w' = users demo_world)
  ∧ @add_user (demo_externals false) "carol" EmptyString None None None None demo_world
    = (Raise (ValueError "Password must not be empty"), demo_world)
  ∧ @add_user (demo_externals false) EmptyString "pw" None None None None demo_world
    = (Raise (ValueError "Username must not be empty"), demo_world).
Proof.
  destruct (@add_user_rejects (demo_externals false) demo_world
              "alice" "pw" None None None None) as [Hdup _].
  destruct (@add_user_rejects (demo_externals false) demo_world
              "carol" "pw" None (Some "alice@example.org") None None) as [Hmail _].
  destruct (@add_user_rejects (demo_externals false) demo_world
              "carol" EmptyString None None None None) as [_ Hpw].
  destruct (@add_user_rejects (demo_externals false) demo_world
              EmptyString "pw" None None None None) as [_ Hname].
  split_and!.
  - apply Hdup. left. repeat constructor.
  - apply Hmail. right. eexists. split; [reflexivity|]. repeat constructor.
  - apply Hpw. by right.
  - apply Hname. by left.
Defined.

Lemma fill_tree_effect_witness :
  ∃ w', @fill_tree "T" demo_untreed = (Return (), w')
    ∧ user_tree <$> users w' = [Some "T"; Some "T"; Some "old"]
    ∧ user_name <$> users w' = ["ann"; "ben"; "cat"].
Proof.
  destruct (fill_tree_effect demo_untreed "T") as (w' & Hrun & _ & _ & _ & _).
  exists w'. split; [exact Hrun|].
  vm_compute in Hrun. injection Hrun as <-. split; reflexivity.
Defined.

Lemma edit_unknown_user_witness :
  @UserResource_put (demo_externals false) (demo_caller perms_admin "t1")
     (mkPutArgs None (Some "Nobody") None) "nobody" demo_world
  = (Raise (TypeError not_a_class_msg), demo_world)
  ∧ @UserChangePasswordResource_post (demo_externals false) (demo_caller perms_admin "t1")
      (mkChangePasswordArgs "old" "new") "nobody" demo_world
    = (Raise (TypeError not_a_class_msg), demo_world).
Proof.
  apply (@edit_unknown_user (demo_externals false)).
  - discriminate.
  - apply (bool_decide_unpack _). vm_compute. exact I.
Defined.

Lemma demo_two_trees_ok : store_ok (users demo_two_trees).
Proof.
  split; apply (bool_decide_unpack _); vm_compute; exact I.
Defined.

Lemma get_tree_check_skipped_for_underscore_witness :
  @UserResource_get (demo_externals false)
     (demo_caller {[PERM_VIEW_OTHER_USER]} "t2") "alice" demo_two_trees
  = (Raise (HTTPException 403), demo_two_trees)
  ∧ @get_tree_id (demo_externals false) (users demo_two_trees) (user_id demo_underscore)
    = Return "t2"
  ∧ @UserResource_get (demo_externals false)
      (demo_caller {[PERM_VIEW_OTHER_USER]} "t1") "_" demo_two_trees
    = (Return (jsonify (_get_user_detail demo_underscore), 200%Z), demo_two_trees).
Proof.
  destruct (@get_tree_check_skipped_for_underscore (demo_externals false)
              (demo_caller {[PERM_VIEW_OTHER_USER]} "t2") demo_two_trees demo_alice)
    as [Hcheck _]; [exact demo_two_trees_ok | repeat constructor |].
  destruct (@get_tree_check_skipped_for_underscore (demo_externals false)
              (demo_caller {[PERM_VIEW_OTHER_USER]} "t1") demo_two_trees demo_underscore)
    as [_ Hskip]; [exact demo_two_trees_ok | repeat constructor |].
  split_and!.
  - apply (Hcheck "alice" "t1").
    + left. split; [discriminate | reflexivity].
    + discriminate.
    + apply (bool_decide_unpack _). vm_compute. exact I.
    + reflexivity.
    + discriminate.
  - reflexivity.
  - apply Hskip; [reflexivity|]. apply (bool_decide_unpack _). vm_compute. exact I.
Defined.

Lemma change_password_accepts_empty_witness :
  @UserChangePasswordResource_post (demo_externals false)
     (demo_caller {[PERM_EDIT_OWN_USER]} "t1")
     (mkChangePasswordArgs "secret" EmptyString) "-" demo_world
  = (Return (Text EmptyString, 201%Z),
     mkWorld [mkUser "guid-a" "alice" (Some "alice@example.org") (Some "Alice")
                (@hash_password_at (demo_externals false) 0 EmptyString) 4 (Some "t1");
              demo_bob] [] [] 1).
Proof.
  destruct (@change_password_accepts_empty (demo_externals false))
    as (_ & _ & _ & Hempty & _).
  rewrite (Hempty _ "secret" demo_world demo_alice).
  - reflexivity.
  - exact demo_world_ok.
  - repeat constructor.
  - reflexivity.
  - apply (bool_decide_unpack _). vm_compute. exact I.
  - discriminate.
  - reflexivity.
Defined.

End examples.

(** * Further properties of the code *)

Local Open Scope list_scope.

(** ** Lists of rows *)

Lemma filter_all {A} (P : A → Prop) `{∀ x, Decision (P x)} (l : list A) :
  (∀ x, x ∈ l → P x) → filter P l = l.
Proof.
  induction l as [|a l IH]; intros Hall; [reflexivity|].
  rewrite filter_cons_True by (apply Hall; constructor).
  f_equal. apply IH. intros x Hx. apply Hall. by constructor.
Qed.

Lemma NoDup_middle {A} (l1 l2 : list A) x :
  NoDup (l1 ++ x :: l2) ↔ (x ∉ l1 ++ l2) ∧ NoDup (l1 ++ l2).
Proof. rewrite <- Permutation_middle. apply NoDup_cons. Qed.

(** A row of a table with unique ids splits the table into the rows
    before and after it, none of which has its id. *)
Lemma rows_split (rows : list User) u :
  NoDup (user_id <$> rows) → u ∈ rows →
  ∃ l1 l2, rows = l1 ++ u :: l2 ∧ ∀ r, r ∈ l1 ++ l2 → user_id r ≠ user_id u.
Proof.
  intros Hnd Hin. apply list_elem_of_split in Hin as (l1 & l2 & ->).
  exists l1, l2. split; [done|].
  rewrite fmap_app, fmap_cons in Hnd. apply NoDup_middle in Hnd as [Hu _].
  intros r Hr Heq. apply Hu. rewrite <- fmap_app, <- Heq.
  by apply list_elem_of_fmap_2.
Qed.

Lemma others_split (l1 l2 : list User) u :
  (∀ r, r ∈ l1 ++ l2 → user_id r ≠ user_id u) →
  filter (λ r, user_id r ≠ user_id u) (l1 ++ u :: l2) = l1 ++ l2.
Proof.
  intros Hne. rewrite filter_app, filter_cons_False by (by intros []).
  rewrite !filter_all; [done|..]; intros r Hr; apply Hne, elem_of_app; auto.
Qed.

Lemma replace_split (l1 l2 : list User) u u' :
  (∀ r, r ∈ l1 ++ l2 → user_id r ≠ user_id u) →
  replace_row u u' (l1 ++ u :: l2) = l1 ++ u' :: l2.
Proof.
  intros Hne. unfold replace_row. rewrite fmap_app, fmap_cons.
  rewrite bool_decide_eq_true_2 by done.
  assert (∀ l : list User, (∀ r, r ∈ l → user_id r ≠ user_id u) →
            (λ r, if bool_decide (user_id r = user_id u) then u' else r) <$> l = l)
    as Hid.
  { intros l Hl. induction l as [|a l IH]; [done|].
    rewrite fmap_cons, bool_decide_eq_false_2 by (apply Hl; constructor).
    f_equal. apply IH. intros r Hr. apply Hl. by constructor. }
  rewrite !Hid; [done|..]; intros r Hr; apply Hne, elem_of_app; auto.
Qed.


(** ** auth/__init__.py: lookups and round trips *)

Section auth_round_trips.
Context `{Externals}.
Import Const Auth.

(** X1: for a stored user, looking up the id by name and then the name by
    that id gives the name back, and the other way round; a name or an id
    that no row has raises [ValueError] and changes nothing. *)
Theorem guid_name_round_trip w u :
  store_ok (users w) → u ∈ users w →
  (get_guid (user_name u) ≫= get_name) w = (Return (user_name u), w)
  ∧ (get_name (user_id u) ≫= get_guid) w = (Return (user_id u), w)
  ∧ (∀ name, name ∉ user_name <$> users w →
       ∃ msg, get_guid name w = (Raise (ValueError msg), w))
  ∧ (∀ guid, guid ∉ user_id <$> users w →
       ∃ msg, get_name guid w = (Raise (ValueError msg), w)).
Proof.
  intros Hok Hin. split_and!.
  - erewrite bind_Return by by apply get_guid_found. by apply get_name_found.
  - erewrite bind_Return by by apply get_name_found. by apply get_guid_found.
  - intros name Hno. eexists. by apply get_guid_missing.
  - intros guid Hno. eexists. by apply get_name_missing.
Qed.


End auth_round_trips.

(** ** auth/const.py and get_permissions: the tiers of the table *)

Section permission_tiers.
Context `{Externals}.
Import Const Auth.

Lemma PERMISSIONS_entries r s :
  PERMISSIONS !! r = Some s →
  (r = ROLE_GUEST ∧ s = perms_guest) ∨ (r = ROLE_MEMBER ∧ s = perms_member)
  ∨ (r = ROLE_CONTRIBUTOR ∧ s = perms_contributor)
  ∨ (r = ROLE_EDITOR ∧ s = perms_editor) ∨ (r = ROLE_OWNER ∧ s = perms_owner)
  ∨ (r = ROLE_ADMIN ∧ s = perms_admin).
Proof.
  rewrite PERMISSIONS_eq. unfold perms_table.
  generalize perms_guest perms_member perms_contributor perms_editor
             perms_owner perms_admin.
  intros s0 s1 s2 s3 s4 s5. rewrite !lookup_insert, lookup_empty.
  repeat case_decide; intros [= <-]; subst; auto 10.
Qed.

Lemma PERMISSIONS_login r :
  r ∈ login_roles ↔ is_Some (PERMISSIONS !! r).
Proof.
  split.
  - unfold login_roles. rewrite !elem_of_cons, elem_of_nil.
    intros [->|[->|[->|[->|[->|[->|[]]]]]]]; eexists;
      [apply PERMISSIONS_guest | apply PERMISSIONS_member
      | apply PERMISSIONS_contributor | apply PERMISSIONS_editor
      | apply PERMISSIONS_owner | apply PERMISSIONS_admin].
  - intros [s Hs]. unfold login_roles. rewrite !elem_of_cons.
    destruct (PERMISSIONS_entries r s Hs)
      as [[-> _]|[[-> _]|[[-> _]|[[-> _]|[[-> _]|[-> _]]]]]]; auto 10.
Qed.

Lemma tiers_computed :
  tier_ok ROLE_GUEST perms_guest = true ∧ tier_ok ROLE_MEMBER perms_member = true
  ∧ tier_ok ROLE_CONTRIBUTOR perms_contributor = true
  ∧ tier_ok ROLE_EDITOR perms_editor = true ∧ tier_ok ROLE_OWNER perms_owner = true
  ∧ tier_ok ROLE_ADMIN perms_admin = true.
Proof. split_and!; vm_compute; reflexivity. Qed.

Lemma tier_ok_spec r s p l :
  tier_ok r s = true →
  ((p, l) ∈ grant_levels → (p ∈ s ↔ (l ≤ r)%Z))
  ∧ (p ∈ s → ∃ l', (p, l') ∈ grant_levels).
Proof.
  unfold tier_ok. rewrite andb_true_iff, forallb_forall, bool_decide_eq_true.
  intros [Hall Hsub]. split.
  - intros Hin. apply list_elem_of_In in Hin. specialize (Hall _ Hin). simpl in Hall.
    apply Bool.eqb_prop in Hall.
    rewrite <- (bool_decide_eq_true (p ∈ s)), Hall. apply bool_decide_eq_true.
  - intros Hp. apply Hsub in Hp. apply elem_of_list_to_set in Hp.
    apply list_elem_of_fmap in Hp as ([p' l'] & -> & Hin). by exists l'.
Qed.

Lemma permission_level r s p l :
  PERMISSIONS !! r = Some s → (p, l) ∈ grant_levels → (p ∈ s ↔ (l ≤ r)%Z).
Proof.
  intros Hs. destruct tiers_computed as (T0 & T1 & T2 & T3 & T4 & T5).
  assert (tier_ok r s = true) as Hok.
  { destruct (PERMISSIONS_entries r s Hs)
      as [[-> ->]|[[-> ->]|[[-> ->]|[[-> ->]|[[-> ->]|[-> ->]]]]]]; assumption. }
  by apply tier_ok_spec.
Qed.

Lemma permission_listed r s p :
  PERMISSIONS !! r = Some s → p ∈ s → ∃ l, (p, l) ∈ grant_levels.
Proof.
  intros Hs. destruct tiers_computed as (T0 & T1 & T2 & T3 & T4 & T5).
  assert (tier_ok r s = true) as Hok.
  { destruct (PERMISSIONS_entries r s Hs)
      as [[-> ->]|[[-> ->]|[[-> ->]|[[-> ->]|[[-> ->]|[-> ->]]]]]]; assumption. }
  apply (tier_ok_spec r s p 0 Hok).
Qed.

(** X3: every permission is held from one role upwards: a role has a
    permission of [const.py] exactly when the role is at least the
    permission's level (own-user editing from guest on, user management
    from owner on, the multi-tree, admin-making and settings permissions
    for the admin only), and no role holds anything else. *)
Theorem permission_tiers r s :
  PERMISSIONS !! r = Some s →
  (∀ p l, (p, l) ∈ grant_levels → (p ∈ s ↔ (l ≤ r)%Z))
  ∧ (∀ p, p ∈ s → ∃ l, (p, l) ∈ grant_levels ∧ (l ≤ r)%Z).
Proof.
  intros Hs. split.
  - intros p l. by apply permission_level.
  - intros p Hp. destruct (permission_listed r s p Hs Hp) as [l Hin].
    exists l. split; [done|]. by apply (permission_level r s p l Hs).
Qed.

Lemma guest_permission_everywhere r s :
  PERMISSIONS !! r = Some s → PERM_EDIT_OWN_USER ∈ s.
Proof.
  intros Hs. destruct tiers_computed as (T0 & T1 & T2 & T3 & T4 & T5).
  assert (tier_ok r s = true) as Hok.
  { destruct (PERMISSIONS_entries r s Hs)
      as [[-> ->]|[[-> ->]|[[-> ->]|[[-> ->]|[[-> ->]|[-> ->]]]]]]; assumption. }
  apply (tier_ok_spec r s PERM_EDIT_OWN_USER ROLE_GUEST Hok); [by constructor|].
  destruct (PERMISSIONS_entries r s Hs)
    as [[-> _]|[[-> _]|[[-> _]|[[-> _]|[[-> _]|[-> _]]]]]]; by compute.
Qed.

(** X4: [get_permissions] of a stored user returns the entry of the
    user's role, which always allows editing the own user, when the role
    is one of the six login roles; for any other role, in particular the
    negative roles of disabled and unconfirmed users, the lookup in
    [PERMISSIONS] raises [KeyError]; for an unknown name the query raises
    [NoResultFound]. *)
Theorem get_permissions_by_role w u :
  store_ok (users w) → u ∈ users w →
  (user_role u ∈ login_roles →
     ∃ s, get_permissions (user_name u) w = (Return s, w)
          ∧ PERMISSIONS !! user_role u = Some s ∧ PERM_EDIT_OWN_USER ∈ s)
  ∧ (user_role u ∉ login_roles →
     get_permissions (user_name u) w = (Raise (KeyError (PyInt (user_role u))), w))
  ∧ (∀ name, name ∉ user_name <$> users w →
     get_permissions name w = (Raise NoResultFound, w)).
Proof.
  intros Hok Hin.
  assert (get_permissions (user_name u) w
          = match PERMISSIONS !! user_role u with
            | Some s => (Return s, w)
            | None => (Raise (KeyError (PyInt (user_role u))), w)
            end) as Hrun.
  { unfold get_permissions, mbind, M_bind, query, mret, M_ret. simpl.
    rewrite scalar_by_name_found by done. simpl.
    by destruct (PERMISSIONS !! user_role u). }
  split_and!.
  - intros Hlogin. apply PERMISSIONS_login in Hlogin as [s Hs].
    exists s. rewrite Hrun, Hs. split_and!; [done..|].
    exact (guest_permission_everywhere _ _ Hs).
  - intros Hno. rewrite Hrun.
    destruct (PERMISSIONS !! user_role u) as [s|] eqn:Hs; [|done].
    exfalso. apply Hno, PERMISSIONS_login. eauto.
  - intros name Hno. unfold get_permissions, mbind, M_bind, query. simpl.
    by rewrite by_name_missing.
Qed.

End permission_tiers.

(** ** auth/__init__.py: deleting and modifying users *)

Section auth_writers.
Context `{Externals}.
Import Const Auth.

Lemma email_listed (rows : list User) e :
  e ∈ omap user_email rows ↔ Some e ∈ user_email <$> rows.
Proof.
  rewrite list_elem_of_omap, list_elem_of_fmap. split.
  - intros (r & Hr & He). by exists r.
  - intros (r & He & Hr). by exists r.
Qed.

Lemma store_ok_remove (l1 l2 : list User) u :
  store_ok (l1 ++ u :: l2) → store_ok (l1 ++ l2).
Proof.
  intros [Hi Hn He]. split.
  - rewrite fmap_app, fmap_cons in Hi. apply NoDup_middle in Hi as [_ Hi].
    by rewrite fmap_app.
  - rewrite fmap_app, fmap_cons in Hn. apply NoDup_middle in Hn as [_ Hn].
    by rewrite fmap_app.
  - rewrite omap_app in He. rewrite omap_app. simpl in He.
    destruct (user_email u); [|done]. by apply NoDup_middle in He as [_ He].
Qed.

Lemma store_ok_replace (l1 l2 : list User) u u' :
  store_ok (l1 ++ u :: l2) → user_id u' = user_id u →
  user_name u' ∉ user_name <$> l1 ++ l2 →
  (∀ e, user_email u' = Some e → Some e ∉ user_email <$> l1 ++ l2) →
  store_ok (l1 ++ u' :: l2).
Proof.
  intros Hok Hid Hname Hmail. pose proof (store_ok_remove _ _ _ Hok) as [Hi' Hn' He'].
  destruct Hok as [Hi _ _]. split.
  - rewrite fmap_app, fmap_cons, Hid. by rewrite fmap_app, fmap_cons in Hi.
  - rewrite fmap_app, fmap_cons. apply NoDup_middle.
    rewrite <- fmap_app. done.
  - rewrite omap_app. simpl. rewrite omap_app in He'.
    destruct (user_email u') as [e|] eqn:Hu'; [|done].
    apply NoDup_middle. split; [|done].
    rewrite <- omap_app, email_listed. by apply Hmail.
Qed.

Lemma delete_user_found w u :
  store_ok (users w) → u ∈ users w →
  delete_user (user_name u) w
  = (Return (), set_users w (other_rows u (users w))).
Proof.
  intros Hok Hin. unfold delete_user, mbind, M_bind, query. simpl.
  by rewrite scalar_by_name_found.
Qed.

Lemma delete_user_missing w name :
  name ∉ user_name <$> users w →
  delete_user name w = (Raise (ValueError ("User " +:+ name +:+ " not found")), w).
Proof.
  intros Hno. unfold delete_user, mbind, M_bind, query. simpl.
  by rewrite by_name_missing.
Qed.

Lemma other_rows_elem rows u r :
  store_ok rows → u ∈ rows → r ∈ other_rows u rows ↔ r ∈ rows ∧ r ≠ u.
Proof.
  intros [Hi _ _] Hin. unfold other_rows. rewrite list_elem_of_filter. split.
  - intros [Hne Hr]. split; [done|]. by intros ->.
  - intros [Hr Hne]. split; [|done]. intros Heq. apply Hne.
    by apply (key_inj user_id rows).
Qed.

Lemma other_rows_ok rows u :
  store_ok rows → u ∈ rows → store_ok (other_rows u rows).
Proof.
  intros Hok Hin. destruct (rows_split rows u) as (l1 & l2 & -> & Hne);
    [by destruct Hok | done |].
  unfold other_rows. rewrite others_split by done. by eapply store_ok_remove.
Qed.

Lemma other_rows_no_name rows u :
  store_ok rows → u ∈ rows → user_name u ∉ user_name <$> other_rows u rows.
Proof. apply others_name. Qed.

(** X5: [delete_user] removes exactly the row of the named user: every
    other row stays, the constraints still hold, and afterwards the name
    is unknown to [get_guid] and to [authorized], and deleting it again
    raises [ValueError]; deleting a name that no row has raises
    [ValueError] and changes nothing. *)
Theorem delete_user_effect w u :
  store_ok (users w) → u ∈ users w →
  (∃ w', delete_user (user_name u) w = (Return (), w')
     ∧ same_but_users 0 w w'
     ∧ (∀ r, r ∈ users w' ↔ r ∈ users w ∧ r ≠ u)
     ∧ store_ok (users w')
     ∧ (∃ msg, get_guid (user_name u) w' = (Raise (ValueError msg), w'))
     ∧ (∀ p, authorized (user_name u) p w' = (Return false, w'))
     ∧ (∃ msg, delete_user (user_name u) w' = (Raise (ValueError msg), w')))
  ∧ (∀ name, name ∉ user_name <$> users w →
       ∃ msg, delete_user name w = (Raise (ValueError msg), w)).
Proof.
  intros Hok Hin. split.
  - eexists. split; [by apply delete_user_found|].
    pose proof (other_rows_no_name _ _ Hok Hin) as Hgone.
    split_and!.
    + done.
    + intros r. by apply other_rows_elem.
    + by apply other_rows_ok.
    + eexists. by apply get_guid_missing.
    + intros p. by apply authorized_missing.
    + eexists. by apply delete_user_missing.
  - intros name Hno. eexists. by apply delete_user_missing.
Qed.

(** Whether the UPDATE of [u] into [new] violates a unique constraint. *)
Lemma update_check rows u new :
  (bool_decide (user_name new ∈ user_name <$> other_rows u rows)
   || match user_email new with
      | Some e => bool_decide (Some e ∈ user_email <$> other_rows u rows)
      | None => false
      end) = false
  ↔ (user_name new ∉ user_name <$> other_rows u rows)
    ∧ (∀ e, user_email new = Some e → Some e ∉ user_email <$> other_rows u rows).
Proof.
  rewrite orb_false_iff, bool_decide_eq_false.
  destruct (user_email new) as [e|].
  - rewrite bool_decide_eq_false. split.
    + intros [? ?]. split; [done|]. by intros ? [= <-].
    + intros [? He]. split; [done|]. by apply He.
  - split; [intros [? _]|intros [? _]]; by split.
Qed.

Lemma modify_user_found w u name_new password fullname email role tree :
  store_ok (users w) → u ∈ users w →
  ∃ w1, users w1 = users w ∧ same_but_users (password_draws password) w w1
    ∧ modify_user (user_name u) name_new password fullname email role tree w
      = let new := modified_row w u name_new password fullname email role tree in
        if bool_decide (user_name new ∈ user_name <$> other_rows u (users w))
           || match user_email new with
              | Some e => bool_decide (Some e ∈ user_email <$> other_rows u (users w))
              | None => false
              end
        then (Raise IntegrityError, w1)
        else (Return (), set_users w1 (replace_row u new (users w))).
Proof.
  intros Hok Hin.
  destruct password as [p|].
  - exists (after_draws 1 w). split; [done|]. split; [done|].
    unfold modify_user, mbind, M_bind, query, mret, M_ret. simpl.
    rewrite scalar_by_name_found by done. simpl.
    unfold session_update_commit, modified_row, other_rows, replace_row. simpl.
    by destruct (_ || _).
  - exists w. split; [done|]. split; [done|].
    unfold modify_user, mbind, M_bind, query, mret, M_ret. simpl.
    rewrite scalar_by_name_found by done. simpl.
    unfold session_update_commit, modified_row, other_rows, replace_row. simpl.
    by destruct (_ || _).
Qed.

Lemma modify_user_missing w name name_new password fullname email role tree :
  name ∉ user_name <$> users w →
  modify_user name name_new password fullname email role tree w
  = (Raise NoResultFound, w).
Proof.
  intros Hno. unfold modify_user, mbind, M_bind, query. simpl.
  by rewrite by_name_missing.
Qed.

Lemma replace_row_ok rows u new :
  store_ok rows → u ∈ rows → user_id new = user_id u →
  user_name new ∉ user_name <$> other_rows u rows →
  (∀ e, user_email new = Some e → Some e ∉ user_email <$> other_rows u rows) →
  store_ok (replace_row u new rows)
  ∧ length (replace_row u new rows) = length rows
  ∧ new ∈ replace_row u new rows
  ∧ (∀ r, r ∈ replace_row u new rows ↔ r = new ∨ (r ∈ rows ∧ r ≠ u)).
Proof.
  intros Hok Hin Hid Hname Hmail.
  pose proof (other_rows_elem rows u) as Hothers.
  destruct (rows_split rows u) as (l1 & l2 & -> & Hne);
    [by destruct Hok | done |].
  unfold other_rows in *. rewrite others_split in * by done.
  rewrite replace_split by done. split_and!.
  - by apply (store_ok_replace l1 l2 u).
  - by rewrite !length_app.
  - apply elem_of_app. right. by constructor.
  - intros r. rewrite <- (Hothers r Hok Hin).
    rewrite !elem_of_app, elem_of_cons. tauto.
Qed.


(** X7: [modify_user] does not turn its failures into [ValueError]: for
    a name that no row has it raises [NoResultFound], and when the new
    name or the new e-mail address is the one of another user it raises
    [IntegrityError]; in each case the table is left as it was. *)
Theorem modify_user_failures w u other name_new password fullname email role tree :
  store_ok (users w) → u ∈ users w → other ∈ users w → other ≠ u →
  (∀ name, name ∉ user_name <$> users w →
     modify_user name name_new password fullname email role tree w
     = (Raise NoResultFound, w))
  ∧ (name_new = Some (user_name other)
     ∨ (∃ e, email = Some e ∧ user_email other = Some e) →
     ∃ w', modify_user (user_name u) name_new password fullname email role tree w
           = (Raise IntegrityError, w')
           ∧ users w' = users w).
Proof.
  intros Hok Hin Ho Hne. split.
  - intros name Hno. by apply modify_user_missing.
  - intros Hclash.
    destruct (modify_user_found w u name_new password fullname email role tree Hok Hin)
      as (w1 & Husers & Hsame & Hrun).
    exists w1. split; [|done]. rewrite Hrun. simpl.
    assert (other ∈ other_rows u (users w)) as Hother
      by by apply other_rows_elem.
    destruct Hclash as [->|(e & -> & He)]; simpl.
    + rewrite (bool_decide_eq_true_2 (user_name other ∈ _)); [done|].
      by apply list_elem_of_fmap_2.
    + rewrite (bool_decide_eq_true_2 (Some e ∈ _)); [by rewrite orb_true_r|].
      rewrite <- He. by apply list_elem_of_fmap_2.
Qed.

Lemma modify_user_store_ok w name name_new password fullname email role tree :
  store_ok (users w) →
  store_ok (users (modify_user name name_new password fullname email role tree w).2).
Proof.
  intros Hok. destruct (decide (name ∈ user_name <$> users w)) as [Hin|Hno].
  - apply list_elem_of_fmap in Hin as (u & -> & Hin).
    destruct (modify_user_found w u name_new password fullname email role tree Hok Hin)
      as (w1 & Husers & Hsame & ->).
    cbv zeta.
    set (new := modified_row w u name_new password fullname email role tree).
    destruct (_ || _) eqn:Hcheck; simpl; [by rewrite Husers|].
    apply update_check in Hcheck as [Hn He].
    by apply replace_row_ok.
  - by rewrite modify_user_missing.
Qed.

Lemma delete_user_store_ok w name :
  store_ok (users w) → store_ok (users (delete_user name w).2).
Proof.
  intros Hok. destruct (decide (name ∈ user_name <$> users w)) as [Hin|Hno].
  - apply list_elem_of_fmap in Hin as (u & -> & Hin).
    rewrite delete_user_found by done. by apply other_rows_ok.
  - by rewrite delete_user_missing.
Qed.

(** X8: every function of the module that writes the table keeps the
    constraints of the schema: after [add_user], [modify_user],
    [delete_user] or [fill_tree], whatever their arguments and whether
    they succeed or raise, ids and names are still unique and so are the
    e-mail addresses that are not NULL. *)
Theorem writers_keep_constraints w :
  store_ok (users w) →
  (∀ name password fullname email role tree,
     store_ok (users (add_user name password fullname email role tree w).2))
  ∧ (∀ name name_new password fullname email role tree,
     store_ok (users (modify_user name name_new password fullname email role tree w).2))
  ∧ (∀ name, store_ok (users (delete_user name w).2))
  ∧ (∀ tree, store_ok (users (fill_tree tree w).2)).
Proof.
  intros Hok. split_and!; intros.
  - by apply add_user_store_ok.
  - by apply modify_user_store_ok.
  - by apply delete_user_store_ok.
  - by apply fill_tree_store_ok.
Qed.

Lemma fill_tree_rows w tree :
  fill_tree tree w
  = (Return (),
     set_users w ((λ u, if bool_decide (coalesce (user_tree u) EmptyString = EmptyString)
                        then set_tree u (Some tree) else u) <$> users w)).
Proof. reflexivity. Qed.

(** X9: [fill_tree] is a backfill that works once: running it a second
    time with the same tree changes nothing, and after a backfill with a
    tree that is not the empty string no user is left without a tree, so
    a later backfill with any tree changes nothing either. *)
Theorem fill_tree_once w tree :
  (fill_tree tree ≫= λ _, fill_tree tree) w = fill_tree tree w
  ∧ (tree ≠ EmptyString →
     (∀ u, u ∈ users (fill_tree tree w).2 →
           user_tree u ≠ None ∧ user_tree u ≠ Some EmptyString)
     ∧ ∀ t, (fill_tree tree ≫= λ _, fill_tree t) w = fill_tree tree w).
Proof.
  split.
  - erewrite bind_Return by apply fill_tree_rows. rewrite !fill_tree_rows.
    unfold set_users. simpl. do 2 f_equal.
    rewrite <- list_fmap_compose. apply list_fmap_ext. intros _ u _. simpl.
    destruct (bool_decide (coalesce (user_tree u) EmptyString = EmptyString)) eqn:Hc; [|by rewrite Hc].
    simpl. by destruct (bool_decide (tree = EmptyString)).
  - intros Htree.
    assert (∀ u, coalesce (user_tree
              (if bool_decide (coalesce (user_tree u) EmptyString = EmptyString)
               then set_tree u (Some tree) else u)) EmptyString ≠ EmptyString) as Hfilled.
    { intros u. destruct (bool_decide (coalesce (user_tree u) EmptyString = EmptyString)) eqn:Hc; [done|].
      by apply bool_decide_eq_false in Hc. }
    split.
    + intros u. rewrite fill_tree_rows. simpl.
      intros (u0 & -> & _)%list_elem_of_fmap. specialize (Hfilled u0).
      destruct (user_tree
                  (if bool_decide (coalesce (user_tree u0) EmptyString = EmptyString)
                   then set_tree u0 (Some tree) else u0)) as [t|]; [|done].
      split; [done|]. by intros [= ->].
    + intros t. erewrite bind_Return by apply fill_tree_rows. rewrite !fill_tree_rows.
      unfold set_users. simpl. do 2 f_equal.
      rewrite <- list_fmap_compose. apply list_fmap_ext. intros _ u _. simpl.
      by rewrite bool_decide_eq_false_2 by apply Hfilled.
Qed.

(** X10: [get_all_user_details] for a tree that is not the empty string
    lists exactly the users of that tree together with the users without
    tree; for the empty string, as for [None], it lists every user. *)
Theorem get_all_user_details_by_tree w tree :
  (tree ≠ EmptyString →
     ∃ ds, get_all_user_details (Some tree) w = (Return ds, w)
       ∧ ∀ d, d ∈ ds ↔ ∃ u, u ∈ users w ∧ d = _get_user_detail u
                            ∧ (user_tree u = Some tree ∨ user_tree u = None))
  ∧ get_all_user_details (Some EmptyString) w = get_all_user_details None w
  ∧ ∃ ds, get_all_user_details None w = (Return ds, w)
      ∧ ∀ d, d ∈ ds ↔ ∃ u, u ∈ users w ∧ d = _get_user_detail u.
Proof.
  split_and!.
  - intros Htree. eexists. split.
    { unfold get_all_user_details, mbind, M_bind, query, mret, M_ret. simpl.
      by rewrite bool_decide_eq_true_2. }
    intros d. rewrite list_elem_of_fmap. split.
    + intros (u & -> & Hu). apply list_elem_of_filter in Hu as [Ht Hu]. eauto.
    + intros (u & Hu & -> & Ht). exists u. split; [done|].
      by apply list_elem_of_filter.
  - reflexivity.
  - eexists. split; [reflexivity|]. intros d. rewrite list_elem_of_fmap.
    split; intros (u & ? & ?); eauto.
Qed.

End auth_writers.

(** ** auth/__init__.py: the configuration table *)

Section generic_keys.
Context {A B : Type} `{EqDecision B} (f : A → B).

Lemma filter_by_none (rows : list A) x :
  x ∉ f <$> rows → filter (λ r, f r = x) rows = [].
Proof.
  intros Hx. apply filter_none. intros r Hr Heq. apply Hx. rewrite <- Heq.
  by apply list_elem_of_fmap_2.
Qed.

Lemma filter_by_unique (rows : list A) u :
  NoDup (f <$> rows) → u ∈ rows → filter (λ r, f r = f u) rows = [u].
Proof.
  induction rows as [|a rows IH]; intros Hnd Hin.
  - by apply elem_of_nil in Hin.
  - rewrite fmap_cons, NoDup_cons in Hnd. destruct Hnd as [Ha Hnd].
    apply elem_of_cons in Hin as [->|Hin].
    + rewrite filter_cons_True by reflexivity. by rewrite filter_by_none.
    + rewrite filter_cons_False; [by apply IH|].
      intros Heq. apply Ha. rewrite Heq. by apply list_elem_of_fmap_2.
Qed.

Lemma by_key_inj (rows : list A) x y :
  NoDup (f <$> rows) → x ∈ rows → y ∈ rows → f x = f y → x = y.
Proof.
  intros Hnd Hx Hy Heq.
  assert (x ∈ filter (λ r, f r = f y) rows) as Hmem by by apply list_elem_of_filter.
  rewrite filter_by_unique in Hmem by done. by apply list_elem_of_singleton in Hmem.
Qed.

Lemma filter_fmap_stable (g : A → A) (rows : list A) x :
  (∀ r, f (g r) = f r) →
  filter (λ r, f r = x) (g <$> rows) = g <$> filter (λ r, f r = x) rows.
Proof.
  intros Hg. induction rows as [|a rows IH]; [done|].
  rewrite fmap_cons. destruct (decide (f a = x)) as [Ha|Ha].
  - rewrite !filter_cons_True by (by rewrite ?Hg). by rewrite fmap_cons, IH.
  - rewrite !filter_cons_False by (by rewrite ?Hg). done.
Qed.
End generic_keys.

Section config_facts.
Context `{Settings}.
Import ConfigStore.

Lemma next_id_fresh rows : next_id rows ∉ config_id <$> rows.
Proof.
  assert (∀ c, c ∈ rows →
            (config_id c ≤ foldr (λ c m, Z.max (config_id c) m) 0 rows)%Z) as Hmax.
  { induction rows as [|a rows IH]; intros c Hc; [by apply elem_of_nil in Hc|].
    simpl. apply elem_of_cons in Hc as [->|Hc]; [lia|]. specialize (IH c Hc). lia. }
  intros Hin. apply list_elem_of_fmap in Hin as (c & Heq & Hc).
  specialize (Hmax c Hc). unfold next_id in Heq. lia.
Qed.

Lemma config_get_found t c :
  config_ok t → c ∈ t → config_get (config_key c) t = (Return (config_value c), t).
Proof.
  intros [_ Hk] Hc. unfold config_get, mbind, MC_bind, query_c, filter_by_key. simpl.
  by rewrite (filter_by_unique config_key).
Qed.

Lemma config_get_missing t key :
  key ∉ config_key <$> t → config_get key t = (Return None, t).
Proof.
  intros Hno. unfold config_get, mbind, MC_bind, query_c, filter_by_key. simpl.
  by rewrite (filter_by_none config_key).
Qed.

Lemma config_get_cases t key :
  config_ok t →
  config_get key t
  = (Return (mjoin (config_value <$> head (filter_by_key key t))), t).
Proof.
  intros Hok. destruct (decide (key ∈ config_key <$> t)) as [Hin|Hno].
  - apply list_elem_of_fmap in Hin as (c & -> & Hc).
    rewrite config_get_found by done. unfold filter_by_key.
    destruct Hok as [_ Hk]. by rewrite (filter_by_unique config_key).
  - rewrite config_get_missing by done. unfold filter_by_key.
    by rewrite (filter_by_none config_key).
Qed.

Lemma config_set_refused t key value :
  key ∉ DB_CONFIG_ALLOWED_KEYS →
  config_set key value t = (Raise (ValueError "Config key not allowed."), t).
Proof. intros Hno. unfold config_set. by rewrite bool_decide_eq_true_2. Qed.

Lemma config_set_new t key value :
  key ∈ DB_CONFIG_ALLOWED_KEYS → key ∉ config_key <$> t →
  config_set key value t
  = (Return (), t ++ [mkConfig (next_id t) key (Some value)]).
Proof.
  intros Hok Hno. unfold config_set.
  rewrite bool_decide_eq_false_2 by (by intros []).
  unfold mbind, MC_bind, query_c, filter_by_key. simpl.
  rewrite (filter_by_none config_key) by done. simpl.
  unfold insert_config. by rewrite bool_decide_eq_false_2.
Qed.

Lemma config_set_existing t c value :
  config_ok t → c ∈ t → config_key c ∈ DB_CONFIG_ALLOWED_KEYS →
  config_set (config_key c) value t
  = (Return (),
     (λ r, if bool_decide (config_id r = config_id c)
           then with_value r (Some value) else r) <$> t).
Proof.
  intros [_ Hk] Hc Hok. unfold config_set.
  rewrite bool_decide_eq_false_2 by (by intros []).
  unfold mbind, MC_bind, query_c, filter_by_key. simpl.
  by rewrite (filter_by_unique config_key).
Qed.

Lemma rewritten_ok t c value :
  config_ok t →
  config_ok ((λ r, if bool_decide (config_id r = config_id c)
                   then with_value r value else r) <$> t)
  ∧ config_key <$> ((λ r, if bool_decide (config_id r = config_id c)
                          then with_value r value else r) <$> t)
    = config_key <$> t.
Proof.
  intros [Hi Hk].
  assert (config_id <$> ((λ r, if bool_decide (config_id r = config_id c)
                               then with_value r value else r) <$> t)
          = config_id <$> t) as Hids.
  { rewrite <- list_fmap_compose. apply list_fmap_ext. intros _ r _. simpl.
    by destruct (bool_decide _). }
  assert (config_key <$> ((λ r, if bool_decide (config_id r = config_id c)
                                then with_value r value else r) <$> t)
          = config_key <$> t) as Hkeys.
  { rewrite <- list_fmap_compose. apply list_fmap_ext. intros _ r _. simpl.
    by destruct (bool_decide _). }
  split; [|done]. split; by rewrite ?Hids, ?Hkeys.
Qed.

Lemma rewritten_get t c value k :
  config_ok t → c ∈ t →
  config_get k ((λ r, if bool_decide (config_id r = config_id c)
                      then with_value r value else r) <$> t)
  = (Return (if bool_decide (k = config_key c) then value
             else mjoin (config_value <$> head (filter_by_key k t))),
     (λ r, if bool_decide (config_id r = config_id c)
           then with_value r value else r) <$> t).
Proof.
  intros Hok Hc.
  rewrite config_get_cases by by apply rewritten_ok.
  f_equal. f_equal. unfold filter_by_key.
  rewrite (filter_fmap_stable config_key) by (intros r; by destruct (bool_decide _)).
  destruct Hok as [Hi Hk].
  destruct (decide (k = config_key c)) as [->|Hne].
  - rewrite bool_decide_eq_true_2 by done.
    rewrite (filter_by_unique config_key) by done. simpl.
    by rewrite bool_decide_eq_true_2.
  - rewrite bool_decide_eq_false_2 by done.
    destruct (decide (k ∈ config_key <$> t)) as [Hin|Hno].
    + apply list_elem_of_fmap in Hin as (c0 & -> & Hc0).
      rewrite (filter_by_unique config_key) by done. simpl.
      rewrite bool_decide_eq_false_2; [done|].
      intros Heq. apply Hne. f_equal. by apply (by_key_inj config_id t).
    + by rewrite (filter_by_none config_key).
Qed.

(** X11: [config_set] with an allowed key is an upsert that [config_get]
    reads back: afterwards the key has the new value, every other key
    reads as before, and the table has one more row exactly when the key
    was new, so keys stay unique; with a key outside
    [DB_CONFIG_ALLOWED_KEYS] it raises [ValueError] and writes nothing. *)
Theorem config_set_then_get t key value :
  config_ok t →
  (key ∈ DB_CONFIG_ALLOWED_KEYS →
     ∃ t', config_set key value t = (Return (), t')
       ∧ config_get key t' = (Return (Some value), t')
       ∧ (∀ k, k ≠ key → (config_get k t').1 = (config_get k t).1)
       ∧ config_ok t'
       ∧ config_key <$> t'
         = if bool_decide (key ∈ config_key <$> t) then config_key <$> t
           else (config_key <$> t) ++ [key])
  ∧ (key ∉ DB_CONFIG_ALLOWED_KEYS →
     config_set key value t = (Raise (ValueError "Config key not allowed."), t)).
Proof.
  intros Hok. split; [|by apply config_set_refused].
  intros Hallowed. destruct (decide (key ∈ config_key <$> t)) as [Hin|Hno].
  - apply list_elem_of_fmap in Hin as (c & -> & Hc).
    eexists. split; [by apply config_set_existing|].
    destruct (rewritten_ok t c (Some value) Hok) as [Hok' Hkeys].
    split_and!.
    + rewrite rewritten_get by done. by rewrite bool_decide_eq_true_2.
    + intros k Hk. rewrite rewritten_get by done.
      rewrite bool_decide_eq_false_2 by done. by rewrite config_get_cases.
    + done.
    + rewrite bool_decide_eq_true_2 by by apply list_elem_of_fmap_2. done.
  - eexists. split; [by apply config_set_new|].
    assert (config_ok (t ++ [mkConfig (next_id t) key (Some value)])) as Hok'.
    { destruct Hok as [Hi Hk]. split; rewrite fmap_app; apply NoDup_app.
      - split_and!; [done| |apply NoDup_singleton].
        intros x Hx Hx'. apply list_elem_of_singleton in Hx' as ->.
        by apply (next_id_fresh t).
      - split_and!; [done| |apply NoDup_singleton].
        intros x Hx Hx'. by apply list_elem_of_singleton in Hx' as ->. }
    split_and!.
    + apply (config_get_found _ (mkConfig (next_id t) key (Some value))); [done|].
      apply elem_of_app. right. by constructor.
    + intros k Hk. rewrite !config_get_cases by done. simpl.
      unfold filter_by_key. rewrite filter_app, filter_cons_False by (simpl; congruence).
      by rewrite filter_nil, app_nil_r.
    + done.
    + by rewrite bool_decide_eq_false_2, fmap_app.
Qed.

Lemma config_delete_found t c :
  config_ok t → c ∈ t →
  config_delete (config_key c) t
  = (Return (), filter (λ r, config_id r ≠ config_id c) t).
Proof.
  intros [_ Hk] Hc. unfold config_delete, mbind, MC_bind, query_c, filter_by_key. simpl.
  by rewrite (filter_by_unique config_key).
Qed.

Lemma config_delete_missing t key :
  key ∉ config_key <$> t → config_delete key t = (Return (), t).
Proof.
  intros Hno. unfold config_delete, mbind, MC_bind, query_c, filter_by_key. simpl.
  by rewrite (filter_by_none config_key).
Qed.

Lemma filter_config_ok (P : Config → Prop) `{∀ c, Decision (P c)} t :
  config_ok t → config_ok (filter P t).
Proof.
  intros [Hi Hk]. induction t as [|a t IH]; [done|].
  rewrite !fmap_cons, !NoDup_cons in *. destruct Hi as [Hia Hi], Hk as [Hka Hk].
  destruct (IH Hi Hk) as [Hi' Hk'].
  assert (∀ {B} (f : Config → B) x, x ∉ f <$> t → x ∉ f <$> filter P t) as Hsub.
  { intros B f x Hx Hin. apply Hx. apply list_elem_of_fmap in Hin as (r & -> & Hr).
    apply list_elem_of_filter in Hr as [_ Hr]. by apply list_elem_of_fmap_2. }
  destruct (decide (P a)).
  - rewrite filter_cons_True by done. split; rewrite fmap_cons; apply NoDup_cons; auto.
  - rewrite filter_cons_False by done. by split.
Qed.

(** X12: [config_delete] removes the row of the key and nothing else:
    afterwards [config_get] of the key is [None] and every other key reads
    as before; for a key without row it is a no-op and raises nothing;
    [config_get] of a key without row is [None]. *)
Theorem config_delete_then_get t key :
  config_ok t →
  ∃ t', config_delete key t = (Return (), t')
    ∧ config_get key t' = (Return None, t')
    ∧ (∀ k, k ≠ key → (config_get k t').1 = (config_get k t).1)
    ∧ config_ok t'
    ∧ (key ∉ config_key <$> t → t' = t ∧ config_get key t = (Return None, t)).
Proof.
  intros Hok. destruct (decide (key ∈ config_key <$> t)) as [Hin|Hno].
  - apply list_elem_of_fmap in Hin as (c & -> & Hc).
    eexists. split; [by apply config_delete_found|].
    assert (∀ r, r ∈ filter (λ r, config_id r ≠ config_id c) t ↔ r ∈ t ∧ r ≠ c) as Hrows.
    { intros r. rewrite list_elem_of_filter. split.
      - intros [Hne Hr]. split; [done|]. by intros ->.
      - intros [Hr Hne]. split; [|done]. intros Heq. apply Hne.
        destruct Hok as [Hi _]. by apply (by_key_inj config_id t). }
    pose proof (filter_config_ok (λ r, config_id r ≠ config_id c) t Hok) as Hok'.
    split_and!.
    + apply config_get_missing. intros Hin.
      apply list_elem_of_fmap in Hin as (r & Heq & Hr). apply Hrows in Hr as [Hr Hne].
      apply Hne. destruct Hok as [_ Hk]. by apply (by_key_inj config_key t).
    + intros k Hk. destruct (decide (k ∈ config_key <$> t)) as [Hin|Hno].
      * apply list_elem_of_fmap in Hin as (c0 & -> & Hc0).
        rewrite !config_get_found; try done.
        apply Hrows. split; [done|]. by intros ->.
      * rewrite !config_get_missing; try done.
        intros Hin. apply Hno. apply list_elem_of_fmap in Hin as (r & -> & Hr).
        apply Hrows in Hr as [Hr _]. by apply list_elem_of_fmap_2.
    + done.
    + intros Hno. exfalso. apply Hno. by apply list_elem_of_fmap_2.
  - exists t. split; [by apply config_delete_missing|].
    split_and!; try done.
    + by apply config_get_missing.
    + split; [done|]. by apply config_get_missing.
Qed.

Lemma foldl_insert_lookup (rows : list Config) (d : gmap string (option string)) k :
  NoDup (config_key <$> rows) →
  foldl (λ d c, <[config_key c := config_value c]> d) d rows !! k
  = match head (filter_by_key k rows) with
    | Some c => Some (config_value c)
    | None => d !! k
    end.
Proof.
  revert d. induction rows as [|a rows IH]; intros d Hnd; [done|].
  rewrite fmap_cons, NoDup_cons in Hnd. destruct Hnd as [Ha Hnd].
  simpl. rewrite IH by done. unfold filter_by_key.
  destruct (decide (config_key a = k)) as [<-|Hne].
  - rewrite filter_cons_True by done.
    rewrite (filter_by_none config_key) by done. simpl. by rewrite lookup_insert_eq.
  - rewrite filter_cons_False by done.
    destruct (head _); [done|]. by rewrite lookup_insert_ne.
Qed.

(** X13: the dictionary of [config_get_all] agrees with [config_get] key
    by key: it has an entry exactly for the keys of the table, and
    [config_get] of a key returns that entry's value ([None] for a key
    without entry). *)
Theorem config_get_all_agrees t :
  config_ok t →
  ∃ d, config_get_all t = (Return d, t)
    ∧ (∀ k, is_Some (d !! k) ↔ k ∈ config_key <$> t)
    ∧ (∀ k, config_get k t = (Return (mjoin (d !! k)), t)).
Proof.
  intros Hok. eexists. split; [reflexivity|].
  pose proof Hok as [_ Hk].
  split.
  - intros k. rewrite foldl_insert_lookup, lookup_empty by done.
    destruct (decide (k ∈ config_key <$> t)) as [Hin|Hno].
    + split; [done|]. intros _.
      apply list_elem_of_fmap in Hin as (c & -> & Hc).
      unfold filter_by_key. rewrite (filter_by_unique config_key) by done.
      simpl. eauto.
    + unfold filter_by_key. rewrite (filter_by_none config_key) by done. simpl.
      split; [by intros [? [=]]|done].
  - intros k. rewrite config_get_cases by done.
    rewrite foldl_insert_lookup, lookup_empty by done.
    by destruct (head _).
Qed.

End config_facts.

(** ** api/tasks.py: notifying the owners *)

Section notify_facts.
Context `{Externals}.
Import Const Auth Tasks.

Lemma get_owner_emails_elem w tree :
  ∃ emails, get_owner_emails tree w = (Return emails, w)
    ∧ ∀ e, e ∈ emails ↔ ∃ u, u ∈ users w ∧ user_tree u = Some tree
                             ∧ user_role u = ROLE_OWNER
                             ∧ user_email u = Some e ∧ e ≠ EmptyString.
Proof.
  eexists. split; [reflexivity|]. intros e. rewrite list_elem_of_omap. split.
  - intros (u & Hu & He). apply list_elem_of_filter in Hu as [[Ht Hr] Hu].
    destruct (user_email u) as [e'|] eqn:Hmail; [|done].
    destruct (decide (e' = EmptyString)) as [->|Hne].
    + by rewrite bool_decide_eq_false_2 in He by (by intros []).
    + rewrite bool_decide_eq_true_2 in He by done. injection He as ->. by exists u.
  - intros (u & Hu & Ht & Hr & Hmail & Hne). exists u. split.
    + by apply list_elem_of_filter.
    + by rewrite Hmail, bool_decide_eq_true_2.
Qed.

(** X14: the task [send_email_new_user] writes to the users of the tree
    whose role is exactly [ROLE_OWNER] and who have a non-empty e-mail
    address, all in one mail; when there is no such user it sends nothing
    and still returns normally; an error of the mailer is passed on; the
    table of users is never touched. *)
Theorem send_email_new_user_recipients username fullname email tree w :
  ∃ to,
    (∀ e, e ∈ to ↔ ∃ u, u ∈ users w ∧ user_tree u = Some tree
                        ∧ user_role u = ROLE_OWNER
                        ∧ user_email u = Some e ∧ e ≠ EmptyString)
    ∧ (to = [] →
       call send_email_new_user (username, fullname, email, tree) w = (Return (), w))
    ∧ (to ≠ [] → send_email (new_user_mail username fullname email to) = Return () →
       call send_email_new_user (username, fullname, email, tree) w
       = (Return (), after_mail w (new_user_mail username fullname email to)))
    ∧ (∀ e, to ≠ [] → send_email (new_user_mail username fullname email to) = Raise e →
       call send_email_new_user (username, fullname, email, tree) w = (Raise e, w))
    ∧ users (call send_email_new_user (username, fullname, email, tree) w).2 = users w.
Proof.
  destruct (get_owner_emails_elem w tree) as (to & Hrun & Helem).
  exists to. split; [done|].
  assert (call send_email_new_user (username, fullname, email, tree) w
          = if truthy to
            then send_email_m "New registered user"
                   (email_new_user (rstrip slash BASE_URL) username fullname email) to w
            else (Return (), w)) as Hcall.
  { simpl. erewrite bind_Return by exact Hrun. by destruct (truthy to). }
  rewrite Hcall. unfold send_email_m, new_user_mail. split_and!.
  - by intros ->.
  - intros Hne Hsent. destruct to; [done|]. simpl. by rewrite Hsent.
  - intros e Hne Hfail. destruct to; [done|]. simpl. by rewrite Hfail.
  - destruct to; [done|]. simpl. by destruct (send_email _).
Qed.

End notify_facts.

(** ** api/resources/user.py: adding and deleting users *)

Section manage_facts.
Context `{Externals}.
Import Const Auth Tasks Users.

Lemma get_guid_reads name w : ∃ o, get_guid name w = (o, w).
Proof.
  unfold get_guid, mbind, M_bind, query, scalar. simpl.
  destruct (user_id <$> filter_by_name name (users w)) as [|g [|g' l]]; simpl; eauto.
Qed.

Lemma get_name_reads guid w : ∃ o, get_name guid w = (o, w).
Proof.
  unfold get_name, mbind, M_bind, query, scalar. simpl.
  destruct (user_name <$> filter_by_id guid (users w)) as [|g [|g' l]]; simpl; eauto.
Qed.

Lemma require_permissions_one req p w :
  require_permissions req [p] w
  = if bool_decide (p ∈ caller_permissions req) then (Return (), w)
    else (Raise (HTTPException 403), w).
Proof.
  unfold require_permissions. rewrite has_permissions_one.
  by destruct (bool_decide _).
Qed.

Lemma try_get_guid_reads name (handler : M GUID) w :
  (∀ w', refused (handler w') w') →
  (∃ g, try_except (get_guid name) (ExceptClass CValueError) handler w = (Return g, w))
  ∨ refused (try_except (get_guid name) (ExceptClass CValueError) handler w) w.
Proof.
  intros Hh. unfold try_except. destruct (get_guid_reads name w) as [[g|e] ->].
  - left. eauto.
  - right. destruct (isinstance e CValueError); [apply Hh|by exists e].
Qed.

Lemma abort_refused {A} code w : refused (@abort A code w) w.
Proof. by eexists. Qed.

Lemma delete_known req w u t :
  store_ok (users w) → u ∈ users w → user_name u ≠ "-" →
  get_tree_id (users w) (user_id u) = Return t →
  UserResource_delete req (user_name u) w
  = if bool_decide (needed_to_delete req t ∈ caller_permissions req)
    then (Return (Text EmptyString, 200), set_users w (other_rows u (users w)))
    else (Raise (HTTPException 403), w).
Proof.
  intros Hok Hin Hname Htree. unfold UserResource_delete.
  rewrite bool_decide_eq_false_2 by done. rewrite when_false, bind_mret.
  erewrite bind_Return by by apply try_except_Return, get_guid_found.
  erewrite bind_Return by (unfold get_tree_id_m; by rewrite Htree).
  unfold needed_to_delete, get_tree_from_jwt.
  destruct (bool_decide (caller_tree req = t)).
  - destruct (decide (PERM_DEL_USER ∈ caller_permissions req)) as [Hp|Hp].
    + rewrite bool_decide_eq_true_2 by done.
      erewrite bind_Return by by apply require_permissions_held.
      by erewrite bind_Return by by apply delete_user_found.
    + rewrite bool_decide_eq_false_2 by done.
      by erewrite bind_Raise by by apply require_permissions_missing.
  - destruct (decide (PERM_DEL_OTHER_TREE_USER ∈ caller_permissions req)) as [Hp|Hp].
    + rewrite bool_decide_eq_true_2 by done.
      erewrite bind_Return by by apply require_permissions_held.
      by erewrite bind_Return by by apply delete_user_found.
    + rewrite bool_decide_eq_false_2 by done.
      by erewrite bind_Raise by by apply require_permissions_missing.
Qed.

Lemma delete_needs_permission req name w :
  PERM_DEL_USER ∉ caller_permissions req →
  PERM_DEL_OTHER_TREE_USER ∉ caller_permissions req →
  refused (UserResource_delete req name w) w.
Proof.
  intros Hsame Hother. unfold UserResource_delete.
  destruct (bool_decide (name = "-")).
  { rewrite when_true. eexists. by erewrite bind_Raise by reflexivity. }
  rewrite when_false, bind_mret.
  destruct (try_get_guid_reads name (abort 404) w) as [[g Hg]|[e He]];
    [intros; apply abort_refused | | eexists; by erewrite bind_Raise by exact He].
  erewrite bind_Return by exact Hg.
  unfold mbind at 1, M_bind at 1, get_tree_id_m.
  destruct (get_tree_id (users w) g) as [t|e]; [|by eexists].
  destruct (bool_decide (get_tree_from_jwt req = t)); eexists;
    by erewrite bind_Raise by by apply require_permissions_missing.
Qed.

(** X15: [UserResource.delete] answers 404 for "-" and for a name that no
    row has; for an existing user it asks for [DeleteUser] when the user
    is in the caller's tree and for [DeleteOtherTreeUser] otherwise:
    without that permission the answer is 403 and nothing changes, with
    it the answer is 200 and exactly that user's row is gone. *)
Theorem delete_guarded req w :
  store_ok (users w) →
  UserResource_delete req "-" w = (Raise (HTTPException 404), w)
  ∧ (∀ name, name ≠ "-" → name ∉ user_name <$> users w →
       UserResource_delete req name w = (Raise (HTTPException 404), w))
  ∧ (∀ u t, u ∈ users w → user_name u ≠ "-" →
       get_tree_id (users w) (user_id u) = Return t →
       (needed_to_delete req t ∉ caller_permissions req →
          UserResource_delete req (user_name u) w = (Raise (HTTPException 403), w))
       ∧ (needed_to_delete req t ∈ caller_permissions req →
          ∃ w', UserResource_delete req (user_name u) w
                = (Return (Text EmptyString, 200), w')
                ∧ same_but_users 0 w w'
                ∧ ∀ r, r ∈ users w' ↔ r ∈ users w ∧ r ≠ u)).
Proof.
  intros Hok. split_and!.
  - reflexivity.
  - intros name Hname Hno. by apply delete_unknown.
  - intros u t Hin Hname Htree. rewrite (delete_known req w u t) by done. split.
    + intros Hno. by rewrite bool_decide_eq_false_2.
    + intros Hyes. rewrite bool_decide_eq_true_2 by done.
      eexists. split; [done|]. split; [done|].
      intros r. by apply other_rows_elem.
Qed.

Lemma add_user_rejects_helper w name password fullname email role tree :
  name ∈ user_name <$> users w
  ∨ (∃ e, email = Some e ∧ Some e ∈ user_email <$> users w)
  ∨ password = EmptyString →
  ∃ msg w', add_user name password fullname email role tree w
            = (Raise (ValueError msg), w') ∧ users w' = users w.
Proof.
  intros Hbad.
  destruct (decide (name = EmptyString)) as [->|Hn].
  { do 2 eexists. by rewrite add_user_empty_name. }
  destruct (decide (password = EmptyString)) as [->|Hp].
  { do 2 eexists. by rewrite add_user_empty_password. }
  rewrite add_user_nonempty by done.
  assert (collides (users w) (new_user_row w name password fullname email role tree)
          = true) as ->; [|by do 2 eexists].
  destruct Hbad as [?|[(e & -> & ?)|?]]; [by apply collides_name| |done].
  by apply (collides_email _ _ e).
Qed.

Lemma post_run req args name w :
  name ≠ "-" →
  UserResource_post req args name w
  = if bool_decide (post_role args >= ROLE_ADMIN)%Z
       && negb (bool_decide (PERM_MAKE_ADMIN ∈ caller_permissions req))
    then (Raise (HTTPException 403), w)
    else if negb (bool_decide (needed_to_add req args ∈ caller_permissions req))
    then (Raise (HTTPException 403), w)
    else match add_user name (post_password args) (Some (post_full_name args))
                 (Some (post_email args)) (Some (post_role args))
                 (tree_of_new_user req args) w with
         | (Return _, w') => (Return (Text EmptyString, 201), w')
         | (Raise e, w') =>
             if isinstance e CValueError then (Raise (HTTPException 409), w')
             else (Raise e, w')
         end.
Proof.
  intros Hname. unfold UserResource_post.
  rewrite (bool_decide_eq_false_2 (name = "-")) by done.
  rewrite when_false, bind_mret.
  assert ((when (bool_decide (post_role args >= ROLE_ADMIN)%Z)
             (require_permissions req [PERM_MAKE_ADMIN])) w
          = if bool_decide (post_role args >= ROLE_ADMIN)%Z
               && negb (bool_decide (PERM_MAKE_ADMIN ∈ caller_permissions req))
            then (Raise (HTTPException 403), w) else (Return (), w)) as Hadmin.
  { destruct (bool_decide (post_role args >= ROLE_ADMIN)%Z); [|done].
    rewrite when_true, require_permissions_one. by destruct (bool_decide _). }
  destruct (_ && _).
  { by erewrite bind_Raise by exact Hadmin. }
  erewrite bind_Return by exact Hadmin.
  assert ((if negb (truthy_str (post_tree args))
              || bool_decide (Some (get_tree_from_jwt req) = post_tree args)
           then require_permissions req [PERM_ADD_USER]
           else require_permissions req [PERM_ADD_OTHER_TREE_USER]) w
          = if negb (bool_decide (needed_to_add req args ∈ caller_permissions req))
            then (Raise (HTTPException 403), w) else (Return (), w)) as Hadd.
  { unfold needed_to_add, get_tree_from_jwt.
    destruct (_ || _); rewrite require_permissions_one;
      by destruct (bool_decide (_ ∈ caller_permissions req)). }
  destruct (negb (bool_decide (needed_to_add req args ∈ caller_permissions req))).
  { by erewrite bind_Raise by exact Hadd. }
  erewrite bind_Return by exact Hadd.
  unfold mbind at 1, M_bind at 1, try_except, tree_of_new_user, get_tree_from_jwt.
  destruct (add_user _ _ _ _ _ _ w) as [[[]|e] w']; [done|].
  by destruct (isinstance e CValueError).
Qed.

Lemma add_user_cases name password fullname email role tree w :
  (∃ w', add_user name password fullname email role tree w = (Return (), w'))
  ∨ ∃ msg w', add_user name password fullname email role tree w
              = (Raise (ValueError msg), w') ∧ users w' = users w.
Proof.
  destruct (decide (name = EmptyString)) as [->|Hn].
  { right. do 2 eexists. by rewrite add_user_empty_name. }
  destruct (decide (password = EmptyString)) as [->|Hp].
  { right. do 2 eexists. by rewrite add_user_empty_password. }
  rewrite add_user_nonempty by done. destruct (collides _ _); eauto 10.
Qed.

Lemma own_tree_without_cross_permission req args :
  PERM_ADD_OTHER_TREE_USER ∉ caller_permissions req →
  needed_to_add req args ∈ caller_permissions req →
  tree_of_new_user req args = Some (caller_tree req).
Proof.
  unfold needed_to_add, tree_of_new_user. intros Hno.
  destruct (truthy_str (post_tree args)); simpl; [|done].
  destruct (bool_decide (Some (caller_tree req) = post_tree args)) eqn:Heq.
  - by apply bool_decide_eq_true in Heq.
  - done.
Qed.


End manage_facts.

(** ** api/resources/user.py: editing users *)

Section edit_more_facts.
Context `{Externals}.
Import Const Auth Tasks Users.

Lemma prepare_edit_reads req name w : ∃ o, prepare_edit req name w = (o, w).
Proof.
  unfold prepare_edit, require_permissions, try_except, get_name, get_guid,
    get_tree_id_m, mbind, M_bind, mret, M_ret, query, scalar, raise, abort.
  destruct (bool_decide (name = "-")).
  - destruct (has_permissions req [PERM_EDIT_OWN_USER]); simpl; [|eauto].
    destruct (user_name <$> filter_by_id _ _) as [|a [|b l]]; simpl; eauto.
  - destruct (user_id <$> filter_by_name _ _) as [|a [|b l]]; simpl; eauto.
    destruct (get_tree_id (users w) a) as [t|e]; simpl; [|eauto].
    destruct (bool_decide (_ = t)); simpl;
      destruct (has_permissions req _); simpl; eauto.
Qed.

Lemma prepare_edit_allowed req name u other_tree w :
  store_ok (users w) → u ∈ users w → may_edit req name u other_tree w →
  prepare_edit req name w = (Return (user_name u, other_tree), w).
Proof.
  intros Hok Hin [(-> & Hid & Hperm & ->)|(Hname & <- & t & Htree & Hcase)].
  - by apply prepare_edit_own.
  - unfold prepare_edit. rewrite bool_decide_eq_false_2 by done.
    erewrite bind_Return;
      [|eapply try_except_Return; by apply get_guid_found].
    erewrite bind_Return by (unfold get_tree_id_m; by rewrite Htree).
    unfold get_tree_from_jwt.
    destruct Hcase as [(-> & Hperm & ->)|(Hne & Hperm & ->)].
    + rewrite bool_decide_eq_true_2 by done.
      erewrite bind_Return; [done|].
      by erewrite bind_Return by by apply require_permissions_held.
    + rewrite bool_decide_eq_false_2 by congruence.
      erewrite bind_Return; [done|].
      by erewrite bind_Return by by apply require_permissions_held.
Qed.




Lemma put_role_needs_permission req args name w r :
  put_role args = Some r →
  ((r >= ROLE_ADMIN)%Z ∧ PERM_MAKE_ADMIN ∉ caller_permissions req)
  ∨ ((PERM_EDIT_USER_ROLE ∉ caller_permissions req)
     ∧ (PERM_EDIT_OTHER_TREE_USER_ROLE ∉ caller_permissions req)) →
  refused (UserResource_put req args name w) w.
Proof.
  intros Hr Hno. unfold UserResource_put.
  destruct (prepare_edit_reads req name w) as [[[n o]|e] Hprep];
    [|eexists; by erewrite bind_Raise by exact Hprep].
  erewrite bind_Return by exact Hprep. cbn beta iota. rewrite Hr.
  assert (∃ e, (when (bool_decide (r >= ROLE_ADMIN)%Z)
                  (require_permissions req [PERM_MAKE_ADMIN]);;
                if o then require_permissions req [PERM_EDIT_OTHER_TREE_USER_ROLE]
                else require_permissions req [PERM_EDIT_USER_ROLE]) w
               = (Raise e, w)) as [e He].
  { destruct Hno as [[Hge Hno]|[Hno1 Hno2]].
    - rewrite (bool_decide_eq_true_2 _ Hge), when_true.
      eexists. by erewrite bind_Raise by by apply require_permissions_missing.
    - destruct (bool_decide (r >= ROLE_ADMIN)%Z).
      + rewrite when_true.
        destruct (decide (PERM_MAKE_ADMIN ∈ caller_permissions req)).
        * erewrite bind_Return by by apply require_permissions_held.
          eexists. destruct o; by apply require_permissions_missing.
        * eexists. by erewrite bind_Raise by by apply require_permissions_missing.
      + rewrite when_false, bind_mret.
        eexists. destruct o; by apply require_permissions_missing. }
  eexists. by erewrite bind_Raise by exact He.
Qed.

End edit_more_facts.

(** ** What the roles of [const.py] can do to users *)

Section role_separation.
Context `{Externals}.
Import Const Auth Tasks Users.

Lemma not_granted r s p l :
  PERMISSIONS !! r = Some s → (p, l) ∈ grant_levels → (r < l)%Z → p ∉ s.
Proof.
  intros Hs Hin Hlt Hp. apply (permission_level r s p l Hs Hin) in Hp. lia.
Qed.

Lemma owner_grants p :
  p ∈ [PERM_ADD_USER; PERM_DEL_USER; PERM_EDIT_OTHER_USER; PERM_EDIT_USER_ROLE;
       PERM_VIEW_OTHER_USER] →
  (p, ROLE_OWNER) ∈ grant_levels.
Proof.
  rewrite !elem_of_cons, elem_of_nil.
  intros [->|[->|[->|[->|[->|[]]]]]]; apply (bool_decide_unpack _); vm_compute; exact I.
Qed.

Lemma admin_grants p :
  p ∈ [PERM_ADD_OTHER_TREE_USER; PERM_DEL_OTHER_TREE_USER; PERM_EDIT_OTHER_TREE_USER;
       PERM_EDIT_OTHER_TREE_USER_ROLE; PERM_MAKE_ADMIN; PERM_VIEW_OTHER_TREE_USER] →
  (p, ROLE_ADMIN) ∈ grant_levels.
Proof.
  rewrite !elem_of_cons, elem_of_nil.
  intros [->|[->|[->|[->|[->|[->|[]]]]]]];
    apply (bool_decide_unpack _); vm_compute; exact I.
Qed.

Lemma below_owner r s p :
  PERMISSIONS !! r = Some s → (r < ROLE_OWNER)%Z →
  p ∈ [PERM_ADD_USER; PERM_DEL_USER; PERM_EDIT_OTHER_USER; PERM_EDIT_USER_ROLE;
       PERM_VIEW_OTHER_USER] →
  p ∉ s.
Proof. intros Hs Hlt Hp. by apply (not_granted r s p ROLE_OWNER Hs (owner_grants p Hp)). Qed.

Lemma below_admin r s p :
  PERMISSIONS !! r = Some s → (r < ROLE_ADMIN)%Z →
  p ∈ [PERM_ADD_OTHER_TREE_USER; PERM_DEL_OTHER_TREE_USER; PERM_EDIT_OTHER_TREE_USER;
       PERM_EDIT_OTHER_TREE_USER_ROLE; PERM_MAKE_ADMIN; PERM_VIEW_OTHER_TREE_USER] →
  p ∉ s.
Proof. intros Hs Hlt Hp. by apply (not_granted r s p ROLE_ADMIN Hs (admin_grants p Hp)). Qed.

Lemma post_needs_permission req args name w :
  ((post_role args >= ROLE_ADMIN)%Z ∧ PERM_MAKE_ADMIN ∉ caller_permissions req)
  ∨ ((PERM_ADD_USER ∉ caller_permissions req)
     ∧ (PERM_ADD_OTHER_TREE_USER ∉ caller_permissions req)) →
  refused (UserResource_post req args name w) w.
Proof.
  intros Hno. destruct (decide (name = "-")) as [->|Hname]; [by eexists|].
  rewrite post_run by done.
  destruct Hno as [[Hge Hno]|[Hno1 Hno2]].
  - rewrite (bool_decide_eq_true_2 _ Hge), (bool_decide_eq_false_2 _ Hno).
    by eexists.
  - rewrite (bool_decide_eq_false_2 (needed_to_add req args ∈ _)).
    + destruct (_ && _); by eexists.
    + unfold needed_to_add. by destruct (_ || _).
Qed.

Lemma add_user_returns w w' name password fullname email role tree :
  add_user name password fullname email role tree w = (Return (), w') →
  users w' = (users w ++ [new_user_row w name password fullname email role tree])%list.
Proof.
  destruct (decide (name = EmptyString)) as [->|Hn];
    [by rewrite add_user_empty_name|].
  destruct (decide (password = EmptyString)) as [->|Hp];
    [by rewrite add_user_empty_password|].
  rewrite add_user_nonempty by done. destruct (collides _ _); [done|].
  by intros [= <-].
Qed.

Lemma post_returns req args name w w' resp :
  UserResource_post req args name w = (Return resp, w') →
  needed_to_add req args ∈ caller_permissions req
  ∧ ∃ row, users w' = (users w ++ [row])%list
           ∧ user_name row = name ∧ user_role row = post_role args
           ∧ user_tree row = tree_of_new_user req args.
Proof.
  destruct (decide (name = "-")) as [->|Hname]; [done|].
  rewrite post_run by done.
  destruct (_ && _); [done|].
  destruct (decide (needed_to_add req args ∈ caller_permissions req)) as [Hadd|Hno];
    [|by rewrite (bool_decide_eq_false_2 _ Hno)].
  rewrite (bool_decide_eq_true_2 _ Hadd). simpl negb. cbv iota.
  destruct (add_user _ _ _ _ _ _ w) as [[[]|e] w1] eqn:Hrun.
  - intros [= <- <-]. split; [done|].
    apply add_user_returns in Hrun. eexists. by split.
  - by destruct (isinstance e CValueError).
Qed.

(** X18: what the permission table of [const.py] lets each role do
    through the user resource.  A caller whose permissions are those of a
    role below owner can neither add nor delete a user nor change a role:
    each such request ends in an exception and changes nothing.  A caller
    with a role below admin (so also the owner) cannot create an admin or
    raise a user to admin, and every user such a caller creates is in the
    caller's own tree. *)
Theorem role_separation req r s name w :
  PERMISSIONS !! r = Some s → caller_permissions req = s →
  ((r < ROLE_OWNER)%Z →
     (∀ args, refused (UserResource_post req args name w) w)
     ∧ refused (UserResource_delete req name w) w
     ∧ (∀ args, is_Some (put_role args) →
          refused (UserResource_put req args name w) w))
  ∧ ((r < ROLE_ADMIN)%Z →
     (∀ args, (post_role args >= ROLE_ADMIN)%Z →
        refused (UserResource_post req args name w) w)
     ∧ (∀ args r', put_role args = Some r' → (r' >= ROLE_ADMIN)%Z →
          refused (UserResource_put req args name w) w)
     ∧ (∀ args resp w',
          UserResource_post req args name w = (Return resp, w') →
          ∃ row, users w' = (users w ++ [row])%list
                 ∧ user_tree row = Some (caller_tree req))).
Proof.
  intros Hs Hperms. split.
  - intros Hlt.
    assert (r < ROLE_ADMIN)%Z as Hlt' by (unfold ROLE_OWNER, ROLE_ADMIN in *; lia).
    split_and!.
    + intros args. apply post_needs_permission. right. rewrite Hperms. split.
      * apply (below_owner r s _ Hs Hlt). set_unfold. tauto.
      * apply (below_admin r s _ Hs Hlt'). set_unfold. tauto.
    + apply delete_needs_permission; rewrite Hperms.
      * apply (below_owner r s _ Hs Hlt). set_unfold. tauto.
      * apply (below_admin r s _ Hs Hlt'). set_unfold. tauto.
    + intros args [r' Hr']. apply (put_role_needs_permission req args name w r' Hr').
      right. rewrite Hperms. split.
      * apply (below_owner r s _ Hs Hlt). set_unfold. tauto.
      * apply (below_admin r s _ Hs Hlt'). set_unfold. tauto.
  - intros Hlt. split_and!.
    + intros args Hge. apply post_needs_permission. left. split; [done|].
      rewrite Hperms. apply (below_admin r s _ Hs Hlt). set_unfold. tauto.
    + intros args r' Hr' Hge.
      apply (put_role_needs_permission req args name w r' Hr').
      left. split; [done|].
      rewrite Hperms. apply (below_admin r s _ Hs Hlt). set_unfold. tauto.
    + intros args resp w' Hrun.
      apply post_returns in Hrun as (Hadd & row & Husers & _ & _ & Htree).
      exists row. split; [done|]. rewrite Htree.
      apply own_tree_without_cross_permission; [|done].
      rewrite Hperms. apply (below_admin r s _ Hs Hlt). set_unfold. tauto.
Qed.

End role_separation.

(** ** api/resources/user.py: the first user *)

Section create_owner_facts.
Context `{Externals}.
Import Const Auth Tasks Users.




End create_owner_facts.

(** ** api/resources/user.py: after a registration *)

Section registered_facts.
Context `{Externals}.
Import Const Auth Tasks Users.

Lemma register_post_rejected args name w o :
  name ≠ "-" → o ∈ users w → owner_for (reg_tree args) o →
  name ∈ user_name <$> users w
  ∨ Some (reg_email args) ∈ user_email <$> users w
  ∨ reg_password args = EmptyString →
  ∃ w', UserRegisterResource_post args name w = (Raise (HTTPException 409), w')
        ∧ users w' = users w.
Proof.
  intros Hname Ho Howner Hbad. unfold UserRegisterResource_post.
  rewrite bool_decide_eq_false_2 by done. rewrite when_false, bind_mret.
  destruct (owners_positive w (reg_tree args) o Ho Howner) as (n & Hn & Hpos).
  erewrite bind_Return by exact Hn.
  rewrite bool_decide_eq_false_2 by done. rewrite when_false, bind_mret.
  destruct (add_user_rejects_helper w name (reg_password args)
              (Some (reg_full_name args)) (Some (reg_email args))
              (Some ROLE_UNCONFIRMED) (reg_tree args))
    as (msg & w' & Hadd & Husers).
  { destruct Hbad as [?|[?|?]]; eauto. }
  exists w'. split; [|done].
  erewrite bind_Raise; [done|].
  by erewrite try_except_caught by (exact Hadd || reflexivity).
Qed.

(** X20: a registration that goes through leaves an account that cannot
    be used yet.  Under the conditions in which
    [UserRegisterResource.post] adds the row, the table still satisfies
    its constraints afterwards, [authorized] answers [False] for the new
    name whatever the password (the row has a negative role), and a
    second registration of the same name into the same tree is answered
    409 without changing the table. *)
Theorem registered_cannot_login w args name o :
  store_ok (users w) →
  name ≠ "-" → name ≠ EmptyString → reg_password args ≠ EmptyString →
  o ∈ users w → owner_for (reg_tree args) o →
  uuid4_at (entropy w) ∉ user_id <$> users w →
  name ∉ user_name <$> users w →
  Some (reg_email args) ∉ user_email <$> users w →
  ∃ out w',
    UserRegisterResource_post args name w = (out, w')
    ∧ store_ok (users w')
    ∧ (∀ p, authorized name p w' = (Return false, w'))
    ∧ (∀ args', reg_tree args' = reg_tree args →
         ∃ w'', UserRegisterResource_post args' name w' = (Raise (HTTPException 409), w'')
                ∧ users w'' = users w').
Proof.
  intros Hok Hname Hne Hpw Ho Howner Hid Hnew Hmail.
  set (row := registered_row w args name).
  set (w1 := after_registration w args name).
  set (kw := (reg_email args, confirm_token (user_id row) (reg_email args))).
  pose proof (register_post_accepted args name w o
                Hname Hne Hpw Ho Howner Hid Hnew Hmail) as Hpost.
  fold row w1 kw in Hpost.
  pose proof (run_task_confirm_users kw w1) as Husers.
  destruct (run_task send_email_confirm_email kw w1) as [out w'] eqn:Hrun.
  simpl in Husers.
  assert (store_ok (users w')) as Hok'.
  { rewrite Husers. apply store_ok_snoc; [done|]. apply collides_false.
    split_and!; [done..|]. by intros e [= <-]. }
  assert (row ∈ users w') as Hrow.
  { rewrite Husers. apply elem_of_app. right. by constructor. }
  exists (match out with Return _ => Return (Text EmptyString, 201) | Raise e => Raise e end),
         w'.
  split_and!.
  - rewrite Hpost. by destruct out.
  - done.
  - intros p. by rewrite (authorized_found w' row p Hok' Hrow).
  - intros args' Htree.
    apply (register_post_rejected args' name w' o); [done| | |].
    + rewrite Husers. apply elem_of_app. by left.
    + by rewrite Htree.
    + left. by apply (list_elem_of_fmap_2 user_name _ row).
Qed.

End registered_facts.

(** ** api/resources/user.py: more on resetting a password *)

Section reset_more_facts.
Context `{Externals}.
Import Const Auth Tasks Users.

Lemma run_task_reset_users kwargs w :
  users (run_task send_email_reset_password kwargs w).2 = users w.
Proof.
  destruct kwargs as [email token]. unfold run_task.
  destruct (truthy CELERY_CONFIG); unfold negb; cbv iota.
  - by erewrite bind_Return by apply delay_eq.
  - unfold mbind, M_bind. simpl. unfold send_email_m.
    by destruct (send_email (mkMail _ _ _)).
Qed.

Lemma trigger_post_unknown name w :
  name ∉ user_name <$> users w →
  UserTriggerResetPasswordResource_post name w = (Raise (HTTPException 404), w).
Proof.
  intros Hno. unfold UserTriggerResetPasswordResource_post.
  destruct (bool_decide (name = "-")).
  { rewrite when_true. by erewrite bind_Raise by reflexivity. }
  rewrite when_false, bind_mret.
  erewrite bind_Return by by apply get_user_details_missing.
  by erewrite bind_Raise by reflexivity.
Qed.

Lemma trigger_post_no_email w u :
  store_ok (users w) → u ∈ users w → user_email u = None →
  UserTriggerResetPasswordResource_post (user_name u) w = (Raise (HTTPException 404), w).
Proof.
  intros Hok Hin Hmail. unfold UserTriggerResetPasswordResource_post.
  destruct (bool_decide (user_name u = "-")).
  { rewrite when_true. by erewrite bind_Raise by reflexivity. }
  rewrite when_false, bind_mret.
  erewrite bind_Return by by apply get_user_details_found. cbn beta iota.
  rewrite bind_mret. simpl d_email. rewrite Hmail.
  by erewrite bind_Raise by reflexivity.
Qed.

(** X21: [UserTriggerResetPasswordResource.post] never writes the user
    table, whatever the name and whether the mail goes out or not.  It
    answers 404, with nothing queued or sent, for "-", for a name that no
    row has and for a user without e-mail address.  When the mail is sent
    in the request (no task queue) and the mailer raises, a [ValueError]
    becomes a 500 and any other exception leaves the handler as it is;
    nothing is recorded as sent. *)
Theorem trigger_reset_reads w :
  store_ok (users w) →
  (∀ name, users (UserTriggerResetPasswordResource_post name w).2 = users w)
  ∧ UserTriggerResetPasswordResource_post "-" w = (Raise (HTTPException 404), w)
  ∧ (∀ name, name ∉ user_name <$> users w →
       UserTriggerResetPasswordResource_post name w = (Raise (HTTPException 404), w))
  ∧ (∀ u, u ∈ users w → user_email u = None →
       UserTriggerResetPasswordResource_post (user_name u) w
       = (Raise (HTTPException 404), w))
  ∧ (∀ u e ex, u ∈ users w → user_name u ≠ "-" → user_email u = Some e →
       truthy CELERY_CONFIG = false →
       send_email (reset_mail e (reset_token u)) = Raise ex →
       UserTriggerResetPasswordResource_post (user_name u) w
       = (Raise (if isinstance ex CValueError then HTTPException 500 else ex), w)).
Proof.
  intros Hok. split_and!.
  - intros name.
    destruct (decide (name ∈ user_name <$> users w)) as [Hin|Hno];
      [|by rewrite trigger_post_unknown].
    apply list_elem_of_fmap in Hin as (u & -> & Hin).
    destruct (user_email u) as [e|] eqn:Hmail;
      [|by rewrite trigger_post_no_email].
    destruct (decide (user_name u = "-")) as [Heq|Hname]; [by rewrite Heq|].
    rewrite (trigger_post_found w u e) by done.
    pose proof (run_task_reset_users (e, reset_token u) w) as Husers.
    destruct (run_task _ _ w) as [[[r|v]|ex] w']; try done.
    by destruct (isinstance ex CValueError).
  - reflexivity.
  - intros name. apply trigger_post_unknown.
  - intros u. by apply trigger_post_no_email.
  - intros u e ex Hin Hname Hmail Hoff Hsend.
    rewrite (trigger_post_found w u e) by done.
    rewrite (run_task_inline_raise send_email_reset_password (e, reset_token u) w ex w).
    + by destruct (isinstance ex CValueError).
    + done.
    + simpl. unfold send_email_m. fold (reset_mail e (reset_token u)).
      by rewrite Hsend.
Qed.



End reset_more_facts.

(** ** api/resources/user.py: changing the own or another password *)

Section change_password_facts.
Context `{Externals}.
Import Const Auth Tasks Users.

Lemma change_password_refused req args name w u other_tree :
  prepare_edit req name w = (Return (user_name u, other_tree), w) →
  store_ok (users w) → u ∈ users w →
  (user_role u < 0)%Z ∨ verify_password (old_password args) (user_pwhash u) = false →
  UserChangePasswordResource_post req args name w = (Raise (HTTPException 403), w).
Proof.
  intros Hprep Hok Hin Hbad. unfold UserChangePasswordResource_post.
  erewrite bind_Return by exact Hprep. cbn beta iota.
  rewrite empty_guard_never_fires, when_false, bind_mret.
  erewrite bind_Return by by apply authorized_found.
  assert ((if bool_decide (user_role u < 0)%Z then false
           else verify_password (old_password args) (user_pwhash u)) = false) as ->.
  { destruct Hbad as [Hneg|Hpw]; [by rewrite bool_decide_eq_true_2|].
    by destruct (bool_decide _). }
  simpl negb. rewrite when_true. by erewrite bind_Raise by reflexivity.
Qed.

(** X23: [UserChangePasswordResource.post] once [prepare_edit] has let
    the request through (for the own user, or for another user by a
    caller who may edit that user): the old password given must be the
    target's, and the target's role must not be negative, or else the
    answer is 403 and nothing changes.  With the right old password the
    answer is 201, only the target's row changes and the constraints
    still hold, and from then on [authorized] checks a password for that
    name against the hash of the new one. *)
Theorem change_password_checks req args name u other_tree w :
  store_ok (users w) → u ∈ users w → may_edit req name u other_tree w →
  ((user_role u < 0)%Z ∨ verify_password (old_password args) (user_pwhash u) = false →
     UserChangePasswordResource_post req args name w = (Raise (HTTPException 403), w))
  ∧ ((0 ≤ user_role u)%Z → verify_password (old_password args) (user_pwhash u) = true →
     ∃ w' new,
       UserChangePasswordResource_post req args name w
       = (Return (Text EmptyString, 201), w')
       ∧ new = set_pwhash u (hash_password_at (entropy w) (new_password args))
       ∧ store_ok (users w')
       ∧ new ∈ users w'
       ∧ (∀ r, r ∈ users w → r ≠ u → r ∈ users w')
       ∧ ∀ p, authorized (user_name u) p w'
              = (Return (verify_password p
                           (hash_password_at (entropy w) (new_password args))), w')).
Proof.
  intros Hok Hin Hmay.
  pose proof (prepare_edit_allowed req name u other_tree w Hok Hin Hmay) as Hprep.
  split.
  - by apply (change_password_refused req args name w u other_tree).
  - intros Hrole Hpw.
    rewrite (change_password_after_prepare req args name w u other_tree) by done.
    set (new := set_pwhash u (hash_password_at (entropy w) (new_password args))).
    assert (store_ok (replace_row u new (users w))) as Hok'
      by by apply set_pwhash_store_ok.
    destruct (replace_row_lookup (users w) u new Hok Hin eq_refl) as [Hnew Hrest].
    eexists _, new. split_and!; try done.
    intros p.
    rewrite (authorized_found
               (set_users (after_draws 1 w) (replace_row u new (users w))) new p Hok' Hnew).
    simpl. by rewrite bool_decide_eq_false_2 by lia.
Qed.

End change_password_facts.

(** ** api/resources/user.py: viewing users *)

Section view_more_facts.
Context `{Externals}.
Import Const Auth Tasks Users.

(** X24: [UsersResource.get] lists users by the caller's reach and never
    writes.  With [ViewOtherTreeUser] the answer holds the details of
    every row; without it and without [ViewOtherUser] the answer is 403;
    with [ViewOtherUser] alone it holds the details of exactly the users
    of the caller's tree and of those without a tree, except that a
    caller whose tree is the empty string is shown every user. *)
Theorem users_list_by_reach req w :
  (PERM_VIEW_OTHER_TREE_USER ∈ caller_permissions req →
     UsersResource_get req w
     = (Return (Json (JArr (json_of_details <$> (_get_user_detail <$> users w))), 200), w))
  ∧ (PERM_VIEW_OTHER_TREE_USER ∉ caller_permissions req →
     (PERM_VIEW_OTHER_USER ∉ caller_permissions req →
        UsersResource_get req w = (Raise (HTTPException 403), w))
     ∧ (PERM_VIEW_OTHER_USER ∈ caller_permissions req →
        (caller_tree req ≠ EmptyString →
           ∃ ds, UsersResource_get req w
                 = (Return (Json (JArr (json_of_details <$> ds)), 200), w)
             ∧ ∀ d, d ∈ ds ↔ ∃ u, u ∈ users w ∧ d = _get_user_detail u
                                  ∧ (user_tree u = Some (caller_tree req)
                                     ∨ user_tree u = None))
        ∧ (caller_tree req = EmptyString →
           UsersResource_get req w
           = (Return (Json (JArr (json_of_details <$> (_get_user_detail <$> users w))),
                      200), w)))).
Proof.
  unfold UsersResource_get. rewrite has_permissions_one. split.
  - intros Hall. by rewrite bool_decide_eq_true_2.
  - intros Hno. rewrite bool_decide_eq_false_2 by done. split.
    + intros Hview. by erewrite bind_Raise by by apply require_permissions_missing.
    + intros Hview. erewrite bind_Return by by apply require_permissions_held.
      unfold get_tree_from_jwt, get_all_user_details, mbind, M_bind, query, mret, M_ret.
      simpl. split.
      * intros Htree. rewrite bool_decide_eq_true_2 by done.
        eexists. split; [done|].
        intros d. rewrite list_elem_of_fmap. split.
        -- intros (u & -> & Hu). apply list_elem_of_filter in Hu as [Ht Hu]. eauto.
        -- intros (u & Hu & -> & Ht). exists u. split; [done|].
           by apply list_elem_of_filter.
      * intros ->. by rewrite bool_decide_eq_false_2 by (by intros []).
Qed.

(** X25: [UserResource.get] apart from the name "_".  For "-" a token
    whose identity is no user's id is answered 401; a request for a named
    user without [ViewOtherUser] is answered 403; with it, a name that no
    row has is answered 404.  The details of an existing user are
    returned with 200 when the caller holds [ViewOtherTreeUser] or the
    user's tree is the caller's; "-" shows the caller's own row and needs
    no permission.  The handler never writes. *)
Theorem view_guarded req w :
  store_ok (users w) →
  (get_jwt_identity req ∉ user_id <$> users w →
     UserResource_get req "-" w = (Raise (HTTPException 401), w))
  ∧ (∀ name, name ≠ "-" → PERM_VIEW_OTHER_USER ∉ caller_permissions req →
       UserResource_get req name w = (Raise (HTTPException 403), w))
  ∧ (∀ name, name ≠ "-" → name ≠ "_" →
       PERM_VIEW_OTHER_USER ∈ caller_permissions req →
       name ∉ user_name <$> users w →
       UserResource_get req name w = (Raise (HTTPException 404), w))
  ∧ (∀ name u, u ∈ users w →
       (name = "-" ∧ user_id u = get_jwt_identity req)
       ∨ (name ≠ "-" ∧ user_name u = name
          ∧ PERM_VIEW_OTHER_USER ∈ caller_permissions req) →
       PERM_VIEW_OTHER_TREE_USER ∈ caller_permissions req
       ∨ get_tree_id (users w) (user_id u) = Return (caller_tree req) →
       UserResource_get req name w
       = (Return (jsonify (_get_user_detail u), 200), w))
  ∧ (∀ name, ∃ out, UserResource_get req name w = (out, w)).
Proof.
  intros Hok. split_and!.
  - intros Hno. unfold UserResource_get.
    rewrite bool_decide_eq_true_2 by done.
    erewrite bind_Raise; [done|].
    by erewrite try_except_caught by (by apply get_name_missing || reflexivity).
  - intros name Hname Hview. unfold UserResource_get.
    rewrite bool_decide_eq_false_2 by done.
    erewrite bind_Raise; [done|].
    by erewrite bind_Raise by by apply require_permissions_missing.
  - intros name Hname Hund Hview Hno. unfold UserResource_get.
    rewrite bool_decide_eq_false_2 by done.
    erewrite bind_Return;
      [| by erewrite bind_Return by by apply require_permissions_held].
    rewrite (bool_decide_eq_true_2 (name ≠ "_")) by done.
    rewrite has_permissions_one.
    destruct (bool_decide (PERM_VIEW_OTHER_TREE_USER ∈ caller_permissions req)).
    + simpl andb. rewrite when_false, bind_mret.
      by erewrite bind_Return by by apply get_user_details_missing.
    + simpl andb. rewrite when_true.
      erewrite bind_Raise; [done|]. erewrite bind_Raise; [done|].
      by erewrite try_except_caught by (by apply get_guid_missing || reflexivity).
  - intros name u Hin Hres Hreach.
    assert (UserResource_get req name w
            = ((when (bool_decide (user_name u ≠ "_")
                      && negb (has_permissions req [PERM_VIEW_OTHER_TREE_USER]))
                  (user_id ← try_except (get_guid (user_name u))
                                (ExceptClass CValueError) (abort 404);
                   destination_tree ← get_tree_id_m user_id;
                   when (bool_decide (get_tree_from_jwt req ≠ destination_tree))
                     (abort 403));;
                details ← get_user_details (user_name u);
                match details with
                | None => abort 404
                | Some d => mret (jsonify d, 200)
                end) w)) as ->.
    { unfold UserResource_get.
      destruct Hres as [[-> Hid]|(Hname & <- & Hview)].
      - rewrite bool_decide_eq_true_2 by done.
        by erewrite bind_Return
          by (apply try_except_Return; rewrite <- Hid; by apply get_name_found).
      - rewrite bool_decide_eq_false_2 by done.
        by erewrite bind_Return
          by by erewrite bind_Return by by apply require_permissions_held. }
    rewrite has_permissions_one.
    assert ((when (bool_decide (user_name u ≠ "_")
                   && negb (bool_decide (PERM_VIEW_OTHER_TREE_USER ∈ caller_permissions req)))
               (user_id ← try_except (get_guid (user_name u))
                             (ExceptClass CValueError) (abort 404);
                destination_tree ← get_tree_id_m user_id;
                when (bool_decide (get_tree_from_jwt req ≠ destination_tree))
                  (abort 403))) w = (Return (), w)) as Hcheck.
    { destruct (bool_decide (user_name u ≠ "_")); [|done].
      destruct (decide (PERM_VIEW_OTHER_TREE_USER ∈ caller_permissions req))
        as [Hall|Hnot].
      { by rewrite (bool_decide_eq_true_2 _ Hall). }
      rewrite (bool_decide_eq_false_2 _ Hnot). simpl andb. rewrite when_true.
      destruct Hreach as [?|Htree]; [done|].
      erewrite bind_Return by by apply try_except_Return, get_guid_found.
      erewrite bind_Return by (unfold get_tree_id_m; by rewrite Htree).
      unfold get_tree_from_jwt.
      by rewrite bool_decide_eq_false_2 by (by intros []). }
    erewrite bind_Return by exact Hcheck.
    by erewrite bind_Return by by apply get_user_details_found.
  - intros name.
    unfold UserResource_get, require_permissions, try_except, get_name, get_guid,
      get_user_details, get_tree_id_m, when, mbind, M_bind, mret, M_ret, query,
      scalar, raise, abort.
    destruct (bool_decide (name = "-")).
    + destruct (user_name <$> filter_by_id _ _) as [|a [|b l]]; simpl; eauto.
      destruct (_ && _); simpl.
      * destruct (user_id <$> filter_by_name _ _) as [|g [|g' l]]; simpl; eauto.
        destruct (get_tree_id (users w) g) as [t|e]; simpl; [|eauto].
        destruct (bool_decide (_ ≠ t)); simpl; eauto.
        destruct (filter_by_name a (users w)) as [|x [|y l]]; simpl; eauto.
      * destruct (filter_by_name a (users w)) as [|x [|y l]]; simpl; eauto.
    + destruct (has_permissions req [PERM_VIEW_OTHER_USER]); simpl; eauto.
      destruct (_ && _); simpl.
      * destruct (user_id <$> filter_by_name _ _) as [|g [|g' l]]; simpl; eauto.
        destruct (get_tree_id (users w) g) as [t|e]; simpl; [|eauto].
        destruct (bool_decide (_ ≠ t)); simpl; eauto.
        destruct (filter_by_name name (users w)) as [|x [|y l]]; simpl; eauto.
      * destruct (filter_by_name name (users w)) as [|x [|y l]]; simpl; eauto.
Qed.

End view_more_facts.

(** ** api/resources/user.py: the reset form *)

Section reset_form_facts.
Context `{Externals} `{Settings}.
Import Const Auth Tasks Users UserForms.

Lemma reset_get_known req w u :
  store_ok (users w) → u ∈ users w → get_jwt_identity req = user_id u →
  UserResetPasswordResource_get req w
  = match token_claims (jwt req) !! CLAIM_LIMITED_SCOPE with
    | None => (Raise (KeyError (PyStr CLAIM_LIMITED_SCOPE)), w)
    | Some scope =>
        if bool_decide (scope ≠ SCOPE_RESET_PW) then (Raise (HTTPException 403), w)
        else match token_claims (jwt req) !! "old_hash" with
             | None => (Raise (KeyError (PyStr "old_hash")), w)
             | Some h0 =>
                 (Return
                    (Text (render_template
                             (if bool_decide (h0 ≠ user_pwhash u)
                              then "reset_password_error.html"
                              else "reset_password.html")
                             [("username", user_name u)]), 200), w)
             end
    end.
Proof.
  intros Hok Hin Hid. unfold UserResetPasswordResource_get.
  erewrite bind_Return
    by (apply try_except_Return; rewrite Hid; by apply get_name_found).
  unfold get_jwt_claim.
  destruct (token_claims (jwt req) !! CLAIM_LIMITED_SCOPE) as [scope|];
    [|by erewrite bind_Raise by reflexivity].
  rewrite bind_mret.
  destruct (bool_decide (scope ≠ SCOPE_RESET_PW)).
  { rewrite when_true. by erewrite bind_Raise by reflexivity. }
  rewrite when_false, bind_mret.
  destruct (token_claims (jwt req) !! "old_hash") as [h0|];
    [|by erewrite bind_Raise by reflexivity].
  rewrite bind_mret.
  erewrite bind_Return by by apply get_pwhash_found.
  by destruct (bool_decide (h0 ≠ user_pwhash u)).
Qed.

(** X26: the reset form of [UserResetPasswordResource.get] tells what
    the POST with the same token would do.  For a token of reset scope
    whose identity is a user's id, the GET renders the form for that
    user exactly when a POST with a non-empty password would set the
    password (201), and the error page exactly when the POST would be
    answered 409.  The GET checks the identity before the scope: an
    unknown identity gives 401 whatever the scope, a known one with
    another scope 403.  The GET never writes. *)
Theorem reset_form_matches_post req w :
  store_ok (users w) →
  (get_jwt_identity req ∉ user_id <$> users w →
     UserResetPasswordResource_get req w = (Raise (HTTPException 401), w))
  ∧ (∀ u, u ∈ users w → get_jwt_identity req = user_id u →
       (∀ scope, token_claims (jwt req) !! CLAIM_LIMITED_SCOPE = Some scope →
          scope ≠ SCOPE_RESET_PW →
          UserResetPasswordResource_get req w = (Raise (HTTPException 403), w))
       ∧ (∀ h0 p, token_claims (jwt req) !! CLAIM_LIMITED_SCOPE = Some SCOPE_RESET_PW →
            token_claims (jwt req) !! "old_hash" = Some h0 → p ≠ EmptyString →
            (h0 = user_pwhash u →
               UserResetPasswordResource_get req w
               = (Return (Text (render_template "reset_password.html"
                                  [("username", user_name u)]), 200), w)
               ∧ (UserResetPasswordResource_post req p w).1
                 = Return (Text EmptyString, 201))
            ∧ (h0 ≠ user_pwhash u →
               UserResetPasswordResource_get req w
               = (Return (Text (render_template "reset_password_error.html"
                                  [("username", user_name u)]), 200), w)
               ∧ UserResetPasswordResource_post req p w
                 = (Raise (HTTPException 409), w))))
  ∧ (∃ out, UserResetPasswordResource_get req w = (out, w)).
Proof.
  intros Hok. split_and!.
  - intros Hno. unfold UserResetPasswordResource_get.
    erewrite bind_Raise; [done|].
    by erewrite try_except_caught by (by apply get_name_missing || reflexivity).
  - intros u Hin Hid. rewrite (reset_get_known req w u) by done. split.
    + intros scope -> Hne. by rewrite bool_decide_eq_true_2.
    + intros h0 p Hs Hold Hp. rewrite Hs, Hold.
      rewrite (bool_decide_eq_false_2 (SCOPE_RESET_PW ≠ SCOPE_RESET_PW))
        by (by intros []).
      rewrite (reset_post_nonempty req p w u h0) by done.
      split.
      * intros ->. by rewrite !bool_decide_eq_false_2 by (by intros []).
      * intros Hne. by rewrite !bool_decide_eq_true_2.
  - destruct (decide (get_jwt_identity req ∈ user_id <$> users w)) as [Hin|Hno].
    + apply list_elem_of_fmap in Hin as (u & Hid & Hin).
      rewrite (reset_get_known req w u) by done.
      destruct (token_claims (jwt req) !! CLAIM_LIMITED_SCOPE) as [scope|]; [|eauto].
      destruct (bool_decide (scope ≠ SCOPE_RESET_PW)); [eauto|].
      destruct (token_claims (jwt req) !! "old_hash"); eauto.
    + eexists. unfold UserResetPasswordResource_get.
      erewrite bind_Raise; [done|].
      by erewrite try_except_caught by (by apply get_name_missing || reflexivity).
Qed.

End reset_form_facts.

(** ** api/resources/file.py: uploading a media file *)

Section media_facts.
Context `{MediaFile.MediaExternals}.
Import Const Users MediaFile.

Lemma for_if_match_run (etags : list string) (checksum_old : string) s :
  for_if_match etags checksum_old s
  = if forallb (λ etag, bool_decide (etag = checksum_old)) etags
    then (Return (), s) else (Raise (HTTPException 412), s).
Proof.
  induction etags as [|etag rest IH]; [done|]. simpl.
  unfold mbind, MF_bind. destruct (decide (etag = checksum_old)) as [->|Hne].
  - rewrite bool_decide_eq_false_2 by (by intros []).
    rewrite bool_decide_eq_true_2 by done. simpl. exact IH.
  - rewrite bool_decide_eq_true_2 by done.
    by rewrite (bool_decide_eq_false_2 (etag = checksum_old)) by done.
Qed.

Lemma etags_match (etags : list string) (checksum_old : string) :
  forallb (λ etag, bool_decide (etag = checksum_old)) etags = true
  ↔ ∀ etag, etag ∈ etags → etag = checksum_old.
Proof.
  rewrite forallb_forall. split.
  - intros Hall etag Hin.
    exact (bool_decide_eq_true_1 _ (Hall etag (proj1 (list_elem_of_In _ _) Hin))).
  - intros Hall etag Hin.
    exact (bool_decide_eq_true_2 _ (Hall etag (proj2 (list_elem_of_In _ _) Hin))).
Qed.

Lemma put_run req args handle s :
  MediaFileResource_put req args handle s
  = if negb (bool_decide (PERM_EDIT_OBJ ∈ caller_permissions req))
    then (Raise (HTTPException 403), s)
    else match objects s !! handle with
         | None => (Raise (HTTPException 404), s)
         | Some obj =>
             if negb (forallb (λ etag, bool_decide (etag = media_checksum obj))
                        (if_match args))
             then (Raise (HTTPException 412), s)
             else match content_type args with
                  | None => (Raise (HTTPException 406), s)
                  | Some mime =>
                      if bool_decide (mime = EmptyString)
                      then (Raise (HTTPException 406), s)
                      else
                        let checksum := (process_file (stream args)).1 in
                        let f := (process_file (stream args)).2 in
                        let tree := caller_tree req in
                        if bool_decide (checksum = media_checksum obj)
                        then
                          if negb (uploadmissing args) || file_exists tree handle
                          then (Raise (HTTPException 409), s)
                          else (Return (Text EmptyString, 200),
                                mkMediaStore (objects s)
                                  (uploads s
                                   ++ [mkUpload tree f checksum mime
                                         (Some (media_path obj))]))
                        else
                          if uploadmissing args
                          then (Raise (HTTPException 409), s)
                          else
                            let obj' :=
                              mkMedia (get_default_filename tree checksum mime)
                                checksum mime in
                            (Return (Json (transaction_to_json [(obj, obj')]), 200),
                             mkMediaStore (<[handle := obj']> (objects s))
                               (uploads s ++ [mkUpload tree f checksum mime None]))
                  end
         end.
Proof.
  unfold MediaFileResource_put, require_permissions_f, get_media_from_handle,
    get_tree_from_jwt.
  rewrite has_permissions_one. unfold mbind at 1, MF_bind at 1.
  destruct (bool_decide (PERM_EDIT_OBJ ∈ caller_permissions req)); [|done].
  simpl negb. cbv iota. unfold mret at 1, MF_ret at 1.
  unfold mbind at 1, MF_bind at 1.
  destruct (objects s !! handle) as [obj|]; [|done].
  unfold mbind at 1, MF_bind at 1. unfold mret at 1, MF_ret at 1.
  unfold mbind at 1, MF_bind at 1. rewrite for_if_match_run.
  destruct (forallb _ (if_match args)); [|done]. simpl negb. cbv iota.
  unfold mbind at 1, MF_bind at 1.
  destruct (content_type args) as [mime|]; [|done].
  destruct (bool_decide (mime = EmptyString)); [done|].
  unfold mret at 1, MF_ret at 1.
  destruct (process_file (stream args)) as [checksum f]. simpl.
  destruct (bool_decide (checksum = media_checksum obj)).
  - by destruct (negb (uploadmissing args) || file_exists (caller_tree req) handle).
  - by destruct (uploadmissing args).
Qed.

(** X27: the refusals of [MediaFileResource.put], in the order of the
    code.  Without [EditObject] the answer is 403 whatever else holds;
    then 404 for a handle without media object; then 412 as soon as one
    entity tag of [If-Match] differs from the stored checksum; then 406
    without content type (absent or empty); then 409 when the bytes have
    the stored checksum and the request is not the upload of a missing
    file (flag unset, or the file exists), and 409 as well when the flag
    is set but the bytes differ.  Whenever the handler raises, it is one
    of these five statuses and neither the media objects nor the files
    have changed. *)
Theorem put_file_refusals req args handle s :
  (PERM_EDIT_OBJ ∉ caller_permissions req →
     MediaFileResource_put req args handle s = (Raise (HTTPException 403), s))
  ∧ (PERM_EDIT_OBJ ∈ caller_permissions req →
     (objects s !! handle = None →
        MediaFileResource_put req args handle s = (Raise (HTTPException 404), s))
     ∧ (∀ obj, objects s !! handle = Some obj →
          (∀ etag, etag ∈ if_match args → etag ≠ media_checksum obj →
             MediaFileResource_put req args handle s = (Raise (HTTPException 412), s))
          ∧ ((∀ etag, etag ∈ if_match args → etag = media_checksum obj) →
             (content_type args = None ∨ content_type args = Some EmptyString →
                MediaFileResource_put req args handle s = (Raise (HTTPException 406), s))
             ∧ (∀ mime, content_type args = Some mime → mime ≠ EmptyString →
                  ((process_file (stream args)).1 = media_checksum obj →
                   uploadmissing args = false
                   ∨ file_exists (caller_tree req) handle = true →
                   MediaFileResource_put req args handle s
                   = (Raise (HTTPException 409), s))
                  ∧ ((process_file (stream args)).1 ≠ media_checksum obj →
                     uploadmissing args = true →
                     MediaFileResource_put req args handle s
                     = (Raise (HTTPException 409), s))))))
  ∧ (∀ e s', MediaFileResource_put req args handle s = (Raise e, s') →
       s' = s ∧ ∃ code, e = HTTPException code ∧ code ∈ [403; 404; 412; 406; 409]%Z).
Proof.
  rewrite put_run. split_and!.
  - intros Hno. by rewrite bool_decide_eq_false_2.
  - intros Hperm. rewrite bool_decide_eq_true_2 by done. simpl negb. cbv iota.
    split; [by intros ->|].
    intros obj ->. split.
    + intros etag Hin Hne.
      assert (forallb (λ etag, bool_decide (etag = media_checksum obj)) (if_match args)
              = false) as ->; [|done].
      apply not_true_is_false. intros Hall. apply Hne.
      by apply (proj1 (etags_match _ _) Hall).
    + intros Hall. rewrite (proj2 (etags_match _ _) Hall). simpl negb. cbv iota.
      split; [by intros [->| ->]|].
      intros mime -> Hmime. rewrite (bool_decide_eq_false_2 _ Hmime). cbv zeta.
      split.
      * intros Hsame Hflag. rewrite (bool_decide_eq_true_2 _ Hsame).
        by destruct Hflag as [-> | ->]; [|rewrite orb_true_r].
      * intros Hdiff ->. by rewrite (bool_decide_eq_false_2 _ Hdiff).
  - intros e s'.
    assert (∀ code, code ∈ [403; 404; 412; 406; 409]%Z →
              (Raise (HTTPException code), s) = (@Raise Response e, s') →
              s' = s ∧ ∃ code, e = HTTPException code
                               ∧ code ∈ [403; 404; 412; 406; 409]%Z) as Hcase.
    { intros code Hcode [= <- <-]. eauto. }
    destruct (negb _); [apply (Hcase 403%Z), (bool_decide_unpack _); exact I|].
    destruct (objects s !! handle) as [obj|]; [|apply (Hcase 404%Z), (bool_decide_unpack _); exact I].
    destruct (negb _); [apply (Hcase 412%Z), (bool_decide_unpack _); exact I|].
    destruct (content_type args) as [mime|]; [|apply (Hcase 406%Z), (bool_decide_unpack _); exact I].
    destruct (bool_decide (mime = EmptyString)); [apply (Hcase 406%Z), (bool_decide_unpack _); exact I|].
    cbv zeta. destruct (bool_decide (_ = media_checksum obj)).
    + destruct (_ || _); [apply (Hcase 409%Z), (bool_decide_unpack _); exact I|done].
    + destruct (uploadmissing args); [apply (Hcase 409%Z), (bool_decide_unpack _); exact I|done].
Qed.

(** X28: what [MediaFileResource.put] does when it accepts, for a caller
    with [EditObject], an existing media object, matching entity tags and
    a content type.  New bytes without the flag are handed to the media
    handler once, under no explicit path, and the object of that handle
    (and no other) gets the new checksum, the default file name for it
    and the content type; the answer is 200 with the transaction as
    JSON, and the same request repeated is refused (412 or 409).  Bytes
    with the stored checksum, with the flag set and the file missing, are
    handed over once under the object's own path, no media object
    changes, and the answer is 200 with an empty body. *)
Theorem put_file_effect req args handle s obj mime :
  PERM_EDIT_OBJ ∈ caller_permissions req →
  objects s !! handle = Some obj →
  (∀ etag, etag ∈ if_match args → etag = media_checksum obj) →
  content_type args = Some mime → mime ≠ EmptyString →
  let checksum := (process_file (stream args)).1 in
  let f := (process_file (stream args)).2 in
  let tree := caller_tree req in
  (checksum ≠ media_checksum obj → uploadmissing args = false →
     ∃ s' obj',
       MediaFileResource_put req args handle s
       = (Return (Json (transaction_to_json [(obj, obj')]), 200), s')
       ∧ obj' = mkMedia (get_default_filename tree checksum mime) checksum mime
       ∧ objects s' !! handle = Some obj'
       ∧ (∀ h, h ≠ handle → objects s' !! h = objects s !! h)
       ∧ uploads s' = (uploads s ++ [mkUpload tree f checksum mime None])%list
       ∧ ∃ code, MediaFileResource_put req args handle s' = (Raise (HTTPException code), s')
                 ∧ (code = 412 ∨ code = 409)%Z)
  ∧ (checksum = media_checksum obj → uploadmissing args = true →
     file_exists tree handle = false →
     ∃ s',
       MediaFileResource_put req args handle s = (Return (Text EmptyString, 200), s')
       ∧ objects s' = objects s
       ∧ uploads s'
         = (uploads s ++ [mkUpload tree f checksum mime (Some (media_path obj))])%list).
Proof.
  intros Hperm Hobj Hall Hct Hmime checksum f tree. subst checksum f tree. split.
  - intros Hdiff Hflag. do 2 eexists. split_and!.
    + rewrite put_run, Hobj, Hct, Hflag.
      rewrite (bool_decide_eq_true_2 _ Hperm), (proj2 (etags_match _ _) Hall).
      rewrite (bool_decide_eq_false_2 _ Hmime). simpl negb. cbv iota zeta.
      by rewrite (bool_decide_eq_false_2 _ Hdiff).
    + done.
    + simpl. by rewrite lookup_insert_eq.
    + intros h Hh. simpl. by rewrite lookup_insert_ne.
    + done.
    + rewrite put_run. simpl objects. rewrite lookup_insert_eq, Hct, Hflag.
      rewrite (bool_decide_eq_true_2 _ Hperm).
      rewrite (bool_decide_eq_false_2 _ Hmime). simpl negb. cbv iota zeta.
      simpl media_checksum.
      destruct (forallb _ (if_match args)); simpl negb; cbv iota.
      * rewrite bool_decide_eq_true_2 by done. simpl. eauto.
      * eauto.
  - intros Hsame Hflag Hmissing. eexists. split_and!.
    + rewrite put_run. cbv zeta. rewrite Hobj, Hct, Hflag, Hmissing.
      rewrite (bool_decide_eq_true_2 _ Hperm), (proj2 (etags_match _ _) Hall).
      rewrite (bool_decide_eq_false_2 _ Hmime). simpl negb. cbv iota zeta.
      by rewrite (bool_decide_eq_true_2 _ Hsame).
    + done.
    + done.
Qed.

End media_facts.

(** ** The further properties on concrete data *)

Section further_examples.
Import Const Auth Tasks Users UserForms ConfigStore MediaFile.

Ltac decided := apply (bool_decide_unpack _); vm_compute; exact I.

Lemma demo_config_ok : config_ok demo_config.
Proof. split; decided. Defined.

Lemma guid_name_round_trip_witness :
  (get_guid "alice" ≫= get_name) demo_world = (Return "alice", demo_world).
Proof.
  destruct (guid_name_round_trip demo_world demo_alice) as [Hthere _];
    [exact demo_world_ok | repeat constructor | exact Hthere].
Defined.


Lemma permission_tiers_witness :
  PERM_ADD_USER ∈ perms_owner ∧ PERM_MAKE_ADMIN ∉ perms_owner.
Proof.
  destruct (permission_tiers ROLE_OWNER perms_owner PERMISSIONS_owner) as [Hlevel _].
  split.
  - apply (Hlevel PERM_ADD_USER ROLE_OWNER); [decided | reflexivity].
  - intros Hin. apply (Hlevel PERM_MAKE_ADMIN ROLE_ADMIN) in Hin; [|decided].
    compute in Hin. apply Hin. reflexivity.
Defined.

Lemma get_permissions_by_role_witness :
  get_permissions "bob" demo_world = (Raise (KeyError (PyInt (-1))), demo_world).
Proof.
  destruct (get_permissions_by_role demo_world demo_bob) as (_ & Hno & _);
    [exact demo_world_ok | repeat constructor |].
  apply Hno. decided.
Defined.

Lemma delete_user_effect_witness :
  ∃ w', delete_user "alice" demo_world = (Return (), w')
        ∧ ∀ p, authorized (H := demo_externals false) "alice" p w' = (Return false, w').
Proof.
  destruct (@delete_user_effect (demo_externals false) demo_world demo_alice)
    as [(w' & Hdel & _ & _ & _ & _ & Hauth & _) _];
    [exact demo_world_ok | repeat constructor |].
  exists w'. split; [exact Hdel | exact Hauth].
Defined.


Lemma modify_user_failures_witness :
  ∃ w', modify_user (H := demo_externals false) "bob" (Some "alice") None None None
          None None demo_world = (Raise IntegrityError, w')
        ∧ users w' = users demo_world.
Proof.
  destruct (@modify_user_failures (demo_externals false) demo_world demo_bob demo_alice
              (Some "alice") None None None None None) as [_ Hclash].
  - exact demo_world_ok.
  - repeat constructor.
  - repeat constructor.
  - discriminate.
  - apply Hclash. left. reflexivity.
Defined.

Lemma writers_keep_constraints_witness :
  store_ok (users (delete_user "alice" demo_world).2).
Proof.
  destruct (@writers_keep_constraints (demo_externals false) demo_world demo_world_ok)
    as (_ & _ & Hdel & _).
  apply Hdel.
Defined.

Lemma fill_tree_once_witness :
  (fill_tree "t1" ≫= λ _, fill_tree "t2") demo_untreed = fill_tree "t1" demo_untreed.
Proof.
  destruct (fill_tree_once demo_untreed "t1") as [_ Hfilled].
  destruct Hfilled as [_ Hlater]; [discriminate|]. apply Hlater.
Defined.

Lemma get_all_user_details_by_tree_witness :
  ∃ ds, get_all_user_details (Some "t2") demo_two_trees = (Return ds, demo_two_trees)
        ∧ _get_user_detail demo_underscore ∈ ds.
Proof.
  destruct (get_all_user_details_by_tree demo_two_trees "t2") as [Htree _].
  destruct Htree as (ds & Hrun & Hrows); [discriminate|].
  exists ds. split; [exact Hrun|]. apply Hrows.
  exists demo_underscore. split; [repeat constructor|].
  split; [reflexivity | left; reflexivity].
Defined.

Lemma config_set_then_get_witness :
  ∃ t', config_set (H := demo_settings) "EMAIL_HOST" "smtp.example.org" demo_config
        = (Return (), t')
        ∧ config_get "EMAIL_HOST" t' = (Return (Some "smtp.example.org"), t').
Proof.
  destruct (@config_set_then_get demo_settings demo_config "EMAIL_HOST"
              "smtp.example.org" demo_config_ok) as [Hallowed _].
  destruct Hallowed as (t' & Hset & Hget & _); [decided|].
  exists t'. split; [exact Hset | exact Hget].
Defined.

Lemma config_delete_then_get_witness :
  ∃ t', config_delete "BASE_URL" demo_config = (Return (), t')
        ∧ config_get "BASE_URL" t' = (Return None, t').
Proof.
  destruct (config_delete_then_get demo_config "BASE_URL" demo_config_ok)
    as (t' & Hdel & Hget & _).
  exists t'. split; [exact Hdel | exact Hget].
Defined.

Lemma config_get_all_agrees_witness :
  ∃ d, config_get_all demo_config = (Return d, demo_config)
       ∧ config_get "BASE_URL" demo_config
         = (Return (mjoin (d !! "BASE_URL")), demo_config).
Proof.
  destruct (config_get_all_agrees demo_config demo_config_ok) as (d & Hall & _ & Hget).
  exists d. split; [exact Hall | apply Hget].
Defined.

Lemma send_email_new_user_recipients_witness :
  users (call (send_email_new_user (H := demo_externals false))
           ("carol", "Carol", "carol@example.org", "t1") demo_world).2
  = users demo_world.
Proof.
  destruct (@send_email_new_user_recipients (demo_externals false)
              "carol" "Carol" "carol@example.org" "t1" demo_world)
    as (to & _ & _ & _ & _ & Husers).
  exact Husers.
Defined.

Lemma delete_guarded_witness :
  ∃ w', UserResource_delete (H := demo_externals false)
          (demo_caller {[PERM_DEL_USER]} "t1") "bob" demo_world
        = (Return (Text EmptyString, 200), w').
Proof.
  destruct (@delete_guarded (demo_externals false)
              (demo_caller {[PERM_DEL_USER]} "t1") demo_world demo_world_ok)
    as (_ & _ & Hknown).
  destruct (Hknown demo_bob "t1") as [_ Hyes];
    [repeat constructor | discriminate | reflexivity |].
  destruct Hyes as (w' & Hrun & _); [decided|].
  exists w'. exact Hrun.
Defined.



Lemma role_separation_witness :
  refused (UserResource_delete (H := demo_externals false)
             (demo_caller perms_editor "t1") "bob" demo_world) demo_world.
Proof.
  destruct (@role_separation (demo_externals false) (demo_caller perms_editor "t1")
              ROLE_EDITOR perms_editor "bob" demo_world PERMISSIONS_editor eq_refl)
    as [Hbelow _].
  destruct Hbelow as (_ & Hdel & _); [reflexivity | exact Hdel].
Defined.


Lemma registered_cannot_login_witness :
  ∃ out w',
    UserRegisterResource_post (H := demo_externals false) (demo_register_args "pw")
      "carol" demo_world = (out, w')
    ∧ authorized (H := demo_externals false) "carol" "pw" w' = (Return false, w').
Proof.
  destruct (@registered_cannot_login (demo_externals false) demo_world
              (demo_register_args "pw") "carol" demo_alice)
    as (out & w' & Hrun & _ & Hauth & _).
  - exact demo_world_ok.
  - discriminate.
  - discriminate.
  - discriminate.
  - repeat constructor.
  - split; [reflexivity|]. by intros t [= <-].
  - decided.
  - decided.
  - decided.
  - exists out, w'. split; [exact Hrun | apply Hauth].
Defined.

Lemma trigger_reset_reads_witness :
  UserTriggerResetPasswordResource_post (H := demo_externals false) "bob" demo_world
  = (Raise (HTTPException 404), demo_world).
Proof.
  destruct (@trigger_reset_reads (demo_externals false) demo_world demo_world_ok)
    as (_ & _ & _ & Hnomail & _).
  apply (Hnomail demo_bob); [repeat constructor | reflexivity].
Defined.


Lemma change_password_checks_witness :
  UserChangePasswordResource_post (H := demo_externals false)
    (demo_caller {[PERM_EDIT_OWN_USER]} "t1") (mkChangePasswordArgs "wrong" "new")
    "-" demo_world
  = (Raise (HTTPException 403), demo_world).
Proof.
  destruct (@change_password_checks (demo_externals false)
              (demo_caller {[PERM_EDIT_OWN_USER]} "t1")
              (mkChangePasswordArgs "wrong" "new") "-" demo_alice false demo_world)
    as [Hrefuse _].
  - exact demo_world_ok.
  - repeat constructor.
  - left. split_and!; [reflexivity | reflexivity | decided | reflexivity].
  - apply Hrefuse. right. reflexivity.
Defined.

Lemma users_list_by_reach_witness :
  UsersResource_get (demo_caller ∅ "t1") demo_world
  = (Raise (HTTPException 403), demo_world).
Proof.
  destruct (users_list_by_reach (demo_caller ∅ "t1") demo_world) as [_ Hno].
  destruct Hno as [Hnone _]; [decided|]. apply Hnone. decided.
Defined.

Lemma view_guarded_witness :
  UserResource_get (H := demo_externals false) (demo_caller ∅ "t1") "-" demo_world
  = (Return (jsonify (_get_user_detail demo_alice), 200), demo_world).
Proof.
  destruct (@view_guarded (demo_externals false) (demo_caller ∅ "t1") demo_world
              demo_world_ok) as (_ & _ & _ & Hshow & _).
  apply (Hshow "-" demo_alice);
    [repeat constructor | left; split; reflexivity | right; reflexivity].
Defined.

Lemma reset_form_matches_post_witness :
  @UserResetPasswordResource_get demo_settings demo_reset_request demo_world
  = (Return (Text "reset_password.html", 200), demo_world).
Proof.
  destruct (@reset_form_matches_post (demo_externals false) demo_settings
              demo_reset_request demo_world demo_world_ok) as (_ & Hknown & _).
  destruct (Hknown demo_alice) as [_ Hform]; [repeat constructor | reflexivity |].
  destruct (Hform "secret#" "new") as [Hsame _];
    [reflexivity | reflexivity | discriminate |].
  destruct (Hsame eq_refl) as [Hget _]. exact Hget.
Defined.

Lemma put_file_refusals_witness :
  MediaFileResource_put (H := demo_media_externals) (demo_caller {[PERM_EDIT_OBJ]} "t1")
    (demo_put_file "old" false) "h1" demo_media_store
  = (Raise (HTTPException 409), demo_media_store).
Proof.
  destruct (@put_file_refusals demo_media_externals (demo_caller {[PERM_EDIT_OBJ]} "t1")
              (demo_put_file "old" false) "h1" demo_media_store) as (_ & Hperm & _).
  destruct Hperm as [_ Hfound]; [decided|].
  destruct (Hfound demo_photo) as [_ Htags]; [reflexivity|].
  destruct Htags as [_ Hmime].
  - intros etag Hin. apply list_elem_of_singleton in Hin. exact Hin.
  - destruct (Hmime "image/jpeg") as [Hsame _]; [reflexivity | discriminate |].
    apply Hsame; [reflexivity | left; reflexivity].
Defined.

Lemma put_file_effect_witness :
  ∃ s', MediaFileResource_put (H := demo_media_externals)
          (demo_caller {[PERM_EDIT_OBJ]} "t1") (demo_put_file "new" false) "h1"
          demo_media_store
        = (Return (Json (JInt 1), 200), s')
        ∧ objects s' !! "h1" = Some (mkMedia "sum-new.jpg" "sum-new" "image/jpeg").
Proof.
  destruct (@put_file_effect demo_media_externals (demo_caller {[PERM_EDIT_OBJ]} "t1")
              (demo_put_file "new" false) "h1" demo_media_store demo_photo "image/jpeg")
    as [Hnew _].
  - decided.
  - reflexivity.
  - intros etag Hin. apply list_elem_of_singleton in Hin. exact Hin.
  - reflexivity.
  - discriminate.
  - destruct Hnew as (s' & obj' & Hrun & Hobj & Hlookup & _);
      [discriminate | reflexivity |].
    exists s'. split.
    + rewrite Hrun. reflexivity.
    + rewrite Hlookup, Hobj. reflexivity.
Defined.

End further_examples.
